(** * Kubelet volume plugins, the CNI driver, the service cache and kubectl drain

    A shallow embedding of the Go sources of this repository and the
    properties proved of them:
    - [pkg/volume/awsebs], [pkg/volume/gcepd]: [GetVolumeLimits], [SetUpAt],
      [TearDownAt], [CanSupport], [GetVolumeName], [newMounterInternal],
      [ConstructVolumeSpec] and [Provision] of the AWS plugin;
    - [pkg/volume/util]: [UnmountMountPoint], [PathExists], [IsCorruptedMnt],
      [JoinMountOptions], [MountOptionFromSpec], the size, name and path
      helpers ([RoundUpSize], [GenerateVolumeName], [SplitUniqueName],
      [GetWindowsPath], [MakeAbsolutePath]), the zone lists and the choice of
      zones ([ChooseZoneForVolume], [ChooseZonesForVolume],
      [SelectZonesForVolume]);
    - [pkg/volume/azure_dd]: [Attach], [Detach], [WaitForAttach],
      [MountDevice];
    - [pkg/kubelet/dockershim/network/cni]: [checkInitialized], [SetUpPod],
      [TearDownPod], [Event];
    - [pkg/api/v1/resource]: [GetResourceRequest];
    - the service controller's cache and the [cordon], [uncordon] and [drain]
      commands, of which the sources hold only the tests.

    The code is sequential glue around a mounter, a cloud provider, the CNI
    library and an API server.  Each function is embedded as a program tree
    over the calls it makes to its environment; a handler interprets the
    calls over an arbitrary world and records them, so that "which calls are
    made, in which order, with which answers" can be stated for every
    environment at once.  Pure functions are plain functions.

    The file has two parts: the embedding, then the theorems about it. *)

From Stdlib Require Import ZArith Lia List Ascii String Bool DecimalString Sorted.
From stdpp Require Import base option list gmap strings fin_maps.
Import ListNotations.

Open Scope string_scope.
Open Scope list_scope.

(** * Part I: the embedding *)

(** ** Go values *)

Module Go.

(** [syscall.Errno] values the sources test for, and a catch-all. *)
Inductive Errno := ENOENT | ENOTCONN | ESTALE | EIO | EOTHER (code : N).

Definition Errno_eqb (a b : Errno) : bool :=
  match a, b with
  | ENOENT, ENOENT | ENOTCONN, ENOTCONN | ESTALE, ESTALE | EIO, EIO => true
  | EOTHER m, EOTHER n => N.eqb m n
  | _, _ => false
  end.

(** A non-nil [error]: the three wrappers of package [os], a bare errno and
    the string errors built by [errors.New] and [fmt.Errorf]. *)
Inductive err :=
| PathError (op path : string) (e : Errno)
| LinkError (op old new : string) (e : Errno)
| SyscallError (syscall : string) (e : Errno)
| ErrnoError (e : Errno)
| ErrorString (msg : string).

(** Go's [error]; [None] is [nil]. *)
Definition error := option err.

Definition Errno_Error (e : Errno) : string :=
  match e with
  | ENOENT => "no such file or directory"
  | ENOTCONN => "transport endpoint is not connected"
  | ESTALE => "stale NFS file handle"
  | EIO => "input/output error"
  | EOTHER _ => "errno"
  end.

(** [err.Error()] *)
Definition Error (e : err) : string :=
  match e with
  | PathError op path e => op ++ " " ++ path ++ ": " ++ Errno_Error e
  | LinkError op old new e => op ++ " " ++ old ++ " " ++ new ++ ": " ++ Errno_Error e
  | SyscallError sc e => sc ++ ": " ++ Errno_Error e
  | ErrnoError e => Errno_Error e
  | ErrorString msg => msg
  end.

(** [errors.New(msg)], and [fmt.Errorf] once its arguments are rendered. *)
Definition Errorf (msg : string) : error := Some (ErrorString msg).

(** [os.IsNotExist]: unwraps the [os] wrappers and compares with [ENOENT];
    [os.ErrNotExist] is the string error "file does not exist". *)
Definition IsNotExist (e : error) : bool :=
  match e with
  | Some (PathError _ _ n) | Some (LinkError _ _ _ n)
  | Some (SyscallError _ n) | Some (ErrnoError n) => Errno_eqb n ENOENT
  | Some (ErrorString msg) => String.eqb msg "file does not exist"
  | None => false
  end.

(** [err == nil] *)
Definition is_nil (e : error) : bool :=
  match e with None => true | Some _ => false end.

(** ["%q"] of a string without special characters: the string in double
    quotes. *)
Definition quote (s : string) : string :=
  String (ascii_of_nat 34) (s ++ String (ascii_of_nat 34) EmptyString).

(** The rendering of an [error] by ["%v"]: ["<nil>"] for [nil]. *)
Definition show (e : error) : string :=
  match e with Some e => Error e | None => "<nil>" end.

(** [strconv.Itoa] *)
Definition Itoa (n : Z) : string := NilZero.string_of_int (Z.to_int n).

(** A function either returns or panics (nil dereference, index out of
    range). *)
Inductive outcome (A : Type) :=
| Returns (a : A)
| Panics (msg : string).
Arguments Returns {A} a.
Arguments Panics {A} msg.

(** [time.Duration] counts nanoseconds. *)
Definition Duration := Z.
Definition Second : Duration := 1000000000%Z.

End Go.

(** ** Programs over an environment

    [prog R] is a finite tree: either a result, or a call to the environment
    together with the continuation that receives the call's answer. *)

Module Prog.
Section WithCalls.
Context {call : Type} {resp : call -> Type}.

Inductive prog (R : Type) : Type :=
| Ret (r : R)
| Do (c : call) (k : resp c -> prog R).
Arguments Ret {R} r.
Arguments Do {R} c k.

Fixpoint bind {A B} (m : prog A) (f : A -> prog B) : prog B :=
  match m with
  | Ret a => f a
  | Do c k => Do c (fun x => bind (k x) f)
  end.

(** Perform one call and return its answer. *)
Definition perform (c : call) : prog (resp c) := Do c Ret.

(** One recorded call: what was asked and what came back. *)
Record event := Event { ev_call : call; ev_resp : resp ev_call }.

(** A handler answers every call over some world [W]. *)
Definition handler (W : Type) := forall c : call, W -> resp c * W.

(** [run h p w] is the result of [p], the final world and the calls made,
    oldest first. *)
Fixpoint run {W R} (h : handler W) (p : prog R) (w : W) : R * W * list event :=
  match p with
  | Ret r => (r, w, [])
  | Do c k =>
      let '(x, w1) := h c w in
      let '(r, w2, tr) := run h (k x) w1 in
      (r, w2, Event c x :: tr)
  end.

(** [always P p]: [P] holds of the recorded calls and the result along
    every path of [p], whatever the environment answers. *)
Fixpoint always {R} (P : list event -> R -> Prop) (p : prog R) : Prop :=
  match p with
  | Ret r => P [] r
  | Do c k => forall x : resp c, always (fun tr r => P (Event c x :: tr) r) (k x)
  end.

End WithCalls.

Arguments prog {call} resp R.
Arguments Ret {call resp R} r.
Arguments Do {call resp R} c k.
Arguments event {call} resp.
Arguments Event {call resp} ev_call ev_resp.
Arguments handler {call} resp W.
End Prog.

Declare Scope prog_scope.
Delimit Scope prog_scope with prog.
Notation "x <- c ;; k" := (Prog.bind c (fun x => k))
  (at level 20, c at level 99, k at level 200, right associativity) : prog_scope.
Notation "' pat <- c ;; k" := (Prog.bind c (fun x => let 'pat := x in k))
  (at level 20, pat pattern, c at level 99, k at level 200, right associativity) : prog_scope.

(** ** Packages [strings], [strconv] and [sets.String], as far as used *)

Module GoStrings.

(** [strings.HasPrefix] *)
Definition HasPrefix (s p : string) : bool := String.prefix p s.

Fixpoint drop (n : nat) (s : string) : string :=
  match n, s with
  | O, _ => s
  | S n', String _ s' => drop n' s'
  | S _, EmptyString => EmptyString
  end.

(** [strings.Replace(s, old, new, -1)] for a non-empty [old]: every
    non-overlapping occurrence, left to right. *)
Fixpoint replace_fuel (fuel : nat) (s old new : string) : string :=
  match fuel with
  | O => s
  | S fuel' =>
      match s with
      | EmptyString => EmptyString
      | String c s' =>
          if String.prefix old s
          then (new ++ replace_fuel fuel' (drop (String.length old) s) old new)%string
          else String c (replace_fuel fuel' s' old new)
      end
  end.

Definition Replace (s old new : string) : string :=
  replace_fuel (String.length s) s old new.

(** [strings.Split(s, sep)] for a one-byte separator. *)
Fixpoint Split (s : string) (sep : ascii) : list string :=
  match s with
  | EmptyString => [EmptyString]
  | String c s' =>
      if Ascii.eqb c sep then EmptyString :: Split s' sep
      else match Split s' sep with
           | [] => [String c EmptyString]
           | w :: ws => String c w :: ws
           end
  end.

Definition digit (c : ascii) : option Z :=
  let n := Z.of_N (N_of_ascii c) in
  if (48 <=? n)%Z && (n <=? 57)%Z then Some (n - 48)%Z else None.

Fixpoint digits (acc : Z) (s : string) : option Z :=
  match s with
  | EmptyString => Some acc
  | String c s' =>
      match digit c with
      | Some d => digits (10 * acc + d)%Z s'
      | None => None
      end
  end.

(** [strconv.Atoi] on a 64-bit platform: an optional sign, then one or more
    decimal digits, within the range of [int]. [None] is the error case. *)
Definition Atoi (s : string) : option Z :=
  let body sign s' :=
    match s' with
    | EmptyString => None
    | _ => match digits 0 s' with
           | Some n =>
               let v := (sign * n)%Z in
               if (- 2 ^ 63 <=? v)%Z && (v <? 2 ^ 63)%Z then Some v else None
           | None => None
           end
    end in
  match s with
  | String "+"%char s' => body 1%Z s'
  | String "-"%char s' => body (-1)%Z s'
  | _ => body 1%Z s
  end.

(** [sets.String]: kept as the sorted list that [List()] returns. *)
Fixpoint Insert (x : string) (l : list string) : list string :=
  match l with
  | [] => [x]
  | y :: l' =>
      match String.compare x y with
      | Lt => x :: l
      | Eq => l
      | Gt => y :: Insert x l'
      end
  end.

End GoStrings.

(** ** The node as the volume code sees it

    The calls of [mount.Interface], of package [os] and of
    [volume.SetVolumeOwnership] that the mount and unmount paths make, and
    [mount.IsNotMountPoint], the extensive check of package [mount], none of
    which is among the sources.  Logging ([glog]) is not a call of the
    model. *)

Module Node.

Inductive call :=
| IsLikelyNotMountPoint (file : string)
| IsNotMountPoint (file : string)
| Mount (source target fstype : string) (options : list string)
| Unmount (target : string)
| MkdirAll (path : string) (perm : N)
| Remove (name : string)
| Stat (name : string)
| SetVolumeOwnership (path : string) (fsGroup : option Z).

(** The two mount-point checks answer [(notMnt, err)]; every other call
    answers an [error] ([os.Stat]'s [FileInfo] is never used). *)
Definition resp (c : call) : Type :=
  match c with
  | IsLikelyNotMountPoint _ | IsNotMountPoint _ => (bool * Go.error)%type
  | _ => Go.error
  end.

Definition prog := Prog.prog resp.
Definition event := Prog.event resp.
Definition handler := Prog.handler resp.

(** The mode [0750] (octal) that the sources pass to [os.MkdirAll]. *)
Definition perm_0750 : N := 7 * 64 + 5 * 8.

(** The calls as the sources write them. *)
Definition mounter_IsLikelyNotMountPoint (file : string) : prog (bool * Go.error) :=
  Prog.perform (IsLikelyNotMountPoint file).
Definition mount_IsNotMountPoint (file : string) : prog (bool * Go.error) :=
  Prog.perform (IsNotMountPoint file).
Definition mounter_Mount (source target fstype : string) (options : list string)
  : prog Go.error := Prog.perform (Mount source target fstype options).
Definition mounter_Unmount (target : string) : prog Go.error :=
  Prog.perform (Unmount target).
Definition os_MkdirAll (path : string) (perm : N) : prog Go.error :=
  Prog.perform (MkdirAll path perm).
Definition os_Remove (name : string) : prog Go.error :=
  Prog.perform (Remove name).
Definition os_Stat (name : string) : prog Go.error :=
  Prog.perform (Stat name).
Definition volume_SetVolumeOwnership (path : string) (fsGroup : option Z)
  : prog Go.error := Prog.perform (SetVolumeOwnership path fsGroup).

Definition is_Mount (e : event) : bool :=
  match Prog.ev_call e with Mount _ _ _ _ => true | _ => false end.

Definition is_Unmount (e : event) : bool :=
  match Prog.ev_call e with Unmount _ => true | _ => false end.

(** The error a recorded [Mount] call came back with, [None] for a [Mount]
    that succeeded and for every other call. *)
Definition mount_error (e : event) : Go.error :=
  match e with
  | Prog.Event c r =>
      match c return resp c -> Go.error with
      | Mount _ _ _ _ => fun r => r
      | _ => fun _ => None
      end r
  end.

(** A recorded mount-point check that answered "this is a mount point"
    ([notMnt] false). *)
Definition reports_mount_point (e : event) : bool :=
  match e with
  | Prog.Event c r =>
      match c return resp c -> bool with
      | IsLikelyNotMountPoint _ | IsNotMountPoint _ => fun r => negb r.1
      | _ => fun _ => false
      end r
  end.

(** A recorded [Unmount] call that returned [nil]. *)
Definition is_ok_Unmount (e : event) : bool :=
  match e with
  | Prog.Event c r =>
      match c return resp c -> bool with
      | Unmount _ => fun r => Go.is_nil r
      | _ => fun _ => false
      end r
  end.

(** The calls made after the first successful [Unmount] of a trace, [None]
    when no [Unmount] succeeded. *)
Fixpoint after_unmount (tr : list event) : option (list event) :=
  match tr with
  | [] => None
  | e :: tr' => if is_ok_Unmount e then Some tr' else after_unmount tr'
  end.

(** The errors of the failed [Mount] calls of a trace, oldest first. *)
Definition failed_mounts (tr : list event) : list Go.err :=
  omap mount_error tr.

(** [volume.VolumeHost], the two path queries the mounters make. *)
Record VolumeHost := {
  GetPluginDir : string -> string;
  GetPodVolumeDir : string -> string -> string -> string;
}.

(** Path helpers that are not among the sources and are taken as given:
    [filepath.Join], [path.Join], [kstrings.EscapeQualifiedNameForDisk] and
    the constant [mount.MountsInGlobalPDPath]. *)
Record PathLib := {
  filepath_Join : list string -> string;
  path_Join : list string -> string;
  EscapeQualifiedNameForDisk : string -> string;
  MountsInGlobalPDPath : string;
}.

(** [cloudprovider.Instances], the one query [GetVolumeLimits] makes. *)
Record Instances := {
  InstanceType : string -> string * Go.error;
}.

(** [cloudprovider.Interface]: [Instances()] answers [(instances, ok)];
    [None] is the not-ok answer. *)
Record Cloud := {
  ProviderName : string;
  GetInstances : option Instances;
}.

(** What a plugin asks of its host beside paths: the cloud provider
    ([None] is [nil]) and the node's name. *)
Record CloudHost := {
  GetCloudProvider : option Cloud;
  GetNodeName : string;
}.

End Node.

(** ** Package [volume/util] *)

Module Util.
Import Node.
Local Open Scope prog_scope.

(** [JoinMountOptions]: joins mount options eliminating duplicates; empty
    user options are dropped, system options are all kept. *)
Definition JoinMountOptions (userOptions systemOptions : list string) : list string :=
  let allMountOptions :=
    fold_left (fun s mountOption =>
                 if (0 <? String.length mountOption)%nat
                 then GoStrings.Insert mountOption s else s)
              userOptions [] in
  fold_left (fun s mountOption => GoStrings.Insert mountOption s)
            systemOptions allMountOptions.

(** [IsCorruptedMnt]: the errno under one of the three [os] wrappers is
    [ENOTCONN], [ESTALE] or [EIO]. Errors of any other type have no
    underlying error. *)
Definition IsCorruptedMnt (err : Go.error) : bool :=
  match err with
  | None => false
  | Some e =>
      let underlyingError :=
        match e with
        | Go.PathError _ _ n | Go.LinkError _ _ _ n | Go.SyscallError _ n => Some n
        | _ => None
        end in
      match underlyingError with
      | Some n => Go.Errno_eqb n Go.ENOTCONN || Go.Errno_eqb n Go.ESTALE
                  || Go.Errno_eqb n Go.EIO
      | None => false
      end
  end.

(** [PathExists] *)
Definition PathExists (path : string) : prog (bool * Go.error) :=
  err <- os_Stat path ;;
  if Go.is_nil err then Prog.Ret (true, None)
  else if Go.IsNotExist err then Prog.Ret (false, None)
  else if IsCorruptedMnt err then Prog.Ret (true, err)
  else Prog.Ret (false, err).

(** [doUnmountMountPoint] *)
Definition doUnmountMountPoint (mountPath : string)
    (extensiveMountPointCheck corruptedMnt : bool) : prog Go.error :=
  let unmount : prog Go.error :=
    err <- mounter_Unmount mountPath ;;
    if negb (Go.is_nil err) then Prog.Ret err else
    '(notMnt, mntErr) <- mounter_IsLikelyNotMountPoint mountPath ;;
    if negb (Go.is_nil mntErr) then Prog.Ret mntErr else
    if notMnt then os_Remove mountPath
    else Prog.Ret (Go.Errorf ("failed to unmount path " ++ mountPath)) in
  if negb corruptedMnt then
    '(notMnt, err) <-
      (if extensiveMountPointCheck
       then mount_IsNotMountPoint mountPath
       else mounter_IsLikelyNotMountPoint mountPath) ;;
    if negb (Go.is_nil err) then Prog.Ret err else
    if notMnt then os_Remove mountPath
    else unmount
  else unmount.

(** [UnmountMountPoint] *)
Definition UnmountMountPoint (mountPath : string)
    (extensiveMountPointCheck : bool) : prog Go.error :=
  '(pathExists, pathErr) <- PathExists mountPath ;;
  if negb pathExists then Prog.Ret None else
  let corruptedMnt := IsCorruptedMnt pathErr in
  if negb (Go.is_nil pathErr) && negb corruptedMnt
  then Prog.Ret (Go.Errorf ("error checking path: " ++ Go.show pathErr))
  else doUnmountMountPoint mountPath extensiveMountPointCheck corruptedMnt.

(** [UnmountPath] *)
Definition UnmountPath (mountPath : string) : prog Go.error :=
  UnmountMountPoint mountPath false.

End Util.

(** ** [pkg/volume/awsebs/aws_ebs.go] *)

Module AwsEbs.
Import Node.
Local Open Scope prog_scope.

Definition awsElasticBlockStorePluginName : string := "kubernetes.io/aws-ebs".

Section Limits.
(** Constants of [volume/util] and [cloudprovider/providers/aws], and
    [regexp.MatchString]: none is among the sources. *)
Variable EBSVolumeLimitKey : string.
Variable DefaultMaxEBSVolumes DefaultMaxEBSNitroVolumeLimit : Z.
Variable EBSNitroLimitRegex : string.
Variable aws_ProviderName : string.
Variable regexp_MatchString : string -> string -> bool * Go.error.

(** [awsElasticBlockStorePlugin.GetVolumeLimits]; a [nil] map is [None]. *)
Definition GetVolumeLimits (host : CloudHost) : option (gmap string Z) * Go.error :=
  let volumeLimits : gmap string Z := {[ EBSVolumeLimitKey := DefaultMaxEBSVolumes ]} in
  match GetCloudProvider host with
  | None => (None, Go.Errorf "no cloudprovider present")
  | Some cloud =>
      if negb (String.eqb (ProviderName cloud) aws_ProviderName)
      then (None, Go.Errorf ("expected aws cloud, found " ++ ProviderName cloud))
      else
        match GetInstances cloud with
        | None => (Some volumeLimits, None)
        | Some instances =>
            let '(instanceType, err) := InstanceType instances (GetNodeName host) in
            if negb (Go.is_nil err) then (Some volumeLimits, None)
            else
              let '(ok, _) := regexp_MatchString EBSNitroLimitRegex instanceType in
              if ok
              then (Some (<[ EBSVolumeLimitKey := DefaultMaxEBSNitroVolumeLimit ]> volumeLimits),
                    None)
              else (Some volumeLimits, None)
        end
  end.
End Limits.

(** [awsElasticBlockStoreMounter] with the fields of the embedded
    [awsElasticBlockStore] that the mount path reads. *)
Record awsElasticBlockStoreMounter := {
  volName : string;
  podUID : string;
  volumeID : string;
  partition : string;
  fsType : string;
  readOnly : bool;
  mountOptions : list string;
  host : VolumeHost;
}.

Section Paths.
Variable L : PathLib.

Definition getPath (uid volName : string) (host : VolumeHost) : string :=
  GetPodVolumeDir host uid
    (EscapeQualifiedNameForDisk L awsElasticBlockStorePluginName) volName.

Definition GetPath (b : awsElasticBlockStoreMounter) : string :=
  getPath (podUID b) (volName b) (host b).

Definition makeGlobalPDPath (host : VolumeHost) (volumeID : string) : string :=
  let name := GoStrings.Replace volumeID "://" "/" in
  filepath_Join L
    [GetPluginDir host awsElasticBlockStorePluginName; MountsInGlobalPDPath L; name].

(** [awsElasticBlockStoreMounter.SetUpAt] *)
Definition SetUpAt (b : awsElasticBlockStoreMounter) (dir : string)
    (fsGroup : option Z) : prog Go.error :=
  '(notMnt, err) <- mounter_IsLikelyNotMountPoint dir ;;
  if negb (Go.is_nil err) && negb (Go.IsNotExist err) then Prog.Ret err else
  if negb notMnt then Prog.Ret None else
  let globalPDPath := makeGlobalPDPath (host b) (volumeID b) in
  mkErr <- os_MkdirAll dir perm_0750 ;;
  if negb (Go.is_nil mkErr) then Prog.Ret mkErr else
  let options := ["bind"] ++ (if readOnly b then ["ro"] else []) in
  let mountOptions := Util.JoinMountOptions options (mountOptions b) in
  err <- mounter_Mount globalPDPath dir "" mountOptions ;;
  if negb (Go.is_nil err) then
    let cleanup : prog Go.error := _ <- os_Remove dir ;; Prog.Ret err in
    '(notMnt, mntErr) <- mounter_IsLikelyNotMountPoint dir ;;
    if negb (Go.is_nil mntErr) then Prog.Ret err else
    if negb notMnt then
      mntErr <- mounter_Unmount dir ;;
      if negb (Go.is_nil mntErr) then Prog.Ret err else
      '(notMnt, mntErr) <- mounter_IsLikelyNotMountPoint dir ;;
      if negb (Go.is_nil mntErr) then Prog.Ret err else
      if negb notMnt then Prog.Ret err
      else cleanup
    else cleanup
  else
    if negb (readOnly b)
    then _ <- volume_SetVolumeOwnership (GetPath b) fsGroup ;; Prog.Ret None
    else Prog.Ret None.

(** [awsElasticBlockStoreMounter.SetUp] *)
Definition SetUp (b : awsElasticBlockStoreMounter) (fsGroup : option Z) : prog Go.error :=
  SetUpAt b (GetPath b) fsGroup.

(** [awsElasticBlockStoreUnmounter.TearDownAt] *)
Definition TearDownAt (dir : string) : prog Go.error := Util.UnmountPath dir.

End Paths.
End AwsEbs.

(** ** [pkg/volume/gcepd/gce_pd.go] *)

Module GcePd.
Import Node.
Local Open Scope prog_scope.

Definition gcePersistentDiskPluginName : string := "kubernetes.io/gce-pd".

Definition OneCPU : Z := 1.
Definition EightCPUs : Z := 8.
Definition VolumeLimit16 : Z := 16.
Definition VolumeLimit32 : Z := 32.
Definition VolumeLimit64 : Z := 64.
Definition VolumeLimit128 : Z := 128.

Section Limits.
(** [util.GCEVolumeLimitKey] and [gcecloud.ProviderName] are not among the
    sources. *)
Variable GCEVolumeLimitKey : string.
Variable gce_ProviderName : string.

(** [gcePersistentDiskPlugin.GetVolumeLimits]; a [nil] map is [None]. *)
Definition GetVolumeLimits (host : CloudHost) : option (gmap string Z) * Go.error :=
  let volumeLimits : gmap string Z := {[ GCEVolumeLimitKey := VolumeLimit16 ]} in
  match GetCloudProvider host with
  | None => (None, Go.Errorf "no cloudprovider present")
  | Some cloud =>
      if negb (String.eqb (ProviderName cloud) gce_ProviderName)
      then (None, Go.Errorf ("expected gce cloud got " ++ ProviderName cloud))
      else
        match GetInstances cloud with
        | None => (Some volumeLimits, None)
        | Some instances =>
            let '(instanceType, err) := InstanceType instances (GetNodeName host) in
            if negb (Go.is_nil err) then (Some volumeLimits, None)
            else if GoStrings.HasPrefix instanceType "n1-" then
              let splits := GoStrings.Split instanceType "-" in
              if (length splits <? 3)%nat then (Some volumeLimits, None)
              else
                let last := nth 2 splits "" in
                match GoStrings.Atoi last with
                | Some num =>
                    if (num =? OneCPU)%Z
                    then (Some (<[ GCEVolumeLimitKey := VolumeLimit32 ]> volumeLimits), None)
                    else if (num <? EightCPUs)%Z
                    then (Some (<[ GCEVolumeLimitKey := VolumeLimit64 ]> volumeLimits), None)
                    else (Some (<[ GCEVolumeLimitKey := VolumeLimit128 ]> volumeLimits), None)
                | None => (Some volumeLimits, None)
                end
            else (Some volumeLimits, None)
        end
  end.
End Limits.

(** [gcePersistentDiskMounter] with the fields of the embedded
    [gcePersistentDisk] that the mount path reads. *)
Record gcePersistentDiskMounter := {
  volName : string;
  podUID : string;
  pdName : string;
  partition : string;
  readOnly : bool;
  mountOptions : list string;
  host : VolumeHost;
}.

Section Paths.
Variable L : PathLib.

Definition getPath (uid volName : string) (host : VolumeHost) : string :=
  GetPodVolumeDir host uid
    (EscapeQualifiedNameForDisk L gcePersistentDiskPluginName) volName.

Definition GetPath (b : gcePersistentDiskMounter) : string :=
  getPath (podUID b) (volName b) (host b).

Definition makeGlobalPDName (host : VolumeHost) (devName : string) : string :=
  path_Join L [GetPluginDir host gcePersistentDiskPluginName; MountsInGlobalPDPath L; devName].

(** [gcePersistentDiskMounter.SetUpAt] *)
Definition SetUpAt (b : gcePersistentDiskMounter) (dir : string)
    (fsGroup : option Z) : prog Go.error :=
  '(notMnt, err) <- mounter_IsLikelyNotMountPoint dir ;;
  if negb (Go.is_nil err) && negb (Go.IsNotExist err) then Prog.Ret err else
  if negb notMnt then Prog.Ret None else
  mkErr <- os_MkdirAll dir perm_0750 ;;
  if negb (Go.is_nil mkErr) then Prog.Ret mkErr else
  let options := ["bind"] ++ (if readOnly b then ["ro"] else []) in
  let globalPDPath := makeGlobalPDName (host b) (pdName b) in
  let mountOptions := Util.JoinMountOptions (mountOptions b) options in
  err <- mounter_Mount globalPDPath dir "" mountOptions ;;
  if negb (Go.is_nil err) then
    let cleanup : prog Go.error := _ <- os_Remove dir ;; Prog.Ret err in
    '(notMnt, mntErr) <- mounter_IsLikelyNotMountPoint dir ;;
    if negb (Go.is_nil mntErr) then Prog.Ret err else
    if negb notMnt then
      mntErr <- mounter_Unmount dir ;;
      if negb (Go.is_nil mntErr) then Prog.Ret err else
      '(notMnt, mntErr) <- mounter_IsLikelyNotMountPoint dir ;;
      if negb (Go.is_nil mntErr) then Prog.Ret err else
      if negb notMnt then Prog.Ret err
      else cleanup
    else cleanup
  else
    if negb (readOnly b)
    then _ <- volume_SetVolumeOwnership (GetPath b) fsGroup ;; Prog.Ret None
    else Prog.Ret None.

(** [gcePersistentDiskMounter.SetUp] *)
Definition SetUp (b : gcePersistentDiskMounter) (fsGroup : option Z) : prog Go.error :=
  SetUpAt b (GetPath b) fsGroup.

(** [gcePersistentDiskUnmounter.TearDownAt] *)
Definition TearDownAt (dir : string) : prog Go.error := Util.UnmountPath dir.

End Paths.
End GcePd.

(** ** [volume.Mounter]: the two disk mounters behind one interface *)

Module Volume.
Import Node.

Inductive Mounter :=
| AwsMounter (b : AwsEbs.awsElasticBlockStoreMounter)
| GceMounter (b : GcePd.gcePersistentDiskMounter).

(** [Mounter.SetUpAt], dispatched on the mounter's type. *)
Definition SetUpAt (L : PathLib) (m : Mounter) (dir : string) (fsGroup : option Z)
  : prog Go.error :=
  match m with
  | AwsMounter b => AwsEbs.SetUpAt L b dir fsGroup
  | GceMounter b => GcePd.SetUpAt L b dir fsGroup
  end.

(** Whether the lookup of the node's instance data fails: [Instances()]
    answers not-ok, or [InstanceType] answers an error. *)
Definition instance_lookup_fails (host : CloudHost) (cloud : Cloud) : bool :=
  match GetInstances cloud with
  | None => true
  | Some instances => negb (Go.is_nil (InstanceType instances (GetNodeName host)).2)
  end.

End Volume.

(** ** A small node to run the programs on

    In the manner of [mount.FakeMounter]: the world is the set of existing
    directories and the list of mount points, with switches that make
    [Mount], [Unmount] or [Remove] fail. *)

Module FakeNode.
Import Node.

Record world := {
  dirs : list string;
  mountPoints : list string;
  mountFails : bool;     (* [Mount] answers an error ... *)
  mountSticks : bool;    (* ... and still leaves the target mounted *)
  unmountFails : bool;
  removeFails : bool;
}.

Definition has (l : list string) (s : string) : bool :=
  existsb (String.eqb s) l.

Definition without (l : list string) (s : string) : list string :=
  List.filter (fun x => negb (String.eqb s x)) l.

Definition set_dirs (w : world) (d : list string) : world :=
  {| dirs := d; mountPoints := mountPoints w; mountFails := mountFails w;
     mountSticks := mountSticks w; unmountFails := unmountFails w;
     removeFails := removeFails w |}.

Definition set_mountPoints (w : world) (m : list string) : world :=
  {| dirs := dirs w; mountPoints := m; mountFails := mountFails w;
     mountSticks := mountSticks w; unmountFails := unmountFails w;
     removeFails := removeFails w |}.

Definition check (w : world) (file : string) : bool * Go.error :=
  if has (dirs w) file then (negb (has (mountPoints w) file), None)
  else (true, Some (Go.PathError "stat" file Go.ENOENT)).

Definition handle : handler world := fun c =>
  match c return world -> resp c * world with
  | IsLikelyNotMountPoint file => fun w => (check w file, w)
  | IsNotMountPoint file => fun w => (check w file, w)
  | Mount _ target _ _ => fun w =>
      if mountFails w
      then (Go.Errorf "mount failed",
            if mountSticks w then set_mountPoints w (target :: mountPoints w) else w)
      else (None, set_mountPoints w (target :: mountPoints w))
  | Unmount target => fun w =>
      if unmountFails w then (Go.Errorf "unmount failed", w)
      else (None, set_mountPoints w (without (mountPoints w) target))
  | MkdirAll path _ => fun w =>
      (None, if has (dirs w) path then w else set_dirs w (path :: dirs w))
  | Remove name => fun w =>
      if removeFails w then (Some (Go.PathError "remove" name (Go.EOTHER 39)), w)
      else if has (dirs w) name then (None, set_dirs w (without (dirs w) name))
      else (Some (Go.PathError "remove" name Go.ENOENT), w)
  | Stat name => fun w =>
      (if has (dirs w) name then None else Some (Go.PathError "stat" name Go.ENOENT), w)
  | SetVolumeOwnership _ _ => fun w => (None, w)
  end.

Definition paths : PathLib := {|
  filepath_Join := fun l => String.concat "/" l;
  path_Join := fun l => String.concat "/" l;
  EscapeQualifiedNameForDisk := fun s => GoStrings.Replace s "/" "~";
  MountsInGlobalPDPath := "mounts";
|}.

Definition volumeHost : VolumeHost := {|
  GetPluginDir := fun name => ("/var/lib/kubelet/plugins/" ++ name)%string;
  GetPodVolumeDir := fun uid plugin vol =>
    ("/var/lib/kubelet/pods/" ++ uid ++ "/volumes/" ++ plugin ++ "/" ++ vol)%string;
|}.

Definition ebs : AwsEbs.awsElasticBlockStoreMounter := {|
  AwsEbs.volName := "data"; AwsEbs.podUID := "uid1";
  AwsEbs.volumeID := "aws://us-east-1a/vol-1"; AwsEbs.partition := "";
  AwsEbs.fsType := "ext4"; AwsEbs.readOnly := false;
  AwsEbs.mountOptions := ["noatime"]; AwsEbs.host := volumeHost;
|}.

Definition pd : GcePd.gcePersistentDiskMounter := {|
  GcePd.volName := "data"; GcePd.podUID := "uid1"; GcePd.pdName := "disk-1";
  GcePd.partition := ""; GcePd.readOnly := true;
  GcePd.mountOptions := []; GcePd.host := volumeHost;
|}.

(** A cloud whose [Instances()] is not supported, and one whose
    [InstanceType] lookup fails or answers [ty]. *)
Definition cloudWithoutInstances (provider : string) : Cloud :=
  {| ProviderName := provider; GetInstances := None |}.

Definition cloudWithInstanceType (provider : string) (ty : string * Go.error) : Cloud :=
  {| ProviderName := provider;
     GetInstances := Some {| InstanceType := fun _ => ty |} |}.

Definition cloudHost (c : option Cloud) : CloudHost :=
  {| GetCloudProvider := c; GetNodeName := "node-1" |}.

(** A stand-in for [regexp.MatchString] on the one pattern the EBS plugin
    uses: instance types of the c5, m5 and r5 families. *)
Definition matchNitro (pattern s : string) : bool * Go.error :=
  (String.prefix "c5" s || String.prefix "m5" s || String.prefix "r5" s, None).

(** An empty node on which every [Mount] fails and leaves its target
    mounted. *)
Definition failing : world := {|
  dirs := []; mountPoints := []; mountFails := true; mountSticks := true;
  unmountFails := false; removeFails := false;
|}.

(** A node on which ["/pod/vol"] is already a mount point. *)
Definition mounted : world := {|
  dirs := ["/pod/vol"]; mountPoints := ["/pod/vol"]; mountFails := false;
  mountSticks := false; unmountFails := false; removeFails := false;
|}.

(** A node on which ["/pod/vol"] is mounted and its directory cannot be
    removed. *)
Definition undeletable : world := {|
  dirs := ["/pod/vol"]; mountPoints := ["/pod/vol"]; mountFails := false;
  mountSticks := false; unmountFails := false; removeFails := true;
|}.

(** A node on which ["/pod/vol"] is a plain directory. *)
Definition unmounted : world := {|
  dirs := ["/pod/vol"]; mountPoints := []; mountFails := false;
  mountSticks := false; unmountFails := false; removeFails := false;
|}.

End FakeNode.

(** ** [pkg/kubelet/dockershim/network/cni/cni.go] *)

Module Cni.
Local Open Scope prog_scope.

(** [types.NetConf] of the CNI library: the plugin type and the
    capabilities it declares. *)
Record NetConf := {
  Type_ : string;
  Capabilities : gmap string bool;
}.

(** [libcni.NetworkConfig] and [libcni.NetworkConfigList] *)
Record NetworkConfig := { Network : NetConf }.
Record NetworkConfigList := { Name : string; Plugins : list NetworkConfig }.

(** [cniNetwork]; [CNIConfig] is the library handle, named by its
    binary directories. *)
Record cniNetwork := {
  name : string;
  NetworkConfig_ : NetworkConfigList;
  CNIConfig : list string;
}.

Record cniPortMapping := {
  HostPort : Z;
  ContainerPort : Z;
  Protocol : string;
  HostIP : string;
}.

Record cniBandwidthEntry := {
  IngressRate : Z;
  IngressBurst : Z;
  EgressRate : Z;
  EgressBurst : Z;
}.

Record cniIpRange := { Subnet : string }.

(** [libcni.RuntimeConf]; [CapabilityArgs] is a map with the three keys
    ["portMappings"], ["bandwidth"] (optional) and ["ipRanges"]. *)
Record RuntimeConf := {
  ContainerID : string;
  NetNS : string;
  IfName : string;
  Args : list (string * string);
  portMappings : list cniPortMapping;
  bandwidth : option cniBandwidthEntry;
  ipRanges : list (list cniIpRange);
}.

(** [cniNetworkPlugin], the fields the pod paths read. *)
Record cniNetworkPlugin := {
  loNetwork : option cniNetwork;
  defaultNetwork : option cniNetwork;
  podCidr : string;
}.

(** What the plugin calls: its host and the CNI library. *)
Inductive call :=
| GetNetNS (containerID : string)
| GetPodPortMappings (containerID : string)
| AddNetworkList (cni : list string) (netConf : NetworkConfigList) (rt : RuntimeConf)
| DelNetworkList (cni : list string) (netConf : NetworkConfigList) (rt : RuntimeConf).

Definition resp (c : call) : Type :=
  match c with
  | GetNetNS _ => (string * Go.error)%type
  | GetPodPortMappings _ => (list cniPortMapping * Go.error)%type
  | AddNetworkList _ _ _ => (string * Go.error)%type
  | DelNetworkList _ _ _ => Go.error
  end.

Definition prog := Prog.prog resp.
Definition event := Prog.event resp.
Definition handler := Prog.handler resp.

Definition host_GetNetNS (containerID : string) : prog (string * Go.error) :=
  Prog.perform (GetNetNS containerID).
Definition host_GetPodPortMappings (containerID : string)
  : prog (list cniPortMapping * Go.error) := Prog.perform (GetPodPortMappings containerID).
Definition cniNet_AddNetworkList (cni : list string) (netConf : NetworkConfigList)
    (rt : RuntimeConf) : prog (string * Go.error) :=
  Prog.perform (AddNetworkList cni netConf rt).

Import Go (outcome, Returns, Panics).

(** [m[key]] on a [map[string]bool]: [false] for a missing key. *)
Definition capability (p : NetworkConfig) (key : string) : bool :=
  default false (Capabilities (Network p) !! key).

(** The loop of [checkInitialized] over the plugins of the default network:
    the first plugin with the [ipRanges] capability decides. *)
Fixpoint checkPlugins (podCidr : string) (plugins : list NetworkConfig) : Go.error :=
  match plugins with
  | [] => None
  | p :: rest =>
      if capability p "ipRanges"
      then (if String.eqb podCidr "" then Go.Errorf "no PodCIDR set" else None)
      else checkPlugins podCidr rest
  end.

(** [cniNetworkPlugin.checkInitialized] *)
Definition checkInitialized (plugin : cniNetworkPlugin) : Go.error :=
  match defaultNetwork plugin with
  | None => Go.Errorf "cni config uninitialized"
  | Some n => checkPlugins (podCidr plugin) (Plugins (NetworkConfig_ n))
  end.

Section Lib.
(** [bandwidth.ExtractPodBandwidthResources], [network.DefaultInterfaceName]
    and [strings.ToLower] are not among the sources. *)
Variable ExtractPodBandwidthResources :
  gmap string string -> option Z * option Z * Go.error.
Variable DefaultInterfaceName : string.
Variable strings_ToLower : string -> string.

(** [cniNetworkPlugin.buildCNIRuntimeConf]; [inl] is the error return. *)
Definition buildCNIRuntimeConf (plugin : cniNetworkPlugin) (podName podNs : string)
    (podSandboxID : string) (podNetnsPath : string)
    (annotations : gmap string string) : prog (Go.err + RuntimeConf) :=
  '(portMappings, err) <- host_GetPodPortMappings podSandboxID ;;
  match err with
  | Some e =>
      Prog.Ret (inl (Go.ErrorString ("could not retrieve port mappings: " ++ Go.Error e)))
  | None =>
      let portMappingsParam :=
        map (fun p => {| HostPort := HostPort p; ContainerPort := ContainerPort p;
                         Protocol := strings_ToLower (Protocol p); HostIP := HostIP p |})
            (List.filter (fun p => negb (HostPort p <=? 0)%Z) portMappings) in
      let '(ingress, egress, err) := ExtractPodBandwidthResources annotations in
      match err with
      | Some e =>
          Prog.Ret (inl (Go.ErrorString
            ("error reading pod bandwidth annotations: " ++ Go.Error e)))
      | None =>
          let bandwidthParam :=
            match ingress, egress with
            | None, None => None
            | _, _ =>
                Some {| IngressRate := match ingress with
                                       | Some v => Z.quot v 1000 | None => 0%Z end;
                        IngressBurst := 0;
                        EgressRate := match egress with
                                      | Some v => Z.quot v 1000 | None => 0%Z end;
                        EgressBurst := 0 |}
            end in
          Prog.Ret (inr {| ContainerID := podSandboxID;
                           NetNS := podNetnsPath;
                           IfName := DefaultInterfaceName;
                           Args := [("IgnoreUnknown", "1");
                                    ("K8S_POD_NAMESPACE", podNs);
                                    ("K8S_POD_NAME", podName);
                                    ("K8S_POD_INFRA_CONTAINER_ID", podSandboxID)];
                           portMappings := portMappingsParam;
                           bandwidth := bandwidthParam;
                           ipRanges := [[{| Subnet := podCidr plugin |}]] |})
      end
  end.

(** [cniNetworkPlugin.addToNetwork]. The log lines read
    [netConf.Plugins[0]], which panics on an empty plugin list, and
    [network.NetworkConfig] panics on a nil network. *)
Definition addToNetwork (plugin : cniNetworkPlugin) (network : option cniNetwork)
    (podName podNamespace podSandboxID podNetnsPath : string)
    (annotations : gmap string string) : prog (outcome (option string * Go.error)) :=
  rt <- buildCNIRuntimeConf plugin podName podNamespace podSandboxID
          podNetnsPath annotations ;;
  match rt with
  | inl e => Prog.Ret (Returns (None, Some e))
  | inr rt =>
      match network with
      | None => Prog.Ret (Panics "invalid memory address or nil pointer dereference")
      | Some network =>
          let netConf := NetworkConfig_ network in
          match Plugins netConf with
          | [] => Prog.Ret (Panics "index out of range")
          | _ :: _ =>
              '(res, err) <- cniNet_AddNetworkList (CNIConfig network) netConf rt ;;
              match err with
              | Some e => Prog.Ret (Returns (None, Some e))
              | None => Prog.Ret (Returns (Some res, None))
              end
          end
      end
  end.

(** [cniNetworkPlugin.SetUpPod] *)
Definition SetUpPod (plugin : cniNetworkPlugin) (namespace name : string)
    (id : string) (annotations : gmap string string) : prog (outcome Go.error) :=
  match checkInitialized plugin with
  | Some e => Prog.Ret (Returns (Some e))
  | None =>
      '(netnsPath, err) <- host_GetNetNS id ;;
      match err with
      | Some e =>
          Prog.Ret (Returns (Go.Errorf
            ("CNI failed to retrieve network namespace path: " ++ Go.Error e)))
      | None =>
          let default : prog (outcome Go.error) :=
            r <- addToNetwork plugin (defaultNetwork plugin) name namespace id
                   netnsPath annotations ;;
            match r with
            | Returns (_, err) => Prog.Ret (Returns err)
            | Panics msg => Prog.Ret (Panics msg)
            end in
          match loNetwork plugin with
          | Some lo =>
              r <- addToNetwork plugin (Some lo) name namespace id netnsPath annotations ;;
              match r with
              | Returns (_, Some e) => Prog.Ret (Returns (Some e))
              | Returns (_, None) => default
              | Panics msg => Prog.Ret (Panics msg)
              end
          | None => default
          end
      end
  end.

End Lib.

(** [cniNetworkPlugin.Event]: only the first pod CIDR is kept.
    [details] is the CIDR carried by the event, [None] when the detail is
    missing or not a string. *)
Definition Event (NET_PLUGIN_EVENT_POD_CIDR_CHANGE : string)
    (plugin : cniNetworkPlugin) (name : string) (details : option string)
  : cniNetworkPlugin :=
  if negb (String.eqb name NET_PLUGIN_EVENT_POD_CIDR_CHANGE) then plugin else
  match details with
  | None => plugin
  | Some podCIDR =>
      if negb (String.eqb (podCidr plugin) "") then plugin
      else {| loNetwork := loNetwork plugin;
              defaultNetwork := defaultNetwork plugin;
              podCidr := podCIDR |}
  end.

End Cni.

(** ** A small host and CNI library to run the plugin on *)

Module FakeCni.
Import Cni.

(** The world counts the ADD operations performed. *)
Definition handle : handler nat := fun c =>
  match c return nat -> resp c * nat with
  | GetNetNS id => fun w => (("/proc/42/ns/net", None), w)
  | GetPodPortMappings id => fun w => (([], None), w)
  | AddNetworkList _ netConf _ => fun w => ((Name netConf, None), S w)
  | DelNetworkList _ _ _ => fun w => (None, w)
  end.

Definition noBandwidth (_ : gmap string string) : option Z * option Z * Go.error :=
  (None, None, None).

Definition bridge (caps : gmap string bool) : cniNetwork := {|
  name := "k8s-pod-network";
  NetworkConfig_ := {| Name := "k8s-pod-network";
                       Plugins := [ {| Network := {| Type_ := "bridge";
                                                     Capabilities := caps |} |} ] |};
  CNIConfig := ["/opt/cni/bin"];
|}.

Definition lo : cniNetwork := {|
  name := "lo";
  NetworkConfig_ := {| Name := "cni-loopback";
                       Plugins := [ {| Network := {| Type_ := "loopback";
                                                     Capabilities := ∅ |} |} ] |};
  CNIConfig := ["/opt/cni/bin"];
|}.

Definition SetUpPod := Cni.SetUpPod noBandwidth "eth0" (fun s => s).

End FakeCni.

(** ** [pkg/volume/azure_dd/attacher.go] *)

Module AzureDD.
Import Go (outcome, Returns, Panics).
Local Open Scope prog_scope.

(** [v1.AzureDiskVolumeSource]; the three pointer fields are options. *)
Record AzureDiskVolumeSource := {
  DiskName : string;
  DataDiskURI : string;
  CachingMode : option string;
  FSType : option string;
  Kind : option string;
}.

(** [v1.AzureManagedDisk] *)
Definition AzureManagedDisk : string := "Managed".

(** What the attacher calls: the cloud, the disk controller, the keyed
    mutex [getLunMutex], the SCSI helpers and the poller behind
    [wait.Poll]. *)
Inductive call :=
| InstanceID (nodeName : string)
| GetDiskController
| GetDiskLun (diskName diskURI nodeName : string)
| GetNextDiskLun (nodeName : string)
| AttachDisk (isManagedDisk : bool) (diskName diskURI nodeName : string)
             (lun : Z) (cachingMode : string)
| DetachDiskByName (diskName diskURI nodeName : string)
| LockKey (id : string)
| UnlockKey (id : string)
| ScsiHostRescan
| FindDiskByLun (lun : Z)
| PollerStart (interval timeout : Go.Duration)
| PollerRecv.

(** [PollerRecv] is the receive [_, open := <-c] on the poller's channel:
    it blocks until the next tick ([true]) or until the timeout has closed
    the channel ([false]). *)
Definition resp (c : call) : Type :=
  match c with
  | InstanceID _ => (string * Go.error)%type
  | GetDiskController => Go.error
  | GetDiskLun _ _ _ => (Z * Go.error)%type
  | GetNextDiskLun _ => (Z * Go.error)%type
  | AttachDisk _ _ _ _ _ _ => Go.error
  | DetachDiskByName _ _ _ => Go.error
  | LockKey _ => unit
  | UnlockKey _ => unit
  | ScsiHostRescan => unit
  | FindDiskByLun _ => (string * Go.error)%type
  | PollerStart _ _ => unit
  | PollerRecv => bool
  end.

Definition prog := Prog.prog resp.
Definition event := Prog.event resp.
Definition handler := Prog.handler resp.

Definition cloud_InstanceID (nodeName : string) : prog (string * Go.error) :=
  Prog.perform (InstanceID nodeName).
Definition getDiskController : prog Go.error := Prog.perform GetDiskController.
Definition diskController_GetDiskLun (diskName diskURI nodeName : string)
  : prog (Z * Go.error) := Prog.perform (GetDiskLun diskName diskURI nodeName).
Definition diskController_GetNextDiskLun (nodeName : string) : prog (Z * Go.error) :=
  Prog.perform (GetNextDiskLun nodeName).
Definition diskController_AttachDisk (isManagedDisk : bool)
    (diskName diskURI nodeName : string) (lun : Z) (cachingMode : string)
  : prog Go.error :=
  Prog.perform (AttachDisk isManagedDisk diskName diskURI nodeName lun cachingMode).
Definition diskController_DetachDiskByName (diskName diskURI nodeName : string)
  : prog Go.error := Prog.perform (DetachDiskByName diskName diskURI nodeName).
Definition getLunMutex_LockKey (id : string) : prog unit := Prog.perform (LockKey id).
Definition getLunMutex_UnlockKey (id : string) : prog unit := Prog.perform (UnlockKey id).
Definition scsiHostRescan : prog unit := Prog.perform ScsiHostRescan.
Definition findDiskByLun (lun : Z) : prog (string * Go.error) :=
  Prog.perform (FindDiskByLun lun).
Definition poller_start (interval timeout : Go.Duration) : prog unit :=
  Prog.perform (PollerStart interval timeout).
Definition poller_recv : prog bool := Prog.perform PollerRecv.

Definition is_FindDiskByLun (e : event) : bool :=
  match Prog.ev_call e with FindDiskByLun _ => true | _ => false end.

(** What a recorded [findDiskByLun] call answered; [None] for any other
    call. *)
Definition scan_result (e : event) : option (string * Go.error) :=
  match e with
  | Prog.Event c r =>
      match c return resp c -> option (string * Go.error) with
      | FindDiskByLun _ => fun r => Some r
      | _ => fun _ => None
      end r
  end.

(** The answers of the scans of a trace, oldest first. *)
Definition scans_of (tr : list event) : list (string * Go.error) :=
  omap scan_result tr.

Definition is_PollerRecv (e : event) : bool :=
  match Prog.ev_call e with PollerRecv => true | _ => false end.

Definition is_PollerStart (e : event) : bool :=
  match Prog.ev_call e with PollerStart _ _ => true | _ => false end.

(** [wait.ErrWaitTimeout] *)
Definition ErrWaitTimeout : Go.error := Go.Errorf "timed out waiting for the condition".

(** Modelled from the spec: [wait.Poll] of [k8s.io/apimachinery/pkg/util/wait]
    is not among the sources.  The spec names it "bounded polling with a
    fixed timeout"; the loop is [wait.WaitFor] as that package documents it:
    after every receive on the poller's channel the condition is tried; an
    error of the condition ends the polling with that error, [true] ends it
    with [nil], and once the channel is closed (the timeout has elapsed) the
    polling ends with [ErrWaitTimeout].  The condition is always tried at
    least once.  The condition is a closure: [S] is the state of the
    variables it captures, threaded through the rounds.  [fuel] bounds the
    number of rounds; [None] is "out of fuel". *)
Fixpoint WaitFor {S : Type} (fuel : nat) (condition : S -> prog (S * (bool * Go.error)))
    (s : S) : prog (S * option Go.error) :=
  match fuel with
  | O => Prog.Ret (s, None)
  | S fuel' =>
      open <- poller_recv ;;
      '(s', (ok, err)) <- condition s ;;
      if negb (Go.is_nil err) then Prog.Ret (s', Some err) else
      if ok then Prog.Ret (s', Some None) else
      if negb open then Prog.Ret (s', Some ErrWaitTimeout)
      else WaitFor fuel' condition s'
  end.

(** Modelled from the spec: [wait.Poll(interval, timeout, condition)], not
    among the sources: start the poller, then [WaitFor]. *)
Definition Poll {S : Type} (fuel : nat) (interval timeout : Go.Duration)
    (condition : S -> prog (S * (bool * Go.error))) (s : S)
  : prog (S * option Go.error) :=
  _ <- poller_start interval timeout ;;
  WaitFor fuel condition s.

Section Attacher.
(** Helpers of the package that are not among the sources:
    [getVolumeSource] on an abstract [volume.Spec] ([inl] is its error),
    [getDiskLUN], which reads the LUN off a device path, and
    [runtime.GOOS]. *)
Variable Spec : Type.
Variable getVolumeSource : Spec -> Go.err + AzureDiskVolumeSource.
Variable getDiskLUN : string -> Z * Go.error.
Variable GOOS : string.
(** [a.plugin.host.GetHostName()] *)
Variable hostName : string.

(** [azureDiskAttacher.Attach].  [defer getLunMutex.UnlockKey(instanceid)]
    runs on every way out of the function once the lock is taken, a panic
    included. *)
Definition Attach (spec : Spec) (nodeName : string)
  : prog (outcome (string * Go.error)) :=
  match getVolumeSource spec with
  | inl e => Prog.Ret (Returns ("", Some e))
  | inr volumeSource =>
      '(instanceid, err) <- cloud_InstanceID nodeName ;;
      if negb (Go.is_nil err)
      then Prog.Ret (Returns ("", Go.Errorf ("failed to get azure instance id for node "
                                             ++ Go.quote nodeName ++ " (" ++ Go.show err ++ ")")))
      else
      err <- getDiskController ;;
      if negb (Go.is_nil err) then Prog.Ret (Returns ("", err)) else
      '(lun, err) <- diskController_GetDiskLun (DiskName volumeSource)
                       (DataDiskURI volumeSource) nodeName ;;
      if Go.is_nil err then Prog.Ret (Returns (Go.Itoa lun, err))
      else
        _ <- getLunMutex_LockKey instanceid ;;
        let deferred (r : outcome (string * Go.error)) : prog (outcome (string * Go.error)) :=
          _ <- getLunMutex_UnlockKey instanceid ;; Prog.Ret r in
        '(lun, err) <- diskController_GetNextDiskLun nodeName ;;
        if negb (Go.is_nil err)
        then deferred (Returns ("", Go.Errorf
               ("all LUNs are used, cannot attach volume " ++ Go.quote (DiskName volumeSource)
                ++ " to instance " ++ Go.quote instanceid ++ " (" ++ Go.show err ++ ")")))
        else
        match Kind volumeSource, CachingMode volumeSource with
        | Some kind, Some cachingMode =>
            let isManagedDisk := String.eqb kind AzureManagedDisk in
            err <- diskController_AttachDisk isManagedDisk (DiskName volumeSource)
                     (DataDiskURI volumeSource) nodeName lun cachingMode ;;
            if Go.is_nil err then deferred (Returns (Go.Itoa lun, err))
            else deferred (Returns ("", Go.Errorf
                   ("attach volume " ++ Go.quote (DiskName volumeSource) ++ " to instance "
                    ++ Go.quote instanceid ++ " failed with " ++ Go.show err)))
        | _, _ => deferred (Panics "invalid memory address or nil pointer dereference")
        end
  end.

(** [azureDiskDetacher.Detach] *)
Definition Detach (diskURI nodeName : string) : prog Go.error :=
  if String.eqb diskURI ""
  then Prog.Ret (Go.Errorf ("invalid disk to detach: " ++ Go.quote diskURI))
  else
  '(instanceid, err) <- cloud_InstanceID nodeName ;;
  if negb (Go.is_nil err) then Prog.Ret None else
  err <- getDiskController ;;
  if negb (Go.is_nil err) then Prog.Ret err else
  _ <- getLunMutex_LockKey instanceid ;;
  err <- diskController_DetachDiskByName "" diskURI nodeName ;;
  _ <- getLunMutex_UnlockKey instanceid ;;
  Prog.Ret err.

(** The closure that [WaitForAttach] hands to [wait.Poll]; its state is
    [newDevicePath], the variable of [WaitForAttach] that it assigns. *)
Definition waitCondition (nodeName diskName : string) (lun : Z) (_ : string)
  : prog (string * (bool * Go.error)) :=
  '(newDevicePath, err) <- findDiskByLun lun ;;
  if negb (Go.is_nil err)
  then Prog.Ret (newDevicePath,
                 (false, Go.Errorf ("azureDisk - WaitForAttach ticker failed node ("
                    ++ nodeName ++ ") disk (" ++ diskName ++ ") lun(" ++ Go.Itoa lun
                    ++ ") err(" ++ Go.show err ++ ")")))
  else if negb (String.eqb newDevicePath "")
  then Prog.Ret (newDevicePath, (true, None))
  else Prog.Ret (newDevicePath,
                 (false, Go.Errorf ("azureDisk - WaitForAttach failed within timeout node ("
                    ++ nodeName ++ ") diskId:(" ++ diskName ++ ") lun:(" ++ Go.Itoa lun ++ ")"))).

(** [azureDiskAttacher.WaitForAttach]; [None] when [fuel] rounds of
    polling were not enough to reach the return. *)
Definition WaitForAttach (fuel : nat) (spec : Spec) (devicePath : string)
    (timeout : Go.Duration) : prog (option (string * Go.error)) :=
  match getVolumeSource spec with
  | inl e => Prog.Ret (Some ("", Some e))
  | inr volumeSource =>
      err <- getDiskController ;;
      if negb (Go.is_nil err) then Prog.Ret (Some ("", err)) else
      let nodeName := hostName in
      let diskName := DiskName volumeSource in
      let wait (lun : Z) : prog (option (string * Go.error)) :=
        _ <- scsiHostRescan ;;
        '(newDevicePath, err) <-
          Poll fuel (1 * Go.Second)%Z timeout (waitCondition nodeName diskName lun) "" ;;
        match err with
        | Some err => Prog.Ret (Some (newDevicePath, err))
        | None => Prog.Ret None
        end in
      if String.eqb GOOS "windows" then
        '(lun, err) <- diskController_GetDiskLun diskName (DataDiskURI volumeSource)
                         nodeName ;;
        if negb (Go.is_nil err) then Prog.Ret (Some ("", err)) else wait lun
      else
        let '(lun, err) := getDiskLUN devicePath in
        if negb (Go.is_nil err) then Prog.Ret (Some ("", err)) else wait lun
  end.

(** Modelled from the spec: the polling that the spec's words describe,
    for comparison with [waitCondition]: "it keeps checking until the device
    appears or the timeout elapses".  A scan that does not find the device
    asks for another round instead of returning an error. *)
Definition waitCondition_as_specified (nodeName diskName : string) (lun : Z) (_ : string)
  : prog (string * (bool * Go.error)) :=
  '(newDevicePath, err) <- findDiskByLun lun ;;
  if negb (Go.is_nil err)
  then Prog.Ret (newDevicePath,
                 (false, Go.Errorf ("azureDisk - WaitForAttach ticker failed node ("
                    ++ nodeName ++ ") disk (" ++ diskName ++ ") lun(" ++ Go.Itoa lun
                    ++ ") err(" ++ Go.show err ++ ")")))
  else if negb (String.eqb newDevicePath "")
  then Prog.Ret (newDevicePath, (true, None))
  else Prog.Ret (newDevicePath, (false, None)).

End Attacher.
End AzureDD.

(** ** A small Azure node to run the attacher on

    The world is a clock of poller ticks and a disk that shows up under its
    LUN at a given scan. *)

Module FakeAzure.
Import AzureDD.

Record world := {
  ticksLeft : nat;     (* ticks the poller still sends before the timeout *)
  scans : nat;         (* [findDiskByLun] calls so far *)
  appearsAt : nat;     (* the scan at which the device shows up *)
  held : list string;  (* keys of [getLunMutex] that are locked *)
}.

Definition upd (w : world) (t s : nat) (h : list string) : world :=
  {| ticksLeft := t; scans := s; appearsAt := appearsAt w; held := h |}.

Definition handle : handler world := fun c =>
  match c return world -> resp c * world with
  | InstanceID nodeName => fun w => (("vm-" ++ nodeName, None)%string, w)
  | GetDiskController => fun w => (None, w)
  | GetDiskLun _ _ _ => fun w => ((-1, Go.Errorf "Cannot find Lun for disk")%Z, w)
  | GetNextDiskLun _ => fun w => ((0%Z, None), w)
  | AttachDisk _ _ _ _ _ _ => fun w => (None, w)
  | DetachDiskByName _ _ _ => fun w => (None, w)
  | LockKey id => fun w => (tt, upd w (ticksLeft w) (scans w) (id :: held w))
  | UnlockKey id => fun w =>
      (tt, upd w (ticksLeft w) (scans w)
             (List.filter (fun k => negb (String.eqb id k)) (held w)))
  | ScsiHostRescan => fun w => (tt, w)
  | FindDiskByLun lun => fun w =>
      let n := S (scans w) in
      ((if (appearsAt w <=? n)%nat
        then ("/dev/disk/azure/scsi1/lun" ++ Go.Itoa lun)%string else "", None),
       upd w (ticksLeft w) n (held w))
  | PollerStart interval timeout => fun w =>
      (tt, upd w (Z.to_nat (timeout / interval)) (scans w) (held w))
  | PollerRecv => fun w =>
      match ticksLeft w with
      | O => (false, w)
      | S t => (true, upd w t (scans w) (held w))
      end
  end.

Definition getVolumeSource (spec : option AzureDiskVolumeSource)
  : Go.err + AzureDiskVolumeSource :=
  match spec with
  | Some v => inr v
  | None => inl (Go.ErrorString "azureDisk - Spec does not reference an Azure disk volume type")
  end.

Definition getDiskLUN (deviceInfo : string) : Z * Go.error :=
  match GoStrings.Atoi deviceInfo with
  | Some n => (n, None)
  | None => ((-1)%Z, Go.Errorf ("azureDisk - failed to get lun from " ++ deviceInfo))
  end.

Definition disk : option AzureDiskVolumeSource := Some {|
  DiskName := "disk1";
  DataDiskURI := "/subscriptions/s/resourceGroups/g/providers/Microsoft.Compute/disks/disk1";
  CachingMode := Some "ReadWrite"; FSType := Some "ext4"; Kind := Some "Managed";
|}.

Definition WaitForAttach :=
  AzureDD.WaitForAttach (option AzureDiskVolumeSource) getVolumeSource getDiskLUN
    "linux" "node-1".

Definition Attach :=
  AzureDD.Attach (option AzureDiskVolumeSource) getVolumeSource.

(** A node on which the device shows up at the [n]-th scan. *)
Definition node (n : nat) : world :=
  {| ticksLeft := 0; scans := 0; appearsAt := n; held := [] |}.

End FakeAzure.

(** ** Concurrent attach and detach operations *)

(** Modelled from the spec: the keyed mutex [keymutex.NewHashed(0)] behind
    [getLunMutex] and the scheduling of goroutines are not among the
    sources.  The spec's words are "a package-level keyed mutex serializing
    LUN allocation per Azure instance" and "one attacher per instance ID at
    a time": [LockKey id] can only be taken while the mutex that [id] hashes
    to is free, [UnlockKey id] frees it, and the operations of a pool run
    interleaved, one call at a time, against an environment that may answer
    anything. *)

Module AzureConc.
Import AzureDD.

(** One operation in flight: the instance id it has resolved so far, the
    keys it holds, and what is left of its program. *)
Record thread := {
  t_inst : option string;
  t_held : list string;
  t_prog : prog unit;
}.

(** The pool: the operations in flight and, for every locked mutex of the
    hashed key mutex, the index of the operation that locked it. *)
Record pool := {
  threads : list thread;
  locked : gmap nat nat;
}.

(** The calls that allocate a LUN or change what is attached to a VM. *)
Definition critical (c : call) : bool :=
  match c with
  | GetNextDiskLun _ | AttachDisk _ _ _ _ _ _ | DetachDiskByName _ _ _ => true
  | _ => false
  end.

(** The operation's next call. *)
Definition next_call (t : thread) : option call :=
  match t_prog t with
  | Prog.Ret _ => None
  | Prog.Do c _ => Some c
  end.

(** The instance id and the held keys once call [c] has answered [x]. *)
Definition after (c : call) : resp c -> option string * list string ->
                              option string * list string :=
  match c return resp c -> _ -> _ with
  | InstanceID _ => fun x '(inst, held) =>
      (if Go.is_nil x.2 then Some x.1 else inst, held)
  | LockKey id => fun _ '(inst, held) => (inst, id :: held)
  | UnlockKey id => fun _ '(inst, held) =>
      (inst, List.filter (fun k => negb (String.eqb id k)) held)
  | _ => fun _ s => s
  end.

Section Mutex.
(** The slot of the hashed key mutex that a key falls into. *)
Variable slot : string -> nat.

(** Modelled from the spec: whether a call can run now; [LockKey] only
    while the mutex of its key is free. *)
Definition enabled (locked : gmap nat nat) (c : call) : Prop :=
  match c with
  | LockKey id => locked !! slot id = None
  | _ => True
  end.

(** Modelled from the spec: the lock table after call [c] of operation
    [i]; [LockKey] records [i] as the holder, [UnlockKey] frees the mutex. *)
Definition relock (i : nat) (c : call) (locked : gmap nat nat) : gmap nat nat :=
  match c with
  | LockKey id => <[ slot id := i ]> locked
  | UnlockKey id => delete (slot id) locked
  | _ => locked
  end.

(** Modelled from the spec: one step of the pool; operation [i] makes its
    next call [c], which is enabled, and the environment answers [x]. *)
Inductive step : pool -> pool -> Prop :=
| step_call (P : pool) (i : nat) (t : thread) (c : call)
            (k : resp c -> prog unit) (x : resp c) :
    threads P !! i = Some t ->
    t_prog t = Prog.Do c k ->
    enabled (locked P) c ->
    step P {| threads :=
                <[ i := {| t_inst := (after c x (t_inst t, t_held t)).1;
                           t_held := (after c x (t_inst t, t_held t)).2;
                           t_prog := k x |} ]> (threads P);
              locked := relock i c (locked P) |}.

(** The pools that some interleaving reaches from [P0]. *)
Inductive reachable (P0 : pool) : pool -> Prop :=
| reach_start : reachable P0 P0
| reach_step (P Q : pool) : reachable P0 P -> step P Q -> reachable P0 Q.

(** A scheduler for concrete runs: [fire i answer P] lets operation [i]
    make its next call, answered by [answer], when the call is enabled, and
    leaves the pool as it is otherwise. *)
Definition enabledb (locked : gmap nat nat) (c : call) : bool :=
  match c with
  | LockKey id => match locked !! slot id with None => true | Some _ => false end
  | _ => true
  end.

Definition fire (answer : forall c : call, resp c) (P : pool) (i : nat) : pool :=
  match threads P !! i with
  | None => P
  | Some t =>
      match t_prog t with
      | Prog.Ret _ => P
      | Prog.Do c k =>
          if enabledb (locked P) c
          then {| threads :=
                    <[ i := {| t_inst := (after c (answer c) (t_inst t, t_held t)).1;
                               t_held := (after c (answer c) (t_inst t, t_held t)).2;
                               t_prog := k (answer c) |} ]> (threads P);
                  locked := relock i c (locked P) |}
          else P
      end
  end.

Definition run_schedule (answer : forall c : call, resp c) (schedule : list nat)
    (P : pool) : pool :=
  fold_left (fire answer) schedule P.

End Mutex.

(** The lock discipline of one program: [LockKey] is called on the
    resolved instance id with no key held, every critical call runs with
    exactly that key held, [UnlockKey] releases the held key, and nothing
    is held at the end. *)
Definition guard (inst : option string) (held : list string) (c : call) : Prop :=
  match c with
  | LockKey id => held = [] /\ inst = Some id
  | UnlockKey id => held = [id]
  | _ => if critical c then exists id, held = [id] /\ inst = Some id else True
  end.

Fixpoint disciplined (inst : option string) (held : list string) (p : prog unit) : Prop :=
  match p with
  | Prog.Ret _ => held = []
  | Prog.Do c k =>
      guard inst held c /\
      forall x : resp c,
        disciplined (after c x (inst, held)).1 (after c x (inst, held)).2 (k x)
  end.

Section TableInvariant.
Variable slot : string -> nat.

(** What holds of every pool that can be reached: each operation keeps its
    discipline, and the mutex of every key an operation holds is recorded as
    locked by that operation. *)
Definition invariant (P : pool) : Prop :=
  (forall i t, threads P !! i = Some t ->
               disciplined (t_inst t) (t_held t) (t_prog t)) /\
  (forall i t id, threads P !! i = Some t -> In id (t_held t) ->
                  locked P !! slot id = Some i).

End TableInvariant.

Section Operations.
Variable Spec : Type.
Variable getVolumeSource : Spec -> Go.err + AzureDiskVolumeSource.

(** The operations the attach/detach controller starts. *)
Inductive operation :=
| OpAttach (spec : Spec) (nodeName : string)
| OpDetach (diskURI nodeName : string).

Definition program (o : operation) : prog unit :=
  match o with
  | OpAttach spec nodeName =>
      Prog.bind (Attach Spec getVolumeSource spec nodeName) (fun _ => Prog.Ret tt)
  | OpDetach diskURI nodeName =>
      Prog.bind (Detach diskURI nodeName) (fun _ => Prog.Ret tt)
  end.

(** A pool of operations that have not started yet. *)
Definition start (ops : list operation) : pool :=
  {| threads := map (fun o => {| t_inst := None; t_held := []; t_prog := program o |}) ops;
     locked := ∅ |}.

End Operations.

(** Two attach operations of the same disk set-up on the same node, with a
    four-slot key mutex. *)
Definition slot4 (key : string) : nat := String.length key mod 4.

(** A cloud on which every disk still has to be attached. *)
Definition answers (c : call) : resp c :=
  match c return resp c with
  | InstanceID nodeName => (("vm-" ++ nodeName)%string, None)
  | GetDiskController => None
  | GetDiskLun _ _ _ => ((-1)%Z, Go.Errorf "Cannot find Lun for disk")
  | GetNextDiskLun _ => (0%Z, None)
  | AttachDisk _ _ _ _ _ _ => None
  | DetachDiskByName _ _ _ => None
  | LockKey _ => tt
  | UnlockKey _ => tt
  | ScsiHostRescan => tt
  | FindDiskByLun _ => ("", None)
  | PollerStart _ _ => tt
  | PollerRecv => false
  end.

Definition twoAttaches : pool :=
  start (option AzureDiskVolumeSource) FakeAzure.getVolumeSource
    [OpAttach _ FakeAzure.disk "node-1"; OpAttach _ FakeAzure.disk "node-1"].

End AzureConc.

(** ** The service controller's cache *)

(** Modelled from the spec: [serviceCache] and its methods ([getOrCreate],
    [get], [set], [delete], [ListKeys], [GetByKey], [allServices]) are not
    among the sources, only [TestServiceCache] and the tests that use the
    cache are.  The spec's words are "a cache map guarded by a mutex" and
    "service cache add/delete/set/get/list operations are consistent"; the
    test builds the cache as [serviceCache{serviceMap: map[string]*cachedService}]
    and assigns through the pointers it gets back.  The cache is a map from
    keys to pointers, and the pointed-to [cachedService] values live in a
    heap, so that an assignment through a pointer is seen by every later
    [get].  The mutex is not modelled: each method runs as one step. *)

Module ServiceCache.

(** [v1.Service], the fields the tests set. *)
Record Service := {
  Name : string;
  Namespace : string;
  UID : string;
  Type_ : string;
  LoadBalancerIP : string;
}.

(** Modelled from the spec: [cachedService]; [state] is a pointer, [None]
    is [nil]. *)
Record cachedService := { state : option Service }.

(** A [*cachedService]. *)
Definition ptr := positive.

(** Modelled from the spec: [serviceCache], the map from keys to pointers
    and the heap the pointers point into. *)
Record serviceCache := {
  heap : gmap ptr cachedService;
  serviceMap : gmap string ptr;
}.

(** Modelled from the spec: the cache as [TestServiceCache] builds it,
    [&serviceCache{serviceMap: make(map[string]*cachedService)}]. *)
Definition empty : serviceCache := {| heap := ∅; serviceMap := ∅ |}.

(** [&cachedService{...}]: a fresh pointer. *)
Definition new (v : cachedService) (s : serviceCache) : ptr * serviceCache :=
  let p := fresh (dom (heap s)) in
  (p, {| heap := <[ p := v ]> (heap s); serviceMap := serviceMap s |}).

(** [p.state = svc] *)
Definition assign_state (p : ptr) (svc : option Service) (s : serviceCache) : serviceCache :=
  {| heap := <[ p := {| state := svc |} ]> (heap s); serviceMap := serviceMap s |}.

(** [p.state] *)
Definition state_of (s : serviceCache) (p : ptr) : option Service :=
  match heap s !! p with
  | Some v => state v
  | None => None
  end.

(** Modelled from the spec: [get], the stored pointer and whether the key
    is present. *)
Definition get (serviceName : string) (s : serviceCache) : option ptr * bool :=
  match serviceMap s !! serviceName with
  | Some p => (Some p, true)
  | None => (None, false)
  end.

(** Modelled from the spec: [getOrCreate], the stored pointer, or a new
    empty [cachedService] that is stored under the key. *)
Definition getOrCreate (serviceName : string) (s : serviceCache) : ptr * serviceCache :=
  match serviceMap s !! serviceName with
  | Some p => (p, s)
  | None =>
      let '(p, s') := new {| state := None |} s in
      (p, {| heap := heap s'; serviceMap := <[ serviceName := p ]> (serviceMap s') |})
  end.

(** Modelled from the spec: [set] stores the pointer under the key. *)
Definition set (serviceName : string) (p : ptr) (s : serviceCache) : serviceCache :=
  {| heap := heap s; serviceMap := <[ serviceName := p ]> (serviceMap s) |}.

(** Modelled from the spec: [delete] removes the key. *)
Definition delete (serviceName : string) (s : serviceCache) : serviceCache :=
  {| heap := heap s; serviceMap := base.delete serviceName (serviceMap s) |}.

(** Modelled from the spec: [ListKeys], the keys in the order of one
    iteration over the map. *)
Definition ListKeys (s : serviceCache) : list string :=
  (map_to_list (serviceMap s)).*1.

(** Modelled from the spec: [GetByKey], as [get] with a [nil] error. *)
Definition GetByKey (key : string) (s : serviceCache) : option ptr * bool * Go.error :=
  match serviceMap s !! key with
  | Some p => (Some p, true, None)
  | None => (None, false, None)
  end.

(** Modelled from the spec: [allServices], the [state] of every stored
    [cachedService] in the order of one iteration over the map. *)
Definition allServices (s : serviceCache) : list (option Service) :=
  state_of s <$> (map_to_list (serviceMap s)).*2.

(** [len(sc.serviceMap)] *)
Definition len (s : serviceCache) : nat := size (serviceMap s).

(** [defaultExternalService()] of the tests. *)
Definition defaultExternalService : Service := {|
  Name := "external-balancer"; Namespace := "default"; UID := "123";
  Type_ := "LoadBalancer"; LoadBalancerIP := "";
|}.

End ServiceCache.

(** ** [kubectl cordon], [uncordon] and [drain] *)

(** Modelled from the spec: the commands ([drain.go]: [RunCordonOrUncordon],
    [RunDrain], [getPodsForDeletion] and its pod filters) are not among the
    sources, only their tests [TestCordon] and [TestDrain] are.  The spec's
    words are "cordon/uncordon patches the node's [Spec.Unschedulable]
    field" and "drain deletes/evicts pods owned by a ReplicationController
    but refuses for naked/DaemonSet pods unless forced".  The model follows
    these words and the flags, requests and expectations of the two test
    tables, which are transcribed below and checked against it row by
    row. *)

Module Drain.
Local Open Scope prog_scope.

(** [corev1.NodeSpec] and [corev1.Node], the fields a patch could touch. *)
Record NodeSpec := {
  PodCIDR : string;
  ProviderID : string;
  Unschedulable : bool;
  Taints : list string;
}.

Record Node := {
  NodeName : string;
  Labels : list (string * string);
  Spec : NodeSpec;
}.

(** [metav1.OwnerReference] of the controlling owner. *)
Record OwnerReference := { Kind : string; OwnerName : string }.

Inductive PodPhase := PodPending | PodRunning | PodSucceeded | PodFailed.

(** [corev1.Pod], the fields the pod filters read. *)
Record Pod := {
  PodName : string;
  PodNamespace : string;
  ControllerRef : option OwnerReference;
  Phase : PodPhase;
  HasEmptyDir : bool;
  IsMirror : bool;
}.

(** The flags of [kubectl drain]. *)
Record DrainOptions := {
  Force : bool;
  IgnoreDaemonsets : bool;
  DeleteLocalData : bool;
}.

(** The strategic merge patch that the commands send: only
    [spec.unschedulable]. *)
Record NodePatch := { patch_unschedulable : bool }.

(** The requests of the commands, as [TestCordon] and [TestDrain] serve
    them, and the warning line on stderr. *)
Inductive call :=
| GetNode (name : string)
| PatchNode (name : string) (patch : NodePatch)
| ListPods (nodeName : string)
| GetDaemonSet (namespace name : string)
| SupportEviction
| DeletePod (namespace name : string)
| EvictPod (namespace name : string)
| WaitForDelete (pods : list Pod)
| ErrOut (line : string).

(** An HTTP status other than success, with its message. *)
Record StatusError := { Code : nat; Message : string }.

Definition resp (c : call) : Type :=
  match c with
  | GetNode _ => (StatusError + Node)%type
  | PatchNode _ _ => option StatusError
  | ListPods _ => (StatusError + list Pod)%type
  | GetDaemonSet _ _ => option StatusError
  | SupportEviction => bool
  | DeletePod _ _ => option StatusError
  | EvictPod _ _ => option StatusError
  | WaitForDelete _ => option StatusError
  | ErrOut _ => unit
  end.

Definition prog := Prog.prog resp.
Definition event := Prog.event resp.
Definition handler := Prog.handler resp.

Definition getNode (name : string) : prog (StatusError + Node) :=
  Prog.perform (GetNode name).
Definition patchNode (name : string) (patch : NodePatch) : prog (option StatusError) :=
  Prog.perform (PatchNode name patch).
Definition listPods (nodeName : string) : prog (StatusError + list Pod) :=
  Prog.perform (ListPods nodeName).
Definition getDaemonSet (namespace name : string) : prog (option StatusError) :=
  Prog.perform (GetDaemonSet namespace name).
Definition supportEviction : prog bool := Prog.perform SupportEviction.
Definition deletePod (namespace name : string) : prog (option StatusError) :=
  Prog.perform (DeletePod namespace name).
Definition evictPod (namespace name : string) : prog (option StatusError) :=
  Prog.perform (EvictPod namespace name).
Definition waitForDelete (pods : list Pod) : prog (option StatusError) :=
  Prog.perform (WaitForDelete pods).
Definition errOut (line : string) : prog unit := Prog.perform (ErrOut line).

(** How a command ends: normally, or through [cmdutil.CheckErr] with a
    fatal message. *)
Inductive result := Done | Fatal (msg : string).

Definition is_Fatal (r : result) : bool :=
  match r with Fatal _ => true | Done => false end.

(** [apierrors.IsNotFound] *)
Definition IsNotFound (e : StatusError) : bool := Nat.eqb (Code e) 404.

(** Modelled from the spec: what the server does with the patch;
    [Spec.Unschedulable] takes the patch's value, every other field stays. *)
Definition apply_patch (patch : NodePatch) (n : Node) : Node :=
  {| NodeName := NodeName n;
     Labels := Labels n;
     Spec := {| PodCIDR := PodCIDR (Spec n);
                ProviderID := ProviderID (Spec n);
                Unschedulable := patch_unschedulable patch;
                Taints := Taints (Spec n) |} |}.

(** Modelled from the spec: [RunCordonOrUncordon(desired)] on the node
    named on the command line:
    a node that is missing is fatal, a node that already is as desired is
    left alone, any other node is patched. *)
Definition RunCordonOrUncordon (desired : bool) (name : string) : prog result :=
  got <- getNode name ;;
  match got with
  | inl e => Prog.Ret (Fatal (Message e))
  | inr node =>
      if Bool.eqb (Unschedulable (Spec node)) desired then Prog.Ret Done
      else
        err <- patchNode name {| patch_unschedulable := desired |} ;;
        match err with
        | Some e => Prog.Ret (Fatal (Message e))
        | None => Prog.Ret Done
        end
  end.

Definition kDaemonsetFatal : string :=
  "DaemonSet-managed pods (use --ignore-daemonsets to ignore)".
Definition kDaemonsetWarning : string := "Ignoring DaemonSet-managed pods".
Definition kLocalStorageFatal : string :=
  "pods with local storage (use --delete-local-data to override)".
Definition kLocalStorageWarning : string := "Deleting pods with local storage".
Definition kUnmanagedFatal : string :=
  "pods not managed by ReplicationController, ReplicaSet, Job, DaemonSet or StatefulSet (use --force to override)".
Definition kUnmanagedWarning : string :=
  "Deleting pods not managed by ReplicationController, ReplicaSet, Job, DaemonSet or StatefulSet".

(** What a filter says of a pod: whether it may be deleted, and a warning
    or a fatal message about it. *)
Record verdict := { ok : bool; warning : option string; fatal : option string }.

Definition pass : verdict := {| ok := true; warning := None; fatal := None |}.
Definition skip_with (w : string) : verdict :=
  {| ok := false; warning := Some w; fatal := None |}.
Definition pass_with (w : string) : verdict :=
  {| ok := true; warning := Some w; fatal := None |}.
Definition refuse (f : string) : verdict :=
  {| ok := false; warning := None; fatal := Some f |}.

(** A pod that has run to completion. *)
Definition finished (pod : Pod) : bool :=
  match Phase pod with PodSucceeded | PodFailed => true | _ => false end.


(** Modelled from the spec: [daemonsetFilter].
    DaemonSet-managed pods are never deleted while their DaemonSet exists;
    without [--ignore-daemonsets] their presence is fatal.  Finished pods
    pass; pods of a missing DaemonSet pass under [--force]. *)
Definition daemonsetFilter (o : DrainOptions) (pod : Pod) : prog verdict :=
  match ControllerRef pod with
  | None => Prog.Ret pass
  | Some ref =>
      if negb (String.eqb (Kind ref) "DaemonSet") then Prog.Ret pass else
      if finished pod then Prog.Ret pass else
      err <- getDaemonSet (PodNamespace pod) (OwnerName ref) ;;
      match err with
      | Some e =>
          if IsNotFound e && Force o then Prog.Ret (pass_with (Message e))
          else Prog.Ret (refuse (Message e))
      | None =>
          if negb (IgnoreDaemonsets o) then Prog.Ret (refuse kDaemonsetFatal)
          else Prog.Ret (skip_with kDaemonsetWarning)
      end
  end.

(** Modelled from the spec: [mirrorPodFilter]; mirror pods are left alone,
    silently. *)
Definition mirrorPodFilter (pod : Pod) : verdict :=
  if IsMirror pod then {| ok := false; warning := None; fatal := None |} else pass.

(** Modelled from the spec: [localStorageFilter]; pods with [emptyDir]
    volumes need [--delete-local-data], unless finished. *)
Definition localStorageFilter (o : DrainOptions) (pod : Pod) : verdict :=
  if negb (HasEmptyDir pod) then pass else
  if finished pod then pass else
  if negb (DeleteLocalData o) then refuse kLocalStorageFatal
  else pass_with kLocalStorageWarning.

(** Modelled from the spec: [unreplicatedFilter]; pods without a controller
    need [--force], unless finished. *)
Definition unreplicatedFilter (o : DrainOptions) (pod : Pod) : verdict :=
  if finished pod then pass else
  match ControllerRef pod with
  | Some _ => pass
  | None => if Force o then pass_with kUnmanagedWarning else refuse kUnmanagedFatal
  end.

(** The messages collected for a node: message, then the pods it is about. *)
Definition podStatuses := list (string * list string).

Fixpoint note (msg pod : string) (ps : podStatuses) : podStatuses :=
  match ps with
  | [] => [(msg, [pod])]
  | (m, pods) :: rest =>
      if String.eqb m msg then (m, pods ++ [pod]) :: rest
      else (m, pods) :: note msg pod rest
  end.

Definition note_opt (msg : option string) (pod : string) (ps : podStatuses) : podStatuses :=
  match msg with Some m => note m pod ps | None => ps end.

Definition statusMessage (ps : podStatuses) : string :=
  String.concat "; "
    (map (fun mp : string * list string =>
            (mp.1 ++ ": " ++ String.concat ", " mp.2)%string) ps).

(** Modelled from the spec: the filters in their order; the first that does
    not pass a pod ends the pod's examination.  The result is whether the
    pod may be deleted, with the warnings and the fatal messages about it. *)
Definition examine (o : DrainOptions) (pod : Pod) : prog (bool * podStatuses * podStatuses) :=
  v1 <- daemonsetFilter o pod ;;
  let name := PodName pod in
  let ws := note_opt (warning v1) name [] in
  let fs := note_opt (fatal v1) name [] in
  if negb (ok v1) then Prog.Ret (false, ws, fs) else
  let v2 := mirrorPodFilter pod in
  let ws := note_opt (warning v2) name ws in
  let fs := note_opt (fatal v2) name fs in
  if negb (ok v2) then Prog.Ret (false, ws, fs) else
  let v3 := localStorageFilter o pod in
  let ws := note_opt (warning v3) name ws in
  let fs := note_opt (fatal v3) name fs in
  if negb (ok v3) then Prog.Ret (false, ws, fs) else
  let v4 := unreplicatedFilter o pod in
  let ws := note_opt (warning v4) name ws in
  let fs := note_opt (fatal v4) name fs in
  Prog.Ret (ok v4, ws, fs).

Definition merge (a b : podStatuses) : podStatuses :=
  fold_left (fun acc (mp : string * list string) =>
               fold_left (fun acc p => note mp.1 p acc) mp.2 acc) b a.

Fixpoint examineAll (o : DrainOptions) (pods : list Pod)
  : prog (list Pod * podStatuses * podStatuses) :=
  match pods with
  | [] => Prog.Ret ([], [], [])
  | pod :: rest =>
      '(podOk, ws, fs) <- examine o pod ;;
      '(keep, ws', fs') <- examineAll o rest ;;
      Prog.Ret (if podOk then pod :: keep else keep, merge ws ws', merge fs fs')
  end.

(** Modelled from the spec: [getPodsForDeletion], the pods of the node that
    may be deleted, or the fatal message when some pod refuses; warnings go
    to stderr. *)
Definition getPodsForDeletion (o : DrainOptions) (nodeName : string)
  : prog (string + list Pod) :=
  listed <- listPods nodeName ;;
  match listed with
  | inl e => Prog.Ret (inl (Message e))
  | inr podList =>
      '(pods, ws, fs) <- examineAll o podList ;;
      match fs with
      | _ :: _ => Prog.Ret (inl (statusMessage fs))
      | [] =>
          match ws with
          | _ :: _ =>
              _ <- errOut ("WARNING: " ++ statusMessage ws)%string ;; Prog.Ret (inr pods)
          | [] => Prog.Ret (inr pods)
          end
      end
  end.

Fixpoint removeEach (remove : string -> string -> prog (option StatusError))
    (pods : list Pod) : prog (option StatusError) :=
  match pods with
  | [] => Prog.Ret None
  | pod :: rest =>
      err <- remove (PodNamespace pod) (PodName pod) ;;
      match err with
      | Some e => if IsNotFound e then removeEach remove rest else Prog.Ret (Some e)
      | None => removeEach remove rest
      end
  end.

(** Modelled from the spec: [deleteOrEvictPods]; evict where the server has
    the eviction subresource, delete otherwise, then wait for the pods to
    go. *)
Definition deleteOrEvictPods (pods : list Pod) : prog (option StatusError) :=
  match pods with
  | [] => Prog.Ret None
  | _ :: _ =>
      evict <- supportEviction ;;
      err <- removeEach (if evict then evictPod else deletePod) pods ;;
      match err with
      | Some e => Prog.Ret (Some e)
      | None => waitForDelete pods
      end
  end.

(** Modelled from the spec: [RunDrain]; cordon the node, then delete or
    evict its pods. *)
Definition RunDrain (o : DrainOptions) (nodeName : string) : prog result :=
  cordoned <- RunCordonOrUncordon true nodeName ;;
  match cordoned with
  | Fatal msg => Prog.Ret (Fatal msg)
  | Done =>
      pods <- getPodsForDeletion o nodeName ;;
      match pods with
      | inl msg => Prog.Ret (Fatal msg)
      | inr pods =>
          err <- deleteOrEvictPods pods ;;
          match err with
          | Some e => Prog.Ret (Fatal (Message e))
          | None => Prog.Ret Done
          end
      end
  end.

End Drain.

(** ** The API server of [TestCordon] and [TestDrain]

    The fake REST client of the tests as a handler: the node objects it
    serves, the pods of the node, the DaemonSets that exist, whether the
    eviction subresource is offered, and a record of what the command
    did. *)

Module FakeApi.
Import Drain.

Record server := {
  nodes : gmap string Node;
  pods : list Pod;
  daemonsets : list string;
  eviction : bool;
  patched : list string;
  deleted : list string;
  evicted : list string;
  stderr : list string;
}.

Definition notFound (what name : string) : StatusError :=
  {| Code := 404; Message := what ++ " " ++ Go.quote name ++ " not found" |}.

Definition handle : handler server := fun c =>
  match c return server -> resp c * server with
  | GetNode name => fun s =>
      (match nodes s !! name with
       | Some n => inr n
       | None => inl (notFound "nodes" name)
       end, s)
  | PatchNode name patch => fun s =>
      (None,
       {| nodes := alter (apply_patch patch) name (nodes s); pods := pods s;
          daemonsets := daemonsets s; eviction := eviction s;
          patched := patched s ++ [name]; deleted := deleted s;
          evicted := evicted s; stderr := stderr s |})
  | ListPods _ => fun s => (inr (pods s), s)
  | GetDaemonSet _ name => fun s =>
      (if existsb (String.eqb name) (daemonsets s) then None
       else Some (notFound "daemonsets.extensions" name), s)
  | SupportEviction => fun s => (eviction s, s)
  | DeletePod _ name => fun s =>
      (None,
       {| nodes := nodes s; pods := pods s; daemonsets := daemonsets s;
          eviction := eviction s; patched := patched s;
          deleted := deleted s ++ [name]; evicted := evicted s; stderr := stderr s |})
  | EvictPod _ name => fun s =>
      (None,
       {| nodes := nodes s; pods := pods s; daemonsets := daemonsets s;
          eviction := eviction s; patched := patched s; deleted := deleted s;
          evicted := evicted s ++ [name]; stderr := stderr s |})
  | WaitForDelete _ => fun s => (None, s)
  | ErrOut line => fun s =>
      (tt,
       {| nodes := nodes s; pods := pods s; daemonsets := daemonsets s;
          eviction := eviction s; patched := patched s; deleted := deleted s;
          evicted := evicted s; stderr := stderr s ++ [line] |})
  end.

(** The fixtures of [TestMain] and [TestDrain]. *)
Definition node : Node :=
  {| NodeName := "node"; Labels := [];
     Spec := {| PodCIDR := ""; ProviderID := ""; Unschedulable := false; Taints := [] |} |}.

Definition cordoned_node : Node :=
  {| NodeName := "node"; Labels := [];
     Spec := {| PodCIDR := ""; ProviderID := ""; Unschedulable := true; Taints := [] |} |}.

Definition pod (owner : option (string * string)) (phase : PodPhase) (emptyDir : bool) : Pod :=
  {| PodName := "bar"; PodNamespace := "default";
     ControllerRef := match owner with
                      | Some (kind, name) => Some {| Kind := kind; OwnerName := name |}
                      | None => None
                      end;
     Phase := phase; HasEmptyDir := emptyDir; IsMirror := false |}.

Definition rc_pod := pod (Some ("ReplicationController", "rc")) PodRunning false.
Definition ds_pod := pod (Some ("DaemonSet", "ds")) PodRunning false.
Definition ds_terminated_pod := pod (Some ("DaemonSet", "ds")) PodSucceeded false.
Definition ds_pod_with_emptyDir := pod (Some ("DaemonSet", "ds")) PodRunning true.
Definition orphaned_ds_pod := pod None PodRunning false.
Definition job_pod := pod (Some ("Job", "job")) PodRunning true.
Definition terminated_job_pod_with_local_storage :=
  pod (Some ("Job", "job")) PodSucceeded true.
Definition rs_pod := pod (Some ("ReplicaSet", "rs")) PodRunning false.
Definition naked_pod := pod None PodRunning false.
Definition emptydir_pod := pod None PodRunning true.
Definition emptydir_terminated_pod := pod None PodFailed true.

(** The server of one test: one node object under the name ["node"]. *)
Definition serving (n : Node) (ps : list Pod) (evict : bool) : server :=
  {| nodes := {[ "node" := n ]}; pods := ps; daemonsets := ["ds"]; eviction := evict;
     patched := []; deleted := []; evicted := []; stderr := [] |}.

Definition flags (force ignoreDaemonsets deleteLocalData : bool) : DrainOptions :=
  {| Force := force; IgnoreDaemonsets := ignoreDaemonsets;
     DeleteLocalData := deleteLocalData |}.

(** One row of the table of [TestCordon]: the node served, the node
    expected, the command ([true] for cordon), its argument, and whether a
    fatal error is expected. *)
Record cordonTest := {
  c_description : string;
  c_node : Node;
  c_expected : Node;
  c_cordon : bool;
  c_arg : string;
  c_expectFatal : bool;
}.

(** In the first row the command line says ["node/node"], the resource and
    the name; the node named is ["node"]. *)
Definition cordonTests : list cordonTest := [
  {| c_description := "node/node syntax"; c_node := cordoned_node; c_expected := node;
     c_cordon := false; c_arg := "node"; c_expectFatal := false |};
  {| c_description := "uncordon for real"; c_node := cordoned_node; c_expected := node;
     c_cordon := false; c_arg := "node"; c_expectFatal := false |};
  {| c_description := "uncordon does nothing"; c_node := node; c_expected := node;
     c_cordon := false; c_arg := "node"; c_expectFatal := false |};
  {| c_description := "cordon does nothing"; c_node := cordoned_node;
     c_expected := cordoned_node;
     c_cordon := true; c_arg := "node"; c_expectFatal := false |};
  {| c_description := "cordon for real"; c_node := node; c_expected := cordoned_node;
     c_cordon := true; c_arg := "node"; c_expectFatal := false |};
  {| c_description := "cordon missing node"; c_node := node; c_expected := node;
     c_cordon := true; c_arg := "bar"; c_expectFatal := true |};
  {| c_description := "uncordon missing node"; c_node := node; c_expected := node;
     c_cordon := false; c_arg := "bar"; c_expectFatal := true |}
].

Definition NodeSpec_eqb (a b : NodeSpec) : bool :=
  String.eqb (PodCIDR a) (PodCIDR b) && String.eqb (ProviderID a) (ProviderID b)
  && Bool.eqb (Unschedulable a) (Unschedulable b)
  && forallb (fun x => existsb (String.eqb x) (Taints b)) (Taints a)
  && Nat.eqb (length (Taints a)) (length (Taints b)).

(** What [TestCordon] asserts of one row. *)
Definition cordonTest_passes (t : cordonTest) : bool :=
  let '(r, s, _) :=
    Prog.run handle (RunCordonOrUncordon (c_cordon t) (c_arg t))
             (serving (c_node t) [] false) in
  let updated := negb (Nat.eqb (length (patched s)) 0) in
  let specOk :=
    match nodes s !! "node" with
    | Some n => NodeSpec_eqb (Spec (c_expected t)) (Spec n)
    | None => false
    end in
  Bool.eqb (is_Fatal r) (c_expectFatal t)
  && (if c_expectFatal t then negb updated else specOk)
  && (NodeSpec_eqb (Spec (c_expected t)) (Spec (c_node t)) || updated).

(** One row of the table of [TestDrain]. *)
Record drainTest := {
  d_description : string;
  d_pods : list Pod;
  d_args : DrainOptions;
  d_expectWarning : option string;
  d_expectFatal : bool;
  d_expectDelete : bool;
}.

Definition drainTests : list drainTest := [
  {| d_description := "RC-managed pod"; d_pods := [rc_pod];
     d_args := flags false false false; d_expectWarning := None;
     d_expectFatal := false; d_expectDelete := true |};
  {| d_description := "DS-managed pod"; d_pods := [ds_pod];
     d_args := flags false false false; d_expectWarning := None;
     d_expectFatal := true; d_expectDelete := false |};
  {| d_description := "DS-managed terminated pod"; d_pods := [ds_terminated_pod];
     d_args := flags false false false; d_expectWarning := None;
     d_expectFatal := false; d_expectDelete := true |};
  {| d_description := "orphaned DS-managed pod"; d_pods := [orphaned_ds_pod];
     d_args := flags false false false; d_expectWarning := None;
     d_expectFatal := true; d_expectDelete := false |};
  {| d_description := "orphaned DS-managed pod with --force"; d_pods := [orphaned_ds_pod];
     d_args := flags true false false; d_expectWarning := None;
     d_expectFatal := false; d_expectDelete := true |};
  {| d_description := "DS-managed pod with --ignore-daemonsets"; d_pods := [ds_pod];
     d_args := flags false true false; d_expectWarning := None;
     d_expectFatal := false; d_expectDelete := false |};
  {| d_description := "DS-managed pod with emptyDir with --ignore-daemonsets";
     d_pods := [ds_pod_with_emptyDir];
     d_args := flags false true false;
     d_expectWarning := Some "WARNING: Ignoring DaemonSet-managed pods: bar";
     d_expectFatal := false; d_expectDelete := false |};
  {| d_description := "Job-managed pod with local storage"; d_pods := [job_pod];
     d_args := flags true false true; d_expectWarning := None;
     d_expectFatal := false; d_expectDelete := true |};
  {| d_description := "Job-managed terminated pod";
     d_pods := [terminated_job_pod_with_local_storage];
     d_args := flags false false false; d_expectWarning := None;
     d_expectFatal := false; d_expectDelete := true |};
  {| d_description := "RS-managed pod"; d_pods := [rs_pod];
     d_args := flags false false false; d_expectWarning := None;
     d_expectFatal := false; d_expectDelete := true |};
  {| d_description := "naked pod"; d_pods := [naked_pod];
     d_args := flags false false false; d_expectWarning := None;
     d_expectFatal := true; d_expectDelete := false |};
  {| d_description := "naked pod with --force"; d_pods := [naked_pod];
     d_args := flags true false false; d_expectWarning := None;
     d_expectFatal := false; d_expectDelete := true |};
  {| d_description := "pod with EmptyDir"; d_pods := [emptydir_pod];
     d_args := flags true false false; d_expectWarning := None;
     d_expectFatal := true; d_expectDelete := false |};
  {| d_description := "terminated pod with emptyDir"; d_pods := [emptydir_terminated_pod];
     d_args := flags false false false; d_expectWarning := None;
     d_expectFatal := false; d_expectDelete := true |};
  {| d_description := "pod with EmptyDir and --delete-local-data";
     d_pods := [emptydir_pod];
     d_args := flags true false true; d_expectWarning := None;
     d_expectFatal := false; d_expectDelete := true |};
  {| d_description := "empty node"; d_pods := [];
     d_args := flags false false false; d_expectWarning := None;
     d_expectFatal := false; d_expectDelete := false |}
].

(** What [TestDrain] asserts of one row, with eviction offered or not. *)
Definition drainTest_passes (testEviction : bool) (t : drainTest) : bool :=
  let '(r, s, _) :=
    Prog.run handle (RunDrain (d_args t) "node") (serving node (d_pods t) testEviction) in
  let wasDeleted := negb (Nat.eqb (length (deleted s)) 0) in
  let wasEvicted := negb (Nat.eqb (length (evicted s)) 0) in
  Bool.eqb (is_Fatal r) (d_expectFatal t)
  && (if d_expectDelete t
      then (if testEviction then wasEvicted else wasDeleted)
      else negb wasDeleted && negb wasEvicted)
  && match d_expectWarning t with
     | Some w => existsb (String.eqb w) (stderr s)
     | None => true
     end.

End FakeApi.

(** ** Which pods block a drain, and which are left on the node

    Modelled from the spec: the claim's words on the pods of a node, pod by
    pod, for comparison with [RunDrain]: "pods owned by a
    ReplicationController do not block the drain", "DaemonSet-managed pods
    are skipped with a warning", "an unmanaged (naked) pod causes drain to
    fail unless the --force flag is given"; and what the rows of [TestDrain]
    add to them: [--ignore-daemonsets], [--delete-local-data], finished pods
    and the pods of a DaemonSet that is missing. *)

Module DrainPods.
Import Drain.

(** The DaemonSet that controls the pod, if one does. *)
Definition daemonSetOf (pod : Pod) : option string :=
  match ControllerRef pod with
  | Some ref => if String.eqb (Kind ref) "DaemonSet" then Some (OwnerName ref) else None
  | None => None
  end.

(** A pod that has not finished and is managed by a DaemonSet that exists. *)
Definition daemonSetManaged (daemonsets : list string) (pod : Pod) : bool :=
  negb (finished pod) &&
  match daemonSetOf pod with
  | Some ds => existsb (String.eqb ds) daemonsets
  | None => false
  end.




(** The pod is left on the node by a drain that goes through: the pods of
    existing DaemonSets and the mirror pods. *)
Definition skipped (daemonsets : list string) (pod : Pod) : bool :=
  daemonSetManaged daemonsets pod || IsMirror pod.

(** The names of the pods that a drain which goes through deletes or
    evicts, in the order of the pod list. *)
Definition removed (daemonsets : list string) (pods : list Pod) : list string :=
  map PodName (List.filter (fun pod => negb (skipped daemonsets pod)) pods).


End DrainPods.
(** ** More of Go: fixed-width integers, [strings], [strconv], [hash/fnv]
    and [sets.String] *)

Module GoInt.

(** The value of a signed [w]-bit integer after an operation whose exact
    result is [x]: two's-complement wrap-around. *)
Definition wrap (w : Z) (x : Z) : Z := ((x + 2 ^ (w - 1)) mod 2 ^ w - 2 ^ (w - 1))%Z.

(** [int64(x)], and [int(x)] on a 64-bit platform. *)
Definition int64 (x : Z) : Z := wrap 64 x.

(** [uint32(x)] *)
Definition uint32 (x : Z) : Z := (x mod 2 ^ 32)%Z.

Definition is_int64 (x : Z) : Prop := (- 2 ^ 63 <= x < 2 ^ 63)%Z.
Definition is_uint32 (x : Z) : Prop := (0 <= x < 2 ^ 32)%Z.

(** [len(s)] of a string, in bytes. *)
Definition len (s : string) : Z := Z.of_nat (String.length s).

End GoInt.

Module GoStr.
Import GoInt.

(** [s[i:]] and [s[:i]] for [0 <= i <= len(s)]. *)
Definition slice_from (s : string) (i : Z) : string := GoStrings.drop (Z.to_nat i) s.
Definition slice_to (s : string) (i : Z) : string := String.substring 0 (Z.to_nat i) s.

(** [strings.Contains] *)
Fixpoint Contains (s substr : string) : bool :=
  String.prefix substr s ||
  match s with
  | EmptyString => false
  | String _ s' => Contains s' substr
  end.

(** [strings.LastIndexByte]: the index of the last [c] in [s], [-1] when
    there is none. *)
Fixpoint LastIndexByte (s : string) (c : ascii) : Z :=
  match s with
  | EmptyString => (-1)%Z
  | String a s' =>
      let i := LastIndexByte s' c in
      if (0 <=? i)%Z then (i + 1)%Z
      else if Ascii.eqb a c then 0%Z else (-1)%Z
  end.

(** The text before and after the first [sep] of [s], [None] when [s] has
    no [sep]. *)
Fixpoint cut (s : string) (sep : ascii) : option (string * string) :=
  match s with
  | EmptyString => None
  | String c s' =>
      if Ascii.eqb c sep then Some (EmptyString, s')
      else match cut s' sep with
           | Some (before, after) => Some (String c before, after)
           | None => None
           end
  end.

(** [strings.SplitN(s, sep, n)] for a one-byte separator and [n >= 0]: at
    most [n] substrings, the last of them the unsplit remainder; [nil] for
    [n = 0]. *)
Fixpoint SplitN (s : string) (sep : ascii) (n : nat) : list string :=
  match n with
  | O => []
  | S O => [s]
  | S n' =>
      match cut s sep with
      | Some (before, after) => before :: SplitN after sep n'
      | None => [s]
      end
  end.

(** [strings.Split(s, sep)] for a non-empty separator: [s] is cut at every
    non-overlapping occurrence of [sep], left to right. *)
Fixpoint split_fuel (fuel : nat) (s sep : string) : list string :=
  match fuel with
  | O => [s]
  | S fuel' =>
      match s with
      | EmptyString => [EmptyString]
      | String c s' =>
          if String.prefix sep s
          then EmptyString :: split_fuel fuel' (GoStrings.drop (String.length sep) s) sep
          else match split_fuel fuel' s' sep with
               | [] => [String c EmptyString]
               | w :: ws => String c w :: ws
               end
      end
  end.

Definition Split (s sep : string) : list string :=
  split_fuel (String.length s) s sep.

(** The string with [f] applied to every byte. *)
Fixpoint map_bytes (f : ascii -> ascii) (s : string) : string :=
  match s with
  | EmptyString => EmptyString
  | String c s' => String (f c) (map_bytes f s')
  end.

(** [strings.Join] *)
Definition Join (l : list string) (sep : string) : string := String.concat sep l.

(** [strconv.ParseUint(s, 10, 32)]: one or more decimal digits, no sign,
    at most [2^32 - 1]. [None] is the error case. *)
Definition ParseUint32 (s : string) : option Z :=
  match s with
  | EmptyString => None
  | _ => match GoStrings.digits 0 s with
         | Some n => if (n <? 2 ^ 32)%Z then Some n else None
         | None => None
         end
  end.

(** [fnv.New32()], [Write] and [Sum32]: the 32-bit FNV-1 hash; for every
    byte the hash is multiplied by the prime, then xor-ed with the byte. *)
Definition fnv_offset32 : Z := 2166136261.
Definition fnv_prime32 : Z := 16777619.

Fixpoint fnv32_from (h : Z) (s : string) : Z :=
  match s with
  | EmptyString => h
  | String c s' =>
      fnv32_from (Z.lxor (uint32 (h * fnv_prime32)) (Z.of_N (N_of_ascii c))) s'
  end.

Definition fnv32 (s : string) : Z := fnv32_from fnv_offset32 s.

End GoStr.

(** [sets.String], kept as the sorted list without duplicates that [List()]
    returns. *)
Module StringSet.

Definition t := list string.

(** [sets.NewString(items...)] *)
Definition NewString (items : list string) : t :=
  fold_left (fun s x => GoStrings.Insert x s) items [].

Definition Insert (x : string) (s : t) : t := GoStrings.Insert x s.

Definition Has (s : t) (x : string) : bool := existsb (String.eqb x) s.

Definition Delete (s : t) (x : string) : t :=
  List.filter (fun y => negb (String.eqb x y)) s.

Definition Len (s : t) : Z := Z.of_nat (length s).

Definition List (s : t) : list string := s.

(** The order of [List()]: strings compare byte by byte.  A set is kept
    strictly increasing. *)
Definition lt (a b : string) : Prop := String.compare a b = Lt.
Definition sorted (s : list string) : Prop := StronglySorted lt s.

End StringSet.
(** ** Package [volume/util]: sizes, names, paths and access modes *)

Module VolumeUtil.
Import Go (outcome, Returns, Panics).
Import GoInt.

Definition GB : Z := 1000 * 1000 * 1000.
Definition GIB : Z := 1024 * 1024 * 1024.

(** [RoundUpSize].  [/] and [%] on [int64] truncate toward zero and panic
    on a zero divisor; the quotient and the increment wrap around. *)
Definition RoundUpSize (volumeSizeBytes allocationUnitBytes : Z) : outcome Z :=
  if (allocationUnitBytes =? 0)%Z then Panics "integer divide by zero" else
  let roundedUp := int64 (Z.quot volumeSizeBytes allocationUnitBytes) in
  if (0 <? Z.rem volumeSizeBytes allocationUnitBytes)%Z
  then Returns (int64 (roundedUp + 1))
  else Returns roundedUp.

(** [RoundUpToGB] and [RoundUpToGiB] on the [int64] that [size.Value()]
    answers. *)
Definition RoundUpToGB (requestBytes : Z) : outcome Z := RoundUpSize requestBytes GB.
Definition RoundUpToGiB (requestBytes : Z) : outcome Z := RoundUpSize requestBytes GIB.

Section Platform.
(** The width of [int]: 32 or 64 bits. *)
Variable intSize : Z.

(** [RoundUpSizeInt]: the rounded size as an [int], and an error when the
    conversion loses bits. *)
Definition RoundUpSizeInt (volumeSizeBytes allocationUnitBytes : Z)
  : outcome (Z * Go.error) :=
  match RoundUpSize volumeSizeBytes allocationUnitBytes with
  | Panics msg => Panics msg
  | Returns roundedUp =>
      let roundedUpInt := wrap intSize roundedUp in
      if negb (int64 roundedUpInt =? roundedUp)%Z
      then Returns (0%Z, Go.Errorf ("capacity " ++ Go.Itoa roundedUp
                      ++ " is too great, casting results in integer overflow"))
      else Returns (roundedUpInt, None)
  end.

Definition RoundUpToGBInt (requestBytes : Z) : outcome (Z * Go.error) :=
  RoundUpSizeInt requestBytes GB.
Definition RoundUpToGiBInt (requestBytes : Z) : outcome (Z * Go.error) :=
  RoundUpSizeInt requestBytes GIB.
End Platform.

(** [GenerateVolumeName], with a 64-bit [int].  The slice
    [prefix[:maxLength-pvLen-1]] panics when its bound is negative or past
    the end of [prefix]. *)
Definition GenerateVolumeName (clusterName pvName : string) (maxLength : Z)
  : outcome string :=
  let prefix := (clusterName ++ "-dynamic")%string in
  let pvLen := len pvName in
  if (int64 (int64 (pvLen + 1) + len prefix) >? maxLength)%Z then
    let n := int64 (int64 (maxLength - pvLen) - 1) in
    if (n <? 0)%Z || (len prefix <? n)%Z
    then Panics "slice bounds out of range"
    else Returns (GoStr.slice_to prefix n ++ "-" ++ pvName)%string
  else Returns (prefix ++ "-" ++ pvName)%string.

(** [GetUniqueVolumeName] *)
Definition GetUniqueVolumeName (pluginName volumeName : string) : string :=
  (pluginName ++ "/" ++ volumeName)%string.

(** [SplitUniqueName] *)
Definition SplitUniqueName (uniqueName : string) : string * string * Go.error :=
  let components := GoStr.SplitN uniqueName "/" 3 in
  match components with
  | [c0; c1; c2] => ((c0 ++ "/" ++ c1)%string, c2, None)
  | _ => ("", "", Go.Errorf ("cannot split volume unique name " ++ uniqueName
                            ++ " to plugin/volume components"))
  end.

(** [GetWindowsPath]; the replaced and the inserted byte is the backslash,
    byte 92. *)
Definition backslash : string := String (ascii_of_nat 92) EmptyString.

Definition GetWindowsPath (path : string) : string :=
  let windowsPath := GoStrings.Replace path "/" backslash in
  if GoStrings.HasPrefix windowsPath backslash
  then ("c:" ++ windowsPath)%string
  else windowsPath.

Section Paths.
(** [filepath.Clean] is not among the sources. *)
Variable filepath_Clean : string -> string.

(** [MakeAbsolutePath] *)
Definition MakeAbsolutePath (goos path : string) : string :=
  if negb (String.eqb goos "windows") then filepath_Clean ("/" ++ path)
  else if GoStr.Contains path ":" then path
  else if GoStrings.HasPrefix path "/" || GoStrings.HasPrefix path backslash
  then ("c:" ++ path)%string
  else ("c:" ++ backslash ++ path)%string.
End Paths.

(** [AccessModesContains]; an access mode is a string. *)
Fixpoint AccessModesContains (modes : list string) (mode : string) : bool :=
  match modes with
  | [] => false
  | m :: rest => if String.eqb m mode then true else AccessModesContains rest mode
  end.

(** [AccessModesContainedInAll] *)
Fixpoint AccessModesContainedInAll (indexedModes requestedModes : list string) : bool :=
  match requestedModes with
  | [] => true
  | mode :: rest =>
      if negb (AccessModesContains indexedModes mode) then false
      else AccessModesContainedInAll indexedModes rest
  end.

Section Lists.
(** [strings.TrimSpace] is not among the sources. *)
Variable strings_TrimSpace : string -> string.

(** The error of [stringToSet] and [stringToList]. *)
Definition emptyElement (str delimiter : string) : Go.error :=
  Go.Errorf (Go.quote delimiter ++ " separated list (" ++ Go.quote str
             ++ ") must not contain an empty string").

(** The loop of [stringToSet] over the pieces of the string. *)
Fixpoint stringToSet_loop (str delimiter : string) (zonesSlice : list string)
    (zonesSet : StringSet.t) : StringSet.t * Go.error :=
  match zonesSlice with
  | [] => (zonesSet, None)
  | zone :: rest =>
      let trimmedZone := strings_TrimSpace zone in
      if String.eqb trimmedZone "" then ([], emptyElement str delimiter)
      else stringToSet_loop str delimiter rest (StringSet.Insert trimmedZone zonesSet)
  end.

(** [stringToSet]: on an error the set is empty, not [nil]. *)
Definition stringToSet (str delimiter : string) : StringSet.t * Go.error :=
  stringToSet_loop str delimiter (GoStr.Split str delimiter) [].

(** The loop of [stringToList]. *)
Fixpoint stringToList_loop (str delimiter : string) (pieces : list string)
    (zonesSlice : list string) : option (list string) * Go.error :=
  match pieces with
  | [] => (Some zonesSlice, None)
  | zone :: rest =>
      let trimmedZone := strings_TrimSpace zone in
      if String.eqb trimmedZone "" then (None, emptyElement str delimiter)
      else stringToList_loop str delimiter rest (zonesSlice ++ [trimmedZone])
  end.

(** [stringToList]; a [nil] slice is [None]. *)
Definition stringToList (str delimiter : string) : option (list string) * Go.error :=
  stringToList_loop str delimiter (GoStr.Split str delimiter) [].

(** [ZonesToSet]; a [nil] set is [None]. *)
Definition ZonesToSet (zonesString : string) : option StringSet.t * Go.error :=
  let '(zones, err) := stringToSet zonesString "," in
  match err with
  | Some e => (None, Go.Errorf ("error parsing zones " ++ zonesString
                 ++ ", must be strings separated by commas: " ++ Go.Error e))
  | None => (Some zones, None)
  end.

Section Labels.
(** [kubeletapis.LabelMultiZoneDelimiter] is not among the sources. *)
Variable LabelMultiZoneDelimiter : string.

Definition LabelZonesToSet (labelZonesValue : string) : StringSet.t * Go.error :=
  stringToSet labelZonesValue LabelMultiZoneDelimiter.

Definition LabelZonesToList (labelZonesValue : string) : option (list string) * Go.error :=
  stringToList labelZonesValue LabelMultiZoneDelimiter.
End Labels.
End Lists.

End VolumeUtil.
(** ** Package [volume/util]: the choice of zones for a volume *)

Module Zones.
Import Go (outcome, Returns, Panics).
Import GoInt GoStr.

(** [v1.TopologySelectorLabelRequirement] and [v1.TopologySelectorTerm] *)
Record TopologySelectorLabelRequirement := {
  Key : string;
  Values : list string;
}.
Record TopologySelectorTerm := {
  MatchLabelExpressions : list TopologySelectorLabelRequirement;
}.

Section Choice.
(** The value that [rand.Uint32()] returns when it is called. *)
Variable rand_Uint32 : Z.
(** [kubeletapis.LabelZoneFailureDomain] and the rendering of a
    [sets.String] by ["%v"] are not among the sources. *)
Variable LabelZoneFailureDomain : string.
Variable fmt_set : StringSet.t -> string.

(** [getPVCNameHashAndIndexOffset]; [index] is a named result and starts
    at zero. *)
Definition getPVCNameHashAndIndexOffset (pvcName : string) : Z * Z :=
  if String.eqb pvcName "" then (rand_Uint32, 0%Z)
  else
    let lastDash := LastIndexByte pvcName "-" in
    let '(hashString, index) :=
      if negb (lastDash =? -1)%Z then
        let statefulsetIDString := slice_from pvcName (lastDash + 1) in
        match ParseUint32 statefulsetIDString with
        | Some statefulsetID =>
            let index := uint32 statefulsetID in
            let hashString := slice_to pvcName lastDash in
            let lastDash := LastIndexByte hashString "-" in
            if negb (lastDash =? -1)%Z
            then (slice_from hashString (lastDash + 1), index)
            else (hashString, index)
        | None => (pvcName, 0%Z)
        end
      else (pvcName, 0%Z) in
    (fnv32 hashString, index).

(** [zoneSlice[k % uint32(len(zoneSlice))]]: the remainder panics on a zero
    divisor, the index expression on an index out of range. *)
Definition zone_at (zoneSlice : list string) (k : Z) : outcome string :=
  let n := uint32 (Z.of_nat (length zoneSlice)) in
  if (n =? 0)%Z then Panics "integer divide by zero"
  else match nth_error zoneSlice (Z.to_nat (k mod n)) with
       | Some zone => Returns zone
       | None => Panics "index out of range"
       end.

(** [ChooseZoneForVolume] *)
Definition ChooseZoneForVolume (zones : StringSet.t) (pvcName : string) : outcome string :=
  if (StringSet.Len zones =? 0)%Z then Returns "" else
  let '(hash, index) := getPVCNameHashAndIndexOffset pvcName in
  let zoneSlice := StringSet.List zones in
  zone_at zoneSlice (uint32 (hash + index)).

(** The loop [for index = startingIndex; index < bound; index++] of
    [ChooseZonesForVolume]; [fuel] bounds its rounds. *)
Fixpoint chooseLoop (fuel : nat) (zoneSlice : list string) (hash index bound : Z)
    (replicaZones : StringSet.t) : outcome StringSet.t :=
  match fuel with
  | O => Returns replicaZones
  | S fuel' =>
      if (index <? bound)%Z then
        match zone_at zoneSlice (uint32 (hash + index)) with
        | Returns zone =>
            chooseLoop fuel' zoneSlice hash (uint32 (index + 1)) bound
                       (StringSet.Insert zone replicaZones)
        | Panics msg => Panics msg
        end
      else Returns replicaZones
  end.

(** [ChooseZonesForVolume].  The counter and the bound of the loop are
    [uint32] and wrap around; a loop from [startingIndex] up to a bound
    makes at most [bound - startingIndex] rounds, which is the fuel. *)
Definition ChooseZonesForVolume (zones : StringSet.t) (pvcName : string) (numZones : Z)
  : outcome StringSet.t :=
  let replicaZones := StringSet.NewString [] in
  if (StringSet.Len zones =? 0)%Z then Returns replicaZones else
  let '(hash, index) := getPVCNameHashAndIndexOffset pvcName in
  let zoneSlice := StringSet.List zones in
  let startingIndex := uint32 (index * numZones) in
  let bound := uint32 (startingIndex + numZones) in
  chooseLoop (Z.to_nat (bound - startingIndex)) zoneSlice hash startingIndex bound
             replicaZones.

(** [chooseZonesForVolumeIncludingZone].  A [sets.String] is a map: the
    [Delete] changes the set of the caller, and the set returned when it
    has just [numReplicas] elements is the caller's own.  The result is
    the pair returned ([None] is a [nil] set) and the caller's set after
    the call. *)
Definition chooseZonesForVolumeIncludingZone (zones : StringSet.t)
    (pvcName zoneToInclude : string) (numReplicas : Z)
  : outcome (option StringSet.t * Go.error * StringSet.t) :=
  if (numReplicas =? 0)%Z
  then Returns (None, Go.Errorf "invalid number of replicas passed", zones) else
  if (uint32 (StringSet.Len zones) <? numReplicas)%Z
  then Returns (None, Go.Errorf
         ("not enough zones found to provision a volume with " ++ Go.Itoa numReplicas
          ++ " replicas. Need at least " ++ Go.Itoa numReplicas
          ++ " distinct zones for a volume with " ++ Go.Itoa numReplicas ++ " replicas"),
         zones) else
  if negb (String.eqb zoneToInclude "") && negb (StringSet.Has zones zoneToInclude)
  then Returns (None, Go.Errorf
         ("zone to be included: " ++ zoneToInclude ++ " needs to be member of set: "
          ++ fmt_set zones), zones) else
  if (uint32 (StringSet.Len zones) =? numReplicas)%Z
  then Returns (Some zones, None, zones) else
  let '(zones, numReplicas) :=
    if negb (String.eqb zoneToInclude "")
    then (StringSet.Delete zones zoneToInclude, uint32 (numReplicas - 1))
    else (zones, numReplicas) in
  match ChooseZonesForVolume zones pvcName numReplicas with
  | Panics msg => Panics msg
  | Returns zonesChosen =>
      let zonesChosen :=
        if negb (String.eqb zoneToInclude "")
        then StringSet.Insert zoneToInclude zonesChosen
        else zonesChosen in
      Returns (Some zonesChosen, None, zones)
  end.

(** The loops of [ZonesFromAllowedTopologies]: the values of one
    expression, the expressions of one term, the terms. *)
Definition insertValues (values : list string) (zones : StringSet.t) : StringSet.t :=
  fold_left (fun z value => StringSet.Insert value z) values zones.

Fixpoint zonesOfTerm (exps : list TopologySelectorLabelRequirement) (zones : StringSet.t)
  : Go.err + StringSet.t :=
  match exps with
  | [] => inr zones
  | exp :: rest =>
      if String.eqb (Key exp) LabelZoneFailureDomain
      then zonesOfTerm rest (insertValues (Values exp) zones)
      else inl (Go.ErrorString
                  ("unsupported key found in matchLabelExpressions: " ++ Key exp))
  end.

Fixpoint zonesOfTerms (terms : list TopologySelectorTerm) (zones : StringSet.t)
  : Go.err + StringSet.t :=
  match terms with
  | [] => inr zones
  | term :: rest =>
      match zonesOfTerm (MatchLabelExpressions term) zones with
      | inl e => inl e
      | inr zones => zonesOfTerms rest zones
      end
  end.

(** [ZonesFromAllowedTopologies]; a [nil] set is [None]. *)
Definition ZonesFromAllowedTopologies (allowedTopologies : list TopologySelectorTerm)
  : option StringSet.t * Go.error :=
  match zonesOfTerms allowedTopologies [] with
  | inl e => (None, Some e)
  | inr zones => (Some zones, None)
  end.

(** A zone that [allowedTopologies] lists under the zone key. *)
Definition listed (allowedTopologies : list TopologySelectorTerm) (z : string) : Prop :=
  exists term exp, In term allowedTopologies /\ In exp (MatchLabelExpressions term) /\
                   Key exp = LabelZoneFailureDomain /\ In z (Values exp).

(** [SelectZonesForVolume], the part after the look at the node:
    [zoneFromNode] is the zone of the node, empty without a node.  The
    result is the pair returned and the caller's [zonesWithNodes] after the
    call. *)
Definition selectZonesPastNode (zoneParameterPresent zonesParameterPresent : bool)
    (zoneParameter : string) (zonesParameter zonesWithNodes : StringSet.t)
    (zoneFromNode : string)
    (allowedTopologies : list TopologySelectorTerm) (pvcName : string)
    (numReplicas : Z) : outcome (option StringSet.t * Go.error * StringSet.t) :=
  let fail (msg : string) := Returns (None, Go.Errorf msg, zonesWithNodes) in
  match ZonesFromAllowedTopologies allowedTopologies with
  | (_, Some e) => Returns (None, Some e, zonesWithNodes)
  | (allowedZones, None) =>
      (* a [nil] set has no element *)
      let allowedZones := default [] allowedZones in
      if (0 <? Z.of_nat (length allowedTopologies))%Z && (StringSet.Len allowedZones =? 0)%Z
      then fail ("no matchLabelExpressions with " ++ LabelZoneFailureDomain
                 ++ " key found in allowedTopologies. Please specify matchLabelExpressions with "
                 ++ LabelZoneFailureDomain ++ " key")%string
      else if (0 <? StringSet.Len allowedZones)%Z then
        if zoneParameterPresent || zonesParameterPresent
        then fail "zone[s] cannot be specified in StorageClass if allowedTopologies specified"
        else
          match chooseZonesForVolumeIncludingZone allowedZones pvcName zoneFromNode
                  numReplicas with
          | Panics msg => Panics msg
          | Returns (_, Some e, _) =>
              fail ("cannot process zones in allowedTopologies: " ++ Go.Error e)%string
          | Returns (zones, None, _) => Returns (zones, None, zonesWithNodes)
          end
      else if zoneParameterPresent then
        if (1 <? numReplicas)%Z
        then fail ("zone cannot be specified if desired number of replicas for pv is "
                   ++ "greather than 1. Please specify zones or allowedTopologies to "
                   ++ "specify desired zones")%string
        else Returns (Some (StringSet.NewString [zoneParameter]), None, zonesWithNodes)
      else if zonesParameterPresent then
        if (uint32 (StringSet.Len zonesParameter) <? numReplicas)%Z
        then fail ("not enough zones found in zones parameter to provision a volume with "
                   ++ Go.Itoa numReplicas ++ " replicas. Found "
                   ++ Go.Itoa (StringSet.Len zonesParameter) ++ " zones, need "
                   ++ Go.Itoa numReplicas ++ " zones")%string
        else
          match ChooseZonesForVolume zonesParameter pvcName numReplicas with
          | Panics msg => Panics msg
          | Returns zones => Returns (Some zones, None, zonesWithNodes)
          end
      else if (0 <? StringSet.Len zonesWithNodes)%Z then
        match chooseZonesForVolumeIncludingZone zonesWithNodes pvcName zoneFromNode
                numReplicas with
        | Panics msg => Panics msg
        | Returns (_, Some e, zonesWithNodes') =>
            Returns (None, Go.Errorf
              ("cannot process zones where nodes exist in the cluster: " ++ Go.Error e),
              zonesWithNodes')
        | Returns (zones, None, zonesWithNodes') => Returns (zones, None, zonesWithNodes')
        end
      else fail "cannot determine zones to provision volume in"
  end.

(** [SelectZonesForVolume].  [node] is the label map of the node, [None]
    for a [nil] node. *)
Definition SelectZonesForVolume (zoneParameterPresent zonesParameterPresent : bool)
    (zoneParameter : string) (zonesParameter zonesWithNodes : StringSet.t)
    (node : option (gmap string string))
    (allowedTopologies : list TopologySelectorTerm) (pvcName : string)
    (numReplicas : Z) : outcome (option StringSet.t * Go.error * StringSet.t) :=
  let fail (msg : string) := Returns (None, Go.Errorf msg, zonesWithNodes) in
  let pastNode (zoneFromNode : string) :=
    selectZonesPastNode zoneParameterPresent zonesParameterPresent zoneParameter
      zonesParameter zonesWithNodes zoneFromNode allowedTopologies pvcName numReplicas in
  if zoneParameterPresent && zonesParameterPresent
  then fail "both zone and zones StorageClass parameters must not be used at the same time"
  else
  match node with
  | Some labels =>
      if zoneParameterPresent || zonesParameterPresent
      then fail ("zone[s] cannot be specified in StorageClass if VolumeBindingMode is "
                 ++ "set to WaitForFirstConsumer. Please specify allowedTopologies in "
                 ++ "StorageClass for constraining zones")%string
      else
        match labels !! LabelZoneFailureDomain with
        | None => fail (LabelZoneFailureDomain ++ " Label for node missing")%string
        | Some zoneFromNode =>
            if (numReplicas =? 1)%Z
            then Returns (Some (StringSet.NewString [zoneFromNode]), None, zonesWithNodes)
            else pastNode zoneFromNode
        end
  | None => pastNode ""
  end.

End Choice.

(** Allowed topologies of one term with one expression. *)
Definition oneZone (label : string) (values : list string) : list TopologySelectorTerm :=
  [ {| MatchLabelExpressions := [ {| Key := label; Values := values |} ] |} ].

End Zones.
(** ** Volume specs and the plugin methods that read them *)

(** [v1.Volume], [v1.PersistentVolume] and [volume.Spec], with the fields
    that the two disk plugins read.  A pointer field is an option. *)
Module VolumeSpec.

Module EBS.
(** [v1.AWSElasticBlockStoreVolumeSource] *)
Record VolumeSource := {
  VolumeID : string;
  FSType : string;
  Partition : Z;
  ReadOnly : bool;
}.
End EBS.

Module PD.
(** [v1.GCEPersistentDiskVolumeSource] *)
Record VolumeSource := {
  PDName : string;
  FSType : string;
  Partition : Z;
  ReadOnly : bool;
}.
End PD.

Module Vol.
(** [v1.Volume] *)
Record t := {
  Name : string;
  AWSElasticBlockStore : option EBS.VolumeSource;
  GCEPersistentDisk : option PD.VolumeSource;
}.
End Vol.

Module PV.
(** [v1.PersistentVolume]: the name and the annotations of its metadata,
    the sources and the mount options of its [Spec]. *)
Record t := {
  Name : string;
  Annotations : gmap string string;
  AWSElasticBlockStore : option EBS.VolumeSource;
  GCEPersistentDisk : option PD.VolumeSource;
  MountOptions : list string;
}.
End PV.

(** [volume.Spec] *)
Record Spec := {
  Volume : option Vol.t;
  PersistentVolume : option PV.t;
  ReadOnly : bool;
}.

(** [p != nil] *)
Definition notNil {A : Type} (p : option A) : bool :=
  match p with Some _ => true | None => false end.

Section Options.
(** [v1.MountOptionAnnotation] is not among the sources. *)
Variable MountOptionAnnotation : string.

(** [util.MountOptionFromSpec] *)
Definition MountOptionFromSpec (spec : Spec) (options : list string) : list string :=
  match PersistentVolume spec with
  | Some pv =>
      match PV.Annotations pv !! MountOptionAnnotation with
      | Some mo =>
          let moList := GoStrings.Split mo "," in
          Util.JoinMountOptions moList options
      | None =>
          if (0 <? length (PV.MountOptions pv))%nat
          then Util.JoinMountOptions (PV.MountOptions pv) options
          else options
      end
  | None => options
  end.
End Options.

End VolumeSpec.

(** ** [pkg/volume/awsebs/aws_ebs.go]: the plugin *)

Module AwsEbsPlugin.
Import Node VolumeSpec.
Import Go (outcome, Returns, Panics).

Definition awsURLNamePrefix : string := "aws://".

(** [v1.ReadWriteOnce] *)
Definition ReadWriteOnce : string := "ReadWriteOnce".

(** [awsElasticBlockStorePlugin.GetAccessModes] *)
Definition GetAccessModes : list string := [ReadWriteOnce].

(** [awsElasticBlockStorePlugin.CanSupport] *)
Definition CanSupport (spec : Spec) : bool :=
  match PersistentVolume spec with
  | Some pv => notNil (PV.AWSElasticBlockStore pv)
  | None => false
  end
  || match Volume spec with
     | Some v => notNil (Vol.AWSElasticBlockStore v)
     | None => false
     end.

(** [getVolumeSource]; the source is [None] on an error. *)
Definition getVolumeSource (spec : Spec) : option EBS.VolumeSource * bool * Go.error :=
  let fromPV :=
    match PersistentVolume spec with
    | Some {| PV.AWSElasticBlockStore := Some ebs |} => (Some ebs, ReadOnly spec, None)
    | _ => (None, false, Go.Errorf "spec does not reference an AWS EBS volume type")
    end in
  match Volume spec with
  | Some {| Vol.AWSElasticBlockStore := Some ebs |} => (Some ebs, EBS.ReadOnly ebs, None)
  | _ => fromPV
  end.

(** [awsElasticBlockStorePlugin.GetVolumeName] *)
Definition GetVolumeName (spec : Spec) : string * Go.error :=
  match getVolumeSource spec with
  | (Some volumeSource, _, None) => (EBS.VolumeID volumeSource, None)
  | (_, _, err) => ("", err)
  end.

Section Plugin.
(** [volume.Spec.Name] and [v1.MountOptionAnnotation] are not among the
    sources; [host] is the plugin's [volume.VolumeHost]. *)
Variable spec_Name : Spec -> string.
Variable MountOptionAnnotation : string.
Variable host : VolumeHost.

(** [awsElasticBlockStorePlugin.newMounterInternal]; the mounter is [None]
    on an error. *)
Definition newMounterInternal (spec : Spec) (podUID : string)
  : option AwsEbs.awsElasticBlockStoreMounter * Go.error :=
  match getVolumeSource spec with
  | (Some ebs, readOnly, None) =>
      let volumeID := EBS.VolumeID ebs in
      let fsType := EBS.FSType ebs in
      let partition :=
        if negb (EBS.Partition ebs =? 0)%Z then Go.Itoa (EBS.Partition ebs) else "" in
      (Some {| AwsEbs.volName := spec_Name spec;
               AwsEbs.podUID := podUID;
               AwsEbs.volumeID := volumeID;
               AwsEbs.partition := partition;
               AwsEbs.fsType := fsType;
               AwsEbs.readOnly := readOnly;
               AwsEbs.mountOptions := MountOptionFromSpec MountOptionAnnotation spec [];
               AwsEbs.host := host |}, None)
  | (_, _, err) => (None, err)
  end.

(** [awsElasticBlockStorePlugin.ConstructVolumeSpec], given the mounter's
    [GetDeviceNameFromMount].  The result is the [v1.Volume] handed to
    [volume.NewSpecFromVolume], [None] on an error. *)
Definition ConstructVolumeSpec
    (mounter_GetDeviceNameFromMount : string -> string -> string * Go.error)
    (volName mountPath : string) : option Vol.t * Go.error :=
  let pluginDir := GetPluginDir host AwsEbs.awsElasticBlockStorePluginName in
  let '(volumeID, err) := mounter_GetDeviceNameFromMount mountPath pluginDir in
  if negb (Go.is_nil err) then (None, err) else
  let awsVolume (sourceName : string) : option Vol.t * Go.error :=
    (Some {| Vol.Name := volName;
             Vol.AWSElasticBlockStore :=
               Some {| EBS.VolumeID := sourceName; EBS.FSType := "";
                       EBS.Partition := 0; EBS.ReadOnly := false |};
             Vol.GCEPersistentDisk := None |}, None) in
  if GoStrings.HasPrefix volumeID "aws/" then
    let names := GoStrings.Split volumeID "/" in
    let length_ := length names in
    if (length_ <? 2)%nat || (3 <? length_)%nat
    then (None, Go.Errorf ("failed to get AWS volume id from mount path "
                           ++ Go.quote mountPath ++ ": invalid volume name format "
                           ++ Go.quote volumeID))
    else
      let volName := nth (length_ - 1) names "" in
      if negb (GoStrings.HasPrefix volName "vol-")
      then (None, Go.Errorf ("invalid volume name format for AWS volume ("
                             ++ Go.quote volName ++ ") retrieved from mount path "
                             ++ Go.quote mountPath))
      else if (length_ =? 2)%nat
      then awsVolume (awsURLNamePrefix ++ "" ++ "/" ++ volName)%string
      else if (length_ =? 3)%nat
      then awsVolume (awsURLNamePrefix ++ nth 1 names "" ++ "/" ++ volName)%string
      else awsVolume volumeID
  else awsVolume volumeID.

End Plugin.
End AwsEbsPlugin.

(** ** [pkg/volume/gcepd/gce_pd.go]: the plugin *)

Module GcePdPlugin.
Import Node VolumeSpec.

Definition ReadWriteOnce : string := "ReadWriteOnce".
Definition ReadOnlyMany : string := "ReadOnlyMany".

(** [gcePersistentDiskPlugin.GetAccessModes] *)
Definition GetAccessModes : list string := [ReadWriteOnce; ReadOnlyMany].

(** [gcePersistentDiskPlugin.CanSupport] *)
Definition CanSupport (spec : Spec) : bool :=
  match PersistentVolume spec with
  | Some pv => notNil (PV.GCEPersistentDisk pv)
  | None => false
  end
  || match Volume spec with
     | Some v => notNil (Vol.GCEPersistentDisk v)
     | None => false
     end.

(** [getVolumeSource]; the source is [None] on an error. *)
Definition getVolumeSource (spec : Spec) : option PD.VolumeSource * bool * Go.error :=
  let fromPV :=
    match PersistentVolume spec with
    | Some {| PV.GCEPersistentDisk := Some pd |} => (Some pd, ReadOnly spec, None)
    | _ => (None, false, Go.Errorf "spec does not reference a GCE volume type")
    end in
  match Volume spec with
  | Some {| Vol.GCEPersistentDisk := Some pd |} => (Some pd, PD.ReadOnly pd, None)
  | _ => fromPV
  end.

(** [gcePersistentDiskPlugin.GetVolumeName] *)
Definition GetVolumeName (spec : Spec) : string * Go.error :=
  match getVolumeSource spec with
  | (Some volumeSource, _, None) => (PD.PDName volumeSource, None)
  | (_, _, err) => ("", err)
  end.

Section Plugin.
Variable spec_Name : Spec -> string.
Variable MountOptionAnnotation : string.
Variable host : VolumeHost.

(** [gcePersistentDiskPlugin.newMounterInternal] *)
Definition newMounterInternal (spec : Spec) (podUID : string)
  : option GcePd.gcePersistentDiskMounter * Go.error :=
  match getVolumeSource spec with
  | (Some volumeSource, readOnly, None) =>
      let pdName := PD.PDName volumeSource in
      let partition :=
        if negb (PD.Partition volumeSource =? 0)%Z
        then Go.Itoa (PD.Partition volumeSource) else "" in
      (Some {| GcePd.volName := spec_Name spec;
               GcePd.podUID := podUID;
               GcePd.pdName := pdName;
               GcePd.partition := partition;
               GcePd.readOnly := readOnly;
               GcePd.mountOptions := MountOptionFromSpec MountOptionAnnotation spec [];
               GcePd.host := host |}, None)
  | (_, _, err) => (None, err)
  end.

End Plugin.
End GcePdPlugin.
(** ** [pkg/kubelet/dockershim/network/cni/cni.go]: tear-down and events *)

Module CniTearDown.
Import Cni.
Import Go (outcome, Returns, Panics).
Local Open Scope prog_scope.

Definition cniNet_DelNetworkList (cni : list string) (netConf : NetworkConfigList)
    (rt : RuntimeConf) : prog Go.error :=
  Prog.perform (DelNetworkList cni netConf rt).

Section Lib.
(** As for [SetUpPod]: [bandwidth.ExtractPodBandwidthResources],
    [network.DefaultInterfaceName] and [strings.ToLower] are not among the
    sources. *)
Variable ExtractPodBandwidthResources :
  gmap string string -> option Z * option Z * Go.error.
Variable DefaultInterfaceName : string.
Variable strings_ToLower : string -> string.

(** [cniNetworkPlugin.deleteFromNetwork].  As in [addToNetwork], the log
    line reads [netConf.Plugins[0]] before the call. *)
Definition deleteFromNetwork (plugin : cniNetworkPlugin) (network : option cniNetwork)
    (podName podNamespace podSandboxID podNetnsPath : string)
    (annotations : gmap string string) : prog (outcome Go.error) :=
  rt <- buildCNIRuntimeConf ExtractPodBandwidthResources DefaultInterfaceName
          strings_ToLower plugin podName podNamespace podSandboxID podNetnsPath
          annotations ;;
  match rt with
  | inl e => Prog.Ret (Returns (Some e))
  | inr rt =>
      match network with
      | None => Prog.Ret (Panics "invalid memory address or nil pointer dereference")
      | Some network =>
          let netConf := NetworkConfig_ network in
          match Plugins netConf with
          | [] => Prog.Ret (Panics "index out of range")
          | _ :: _ =>
              err <- cniNet_DelNetworkList (CNIConfig network) netConf rt ;;
              match err with
              | Some e =>
                  if negb (GoStr.Contains (Go.Error e) "no such file or directory")
                  then Prog.Ret (Returns err)
                  else Prog.Ret (Returns None)
              | None => Prog.Ret (Returns None)
              end
          end
      end
  end.

(** [cniNetworkPlugin.TearDownPod]: an error of [GetNetNS] is logged and
    the tear-down goes on with the path that came back; the annotations
    are [nil]. *)
Definition TearDownPod (plugin : cniNetworkPlugin) (namespace name : string)
    (id : string) : prog (outcome Go.error) :=
  match checkInitialized plugin with
  | Some e => Prog.Ret (Returns (Some e))
  | None =>
      '(netnsPath, _) <- host_GetNetNS id ;;
      deleteFromNetwork plugin (defaultNetwork plugin) name namespace id netnsPath ∅
  end.

End Lib.

(** The plugin after a sequence of events, each a name and the CIDR it
    carries. *)
Definition Events (NET_PLUGIN_EVENT_POD_CIDR_CHANGE : string)
    (plugin : cniNetworkPlugin) (events : list (string * option string))
  : cniNetworkPlugin :=
  fold_left (fun p ev => Event NET_PLUGIN_EVENT_POD_CIDR_CHANGE p (fst ev) (snd ev))
            events plugin.

(** The first non-empty CIDR that a sequence of events carries under the
    name of the pod CIDR change, the empty string when there is none. *)
Fixpoint firstCIDR (NET_PLUGIN_EVENT_POD_CIDR_CHANGE : string)
    (events : list (string * option string)) : string :=
  match events with
  | [] => ""
  | (name, Some cidr) :: rest =>
      if String.eqb name NET_PLUGIN_EVENT_POD_CIDR_CHANGE && negb (String.eqb cidr "")
      then cidr else firstCIDR NET_PLUGIN_EVENT_POD_CIDR_CHANGE rest
  | (_, None) :: rest => firstCIDR NET_PLUGIN_EVENT_POD_CIDR_CHANGE rest
  end.

(** What a recorded call did to a network: the configuration it was made
    on and the namespace path it carried, for an ADD and for a DEL. *)
Definition is_Add (e : event) : bool :=
  match Prog.ev_call e with AddNetworkList _ _ _ => true | _ => false end.

Definition is_Del (e : event) : bool :=
  match Prog.ev_call e with DelNetworkList _ _ _ => true | _ => false end.

Definition network_of (e : event) : option NetworkConfigList :=
  match Prog.ev_call e with
  | AddNetworkList _ netConf _ | DelNetworkList _ netConf _ => Some netConf
  | _ => None
  end.

Definition netns_of (e : event) : option string :=
  match Prog.ev_call e with
  | AddNetworkList _ _ rt | DelNetworkList _ _ rt => Some (NetNS rt)
  | _ => None
  end.

(** The error a recorded ADD or DEL came back with; [None] for any other
    call. *)
Definition result_of (e : event) : option Go.error :=
  match e with
  | Prog.Event c r =>
      match c return resp c -> option Go.error with
      | AddNetworkList _ _ _ => fun r => Some (snd r)
      | DelNetworkList _ _ _ => fun r => Some r
      | _ => fun _ => None
      end r
  end.

(** What [deleteFromNetwork] makes of the error of a DEL. *)
Definition ignoringNotFound (err : Go.error) : Go.error :=
  match err with
  | Some e => if GoStr.Contains (Go.Error e) "no such file or directory" then None else err
  | None => None
  end.

End CniTearDown.
(** ** [pkg/volume/azure_dd/attacher.go]: what a trace of the attacher shows,
    and [MountDevice] *)

Module AzureTrace.
Import AzureDD.

Definition is_AttachDisk (e : event) : bool :=
  match Prog.ev_call e with AttachDisk _ _ _ _ _ _ => true | _ => false end.

Definition is_DetachDiskByName (e : event) : bool :=
  match Prog.ev_call e with DetachDiskByName _ _ _ => true | _ => false end.

(** The calls that take the keyed mutex, allocate a LUN or attach a disk. *)
Definition is_attaching (e : event) : bool :=
  match Prog.ev_call e with
  | LockKey _ | GetNextDiskLun _ | AttachDisk _ _ _ _ _ _ => true
  | _ => false
  end.

End AzureTrace.

Module AzureMount.
Import Go (outcome, Returns, Panics).
Import AzureDD (AzureDiskVolumeSource, FSType).
Local Open Scope prog_scope.

(** What [MountDevice] calls: the mounter of the host, package [os], the
    [ReadDir] of the package's [osIOHandler] and the [FormatAndMount] of
    [mount.SafeFormatAndMount]. *)
Inductive call :=
| IsLikelyNotMountPoint (file : string)
| MkdirAll (path : string) (perm : N)
| ReadDir (dirname : string)
| Unmount (target : string)
| FormatAndMount (source target fstype : string) (options : list string)
| Remove (name : string).

(** [ReadDir] answers its error; the entries are not used. *)
Definition resp (c : call) : Type :=
  match c with
  | IsLikelyNotMountPoint _ => (bool * Go.error)%type
  | _ => Go.error
  end.

Definition prog := Prog.prog resp.
Definition event := Prog.event resp.
Definition handler := Prog.handler resp.

Definition mounter_IsLikelyNotMountPoint (file : string) : prog (bool * Go.error) :=
  Prog.perform (IsLikelyNotMountPoint file).
Definition os_MkdirAll (path : string) (perm : N) : prog Go.error :=
  Prog.perform (MkdirAll path perm).
Definition osIOHandler_ReadDir (dirname : string) : prog Go.error :=
  Prog.perform (ReadDir dirname).
Definition mounter_Unmount (target : string) : prog Go.error :=
  Prog.perform (Unmount target).
Definition diskMounter_FormatAndMount (source target fstype : string)
    (options : list string) : prog Go.error :=
  Prog.perform (FormatAndMount source target fstype options).
Definition os_Remove (name : string) : prog Go.error := Prog.perform (Remove name).

Definition is_FormatAndMount (e : event) : bool :=
  match Prog.ev_call e with FormatAndMount _ _ _ _ => true | _ => false end.

(** The error a recorded [FormatAndMount] came back with, [None] for one
    that succeeded and for every other call. *)
Definition mount_error (e : event) : Go.error :=
  match e with
  | Prog.Event c r =>
      match c return resp c -> Go.error with
      | FormatAndMount _ _ _ _ => fun r => r
      | _ => fun _ => None
      end r
  end.

Section Attacher.
(** As for [Attach]: [getVolumeSource] on an abstract [volume.Spec];
    [util.MountOptionFromSpec] on that spec, [filepath.Dir] and
    [runtime.GOOS]. *)
Variable Spec : Type.
Variable getVolumeSource : Spec -> Go.err + AzureDiskVolumeSource.
Variable util_MountOptionFromSpec : Spec -> list string -> list string.
Variable filepath_Dir : string -> string.
Variable GOOS : string.

(** [azureDiskAttacher.MountDevice].  [*volumeSource.FSType] is evaluated
    for the call of [FormatAndMount] and panics on a nil pointer. *)
Definition MountDevice (spec : Spec) (devicePath deviceMountPath : string)
  : prog (outcome Go.error) :=
  let mount (notMnt : bool) : prog (outcome Go.error) :=
    match getVolumeSource spec with
    | inl e => Prog.Ret (Returns (Some e))
    | inr volumeSource =>
        let options : list string := [] in
        if notMnt then
          let mountOptions := util_MountOptionFromSpec spec options in
          match FSType volumeSource with
          | None => Prog.Ret (Panics "invalid memory address or nil pointer dereference")
          | Some fstype =>
              err <- diskMounter_FormatAndMount devicePath deviceMountPath fstype
                       mountOptions ;;
              match err with
              | Some e =>
                  cleanErr <- os_Remove deviceMountPath ;;
                  match cleanErr with
                  | Some ce =>
                      Prog.Ret (Returns (Go.Errorf
                        ("azureDisk - mountDevice:FormatAndMount failed with " ++ Go.Error e
                         ++ " and clean up failed with :" ++ Go.Error ce)))
                  | None =>
                      Prog.Ret (Returns (Go.Errorf
                        ("azureDisk - mountDevice:FormatAndMount failed with " ++ Go.Error e)))
                  end
              | None => Prog.Ret (Returns None)
              end
          end
        else Prog.Ret (Returns None)
    end in
  let check (notMnt : bool) : prog (outcome Go.error) :=
    if negb notMnt then
      err <- osIOHandler_ReadDir deviceMountPath ;;
      match err with
      | Some _ =>
          err <- mounter_Unmount deviceMountPath ;;
          match err with
          | Some e => Prog.Ret (Returns (Some e))
          | None => mount true
          end
      | None => mount notMnt
      end
    else mount notMnt in
  '(notMnt, err) <- mounter_IsLikelyNotMountPoint deviceMountPath ;;
  match err with
  | Some e =>
      if Go.IsNotExist err then
        let dir := if String.eqb GOOS "windows" then filepath_Dir deviceMountPath
                   else deviceMountPath in
        err <- os_MkdirAll dir Node.perm_0750 ;;
        match err with
        | Some e' =>
            Prog.Ret (Returns (Go.Errorf
              ("azureDisk - mountDevice:CreateDirectory failed with " ++ Go.Error e')))
        | None => check true
        end
      else Prog.Ret (Returns (Go.Errorf
             ("azureDisk - mountDevice:IsLikelyNotMountPoint failed with " ++ Go.Error e)))
  | None => check notMnt
  end.

End Attacher.
End AzureMount.
(** ** Package [resource] of [pkg/api/v1]: the request of a pod *)

Module PodResource.
Import GoInt.

Section Quantity.
(** [resource.Quantity] with its [Value] and [MilliValue], both [int64],
    and the resource names [v1.ResourcePods] and [v1.ResourceCPU] are not
    among the sources. *)
Variable Quantity : Type.
Variable Value : Quantity -> Z.
Variable MilliValue : Quantity -> Z.
Variable ResourcePods : string.
Variable ResourceCPU : string.

(** [v1.Container], the requests of its [Resources], and [v1.Pod], the
    two container lists of its [Spec]. *)
Record Container := {
  Name : string;
  Requests : gmap string Quantity;
}.

Record Pod := {
  Containers : list Container;
  InitContainers : list Container;
}.

(** The two loops of [GetResourceRequest]. *)
Definition addContainer (resource : string) (totalResources : Z) (container : Container)
  : Z :=
  match Requests container !! resource with
  | Some rQuantity =>
      if String.eqb resource ResourceCPU
      then int64 (totalResources + MilliValue rQuantity)
      else int64 (totalResources + Value rQuantity)
  | None => totalResources
  end.

Definition maxInitContainer (resource : string) (totalResources : Z)
    (container : Container) : Z :=
  match Requests container !! resource with
  | Some rQuantity =>
      if String.eqb resource ResourceCPU && (MilliValue rQuantity >? totalResources)%Z
      then MilliValue rQuantity
      else if (Value rQuantity >? totalResources)%Z
      then Value rQuantity
      else totalResources
  | None => totalResources
  end.

(** [GetResourceRequest] *)
Definition GetResourceRequest (pod : Pod) (resource : string) : Z :=
  if String.eqb resource ResourcePods then 1%Z else
  let totalResources := fold_left (addContainer resource) (Containers pod) 0%Z in
  fold_left (maxInitContainer resource) (InitContainers pod) totalResources.

(** What a container asks of a resource: milli-units of CPU, units of any
    other resource, nothing when the resource is not among its requests. *)
Definition requested (resource : string) (container : Container) : Z :=
  match Requests container !! resource with
  | Some rQuantity =>
      if String.eqb resource ResourceCPU then MilliValue rQuantity else Value rQuantity
  | None => 0%Z
  end.

(** The exact sum of what the containers of a list ask. *)
Definition sum_requested (resource : string) (containers : list Container) : Z :=
  fold_right (fun c acc => (requested resource c + acc)%Z) 0%Z containers.

End Quantity.

Arguments Name {Quantity} _.
Arguments Requests {Quantity} _.
Arguments Containers {Quantity} _.
Arguments InitContainers {Quantity} _.

End PodResource.
(** ** [pkg/volume/awsebs/aws_ebs.go]: the provisioner *)

Module AwsEbsProvision.
Import VolumeSpec.
Local Open Scope prog_scope.

(** [util.VolumeDynamicallyCreatedByKey] *)
Definition VolumeDynamicallyCreatedByKey : string := "kubernetes.io/createdby".

(** [v1.NodeSelectorRequirement] *)
Record NodeSelectorRequirement := {
  Key : string;
  Operator : string;
  Values : list string;
}.

(** [v1.PersistentVolume] as [Provision] fills it: the metadata, the fields
    of its [Spec], the storage entry of [Capacity] as the text that is
    handed to [resource.MustParse], and, when [NodeAffinity] is set, the
    match expressions of its one node selector term. *)
Record PersistentVolume := {
  Name : string;
  Labels : gmap string string;
  Annotations : gmap string string;
  PersistentVolumeReclaimPolicy : string;
  AccessModes : list string;
  Capacity : string;
  VolumeMode : option string;
  AWSElasticBlockStore : EBS.VolumeSource;
  MountOptions : list string;
  NodeAffinity : option (list NodeSelectorRequirement);
}.

(** [volume.VolumeOptions], the fields that [Provision] reads; the two
    [PVC] fields are those of [PVC.Spec]. *)
Record VolumeOptions := {
  PVName : string;
  PVC_AccessModes : list string;
  PVC_VolumeMode : option string;
  ReclaimPolicy : string;
  OptionsMountOptions : list string;
}.

Section Provisioner.
(** [v1.Node], the feature gates [features.BlockVolume] and
    [features.VolumeScheduling] as [utilfeature.DefaultFeatureGate] has
    them, and the constants [v1.PersistentVolumeBlock] and
    [v1.NodeSelectorOpIn] are not among the sources. *)
Variable Node : Type.
Variable BlockVolume : bool.
Variable VolumeScheduling : bool.
Variable PersistentVolumeBlock : string.
Variable NodeSelectorOpIn : string.

(** The one call of [Provision]: [c.manager.CreateVolume], which answers
    the volume id, the size in GiB, the labels, the file system type and an
    error. *)
Inductive call :=
| CreateVolume (options : VolumeOptions) (selectedNode : option Node)
               (allowedTopologies : list Zones.TopologySelectorTerm).

Definition resp (c : call) : Type :=
  (string * Z * gmap string string * string * Go.error)%type.

Definition prog := Prog.prog resp.
Definition event := Prog.event resp.

Definition manager_CreateVolume (options : VolumeOptions) (selectedNode : option Node)
    (allowedTopologies : list Zones.TopologySelectorTerm)
  : prog (string * Z * gmap string string * string * Go.error) :=
  Prog.perform (CreateVolume options selectedNode allowedTopologies).

(** ["%v"] of a slice of access modes: the modes in brackets, separated by
    spaces. *)
Definition fmt_modes (modes : list string) : string :=
  ("[" ++ GoStr.Join modes " " ++ "]")%string.

(** The loop over the labels: every label is copied to the volume and
    gives one requirement.  Go ranges over a map in an unspecified order,
    as [map_fold] does. *)
Definition labelsLoop (labels : gmap string string)
  : gmap string string * list NodeSelectorRequirement :=
  map_fold (fun k v '(pvLabels, requirements) =>
              (<[ k := v ]> pvLabels,
               requirements ++ [{| Key := k; Operator := NodeSelectorOpIn;
                                   Values := [v] |}]))
           (∅, []) labels.

(** [awsElasticBlockStoreProvisioner.Provision]; the volume is [None] on
    an error. *)
Definition Provision (options : VolumeOptions) (selectedNode : option Node)
    (allowedTopologies : list Zones.TopologySelectorTerm)
  : prog (option PersistentVolume * Go.error) :=
  if negb (VolumeUtil.AccessModesContainedInAll AwsEbsPlugin.GetAccessModes
             (PVC_AccessModes options))
  then Prog.Ret (None, Go.Errorf ("invalid AccessModes " ++ fmt_modes (PVC_AccessModes options)
                                  ++ ": only AccessModes "
                                  ++ fmt_modes AwsEbsPlugin.GetAccessModes
                                  ++ " are supported"))
  else
  '(volumeID, sizeGB, labels, fstype, err) <-
     manager_CreateVolume options selectedNode allowedTopologies ;;
  if negb (Go.is_nil err) then Prog.Ret (None, err) else
  let fstype := if String.eqb fstype "" then "ext4" else fstype in
  let volumeMode := if BlockVolume then PVC_VolumeMode options else None in
  let fstype :=
    if BlockVolume then
      match volumeMode with
      | Some mode => if String.eqb mode PersistentVolumeBlock then "" else fstype
      | None => fstype
      end
    else fstype in
  let accessModes :=
    if (length (PVC_AccessModes options) =? 0)%nat then AwsEbsPlugin.GetAccessModes
    else PVC_AccessModes options in
  let '(pvLabels, requirements) :=
    if negb (size labels =? 0)%nat then labelsLoop labels else (∅, []) in
  Prog.Ret
    (Some {| Name := PVName options;
             Labels := pvLabels;
             Annotations :=
               {[ VolumeDynamicallyCreatedByKey := "aws-ebs-dynamic-provisioner" ]};
             PersistentVolumeReclaimPolicy := ReclaimPolicy options;
             AccessModes := accessModes;
             Capacity := (Go.Itoa sizeGB ++ "Gi")%string;
             VolumeMode := volumeMode;
             AWSElasticBlockStore :=
               {| EBS.VolumeID := volumeID; EBS.FSType := fstype;
                  EBS.Partition := 0; EBS.ReadOnly := false |};
             MountOptions := OptionsMountOptions options;
             NodeAffinity := if VolumeScheduling then Some requirements else None |},
     None).

End Provisioner.
End AwsEbsProvision.

(** * Part II: theorems *)

(** ** Programs: running against a handler follows one path of the tree *)

Module ProgFacts.
Import Prog.
Section WithCalls.
Context {call : Type} {resp : call -> Type}.

Lemma run_always {W R} (h : handler resp W) (p : prog resp R) :
  forall (P : list (event resp) -> R -> Prop) (w w' : W) r tr,
    always P p -> run h p w = (r, w', tr) -> P tr r.
Proof.
  induction p as [r0 | c k IH]; intros P w w' r tr HP Hrun; simpl in *.
  - inversion Hrun; subst; exact HP.
  - destruct (h c w) as [x w1] eqn:Hh.
    destruct (run h (k x) w1) as [[r1 w2] tr1] eqn:Hk.
    inversion Hrun; subst.
    exact (IH x _ _ _ _ _ (HP x) Hk).
Qed.


End WithCalls.
End ProgFacts.

(** ** The string helpers on the inputs the plugins see *)

Module StringFacts.

Example JoinMountOptions_sorts_and_dedups :
  Util.JoinMountOptions ["bind"; "ro"] ["noatime"; ""; "bind"] = [""; "bind"; "noatime"; "ro"] /\
  Util.JoinMountOptions [""; "noatime"] ["bind"] = ["bind"; "noatime"].
Proof. split; reflexivity. Qed.

Example Atoi_examples :
  GoStrings.Atoi "96" = Some 96%Z /\ GoStrings.Atoi "" = None /\
  GoStrings.Atoi "-" = None /\ GoStrings.Atoi "4x" = None /\
  GoStrings.Atoi "-8" = Some (-8)%Z /\ GoStrings.Atoi "+8" = Some 8%Z /\
  GoStrings.Atoi "9223372036854775808" = None.
Proof. repeat split; reflexivity. Qed.

Example Split_Replace_examples :
  GoStrings.Split "n1-standard-8" "-" = ["n1"; "standard"; "8"] /\
  GoStrings.Split "n1-" "-" = ["n1"; ""] /\
  GoStrings.Split "" "-" = [""] /\
  GoStrings.Replace "aws://us-east-1/vol-1" "://" "/" = "aws/us-east-1/vol-1" /\
  GoStrings.Replace "a/b/c" "/" "~" = "a~b~c" /\
  Go.Itoa 3 = "3" /\ Go.Itoa (-12) = "-12" /\ Go.Itoa 0 = "0".
Proof. repeat split; reflexivity. Qed.

End StringFacts.

(** ** Bind-mounting a disk into a pod: [SetUpAt] *)

Module SetUpFacts.
Import Prog Node.

#[local] Arguments Go.IsNotExist : simpl never.

(** One step through a program tree: take the next answer of the
    environment apart, or decide the next test of the program. *)
Ltac path_step :=
  match goal with
  | |- forall _ : (bool * Go.error)%type, _ => let x := fresh "x" in intro x
  | |- forall _ : Go.error, _ => let x := fresh "x" in intro x
  | x : (bool * Go.error)%type |- _ => destruct x as [? ?]
  | x : Go.error |- _ => destruct x as [? |]
  | x : bool |- _ => destruct x
  | |- context [Go.IsNotExist ?e] => destruct (Go.IsNotExist e)
  | |- context [AwsEbs.readOnly ?b] => destruct (AwsEbs.readOnly b)
  | |- context [GcePd.readOnly ?b] => destruct (GcePd.readOnly b)
  end; simpl.

Ltac all_paths := simpl; repeat path_step.

(** On every path of [SetUpAt]: if some [Mount] call failed with [e], the run
    returns [e], made exactly one [Mount] call and at most one [Unmount]
    call, and every [Unmount] was on [dir]. *)
Lemma aws_SetUpAt_paths (L : PathLib) (b : AwsEbs.awsElasticBlockStoreMounter)
    (dir : string) (fsGroup : option Z) :
  always (fun tr r =>
            forall e, In e (failed_mounts tr) ->
              r = Some e /\
              length (List.filter is_Mount tr) = 1 /\
              length (List.filter is_Unmount tr) <= 1 /\
              (forall ev, In ev tr -> is_Unmount ev = true -> ev_call ev = Unmount dir))
         (AwsEbs.SetUpAt L b dir fsGroup).
Proof.
  unfold AwsEbs.SetUpAt.
  all_paths.
  all: intros ? He; cbn in He.
  all: try contradiction.
  all: destruct He as [<- | []].
  all: repeat split; cbn; try lia.
  all: intros ev Hev Hun; cbn in Hev.
  all: repeat (destruct Hev as [<- | Hev]; [try discriminate Hun; try reflexivity |]).
  all: try contradiction.
Qed.

Lemma gce_SetUpAt_paths (L : PathLib) (b : GcePd.gcePersistentDiskMounter)
    (dir : string) (fsGroup : option Z) :
  always (fun tr r =>
            forall e, In e (failed_mounts tr) ->
              r = Some e /\
              length (List.filter is_Mount tr) = 1 /\
              length (List.filter is_Unmount tr) <= 1 /\
              (forall ev, In ev tr -> is_Unmount ev = true -> ev_call ev = Unmount dir))
         (GcePd.SetUpAt L b dir fsGroup).
Proof.
  unfold GcePd.SetUpAt.
  all_paths.
  all: intros ? He; cbn in He.
  all: try contradiction.
  all: destruct He as [<- | []].
  all: repeat split; cbn; try lia.
  all: intros ev Hev Hun; cbn in Hev.
  all: repeat (destruct Hev as [<- | Hev]; [try discriminate Hun; try reflexivity |]).
  all: try contradiction.
Qed.

(** C1. Whatever the node answers: when the bind mount of a [SetUpAt] call
    (AWS EBS or GCE PD) fails with error [e], the call returns [e], it has
    called [Mount] exactly once (no second attempt), it has called [Unmount]
    at most once, and only on the target directory. *)
Theorem SetUpAt_failed_mount_one_unmount_no_retry
    (L : PathLib) (W : Type) (h : handler W) (w w' : W)
    (m : Volume.Mounter) (dir : string) (fsGroup : option Z)
    (r : Go.error) (tr : list event) (e : Go.err) :
  run h (Volume.SetUpAt L m dir fsGroup) w = (r, w', tr) ->
  In e (failed_mounts tr) ->
  r = Some e /\
  length (List.filter is_Mount tr) = 1 /\
  length (List.filter is_Unmount tr) <= 1 /\
  (forall ev, In ev tr -> is_Unmount ev = true -> ev_call ev = Unmount dir).
Proof.
  intros Hrun He.
  destruct m as [b | b]; simpl in Hrun.
  - exact (ProgFacts.run_always h _ _ w w' r tr
             (aws_SetUpAt_paths L b dir fsGroup) Hrun e He).
  - exact (ProgFacts.run_always h _ _ w w' r tr
             (gce_SetUpAt_paths L b dir fsGroup) Hrun e He).
Qed.

(** The failing node: the mount fails and sticks, one [Unmount] cleans up,
    the directory is removed and the mount error comes back. *)
Example SetUpAt_on_failing_node :
  run FakeNode.handle
      (Volume.SetUpAt FakeNode.paths (Volume.AwsMounter FakeNode.ebs) "/pod/vol" None)
      FakeNode.failing
  = (Go.Errorf "mount failed", FakeNode.failing,
     [ Event (IsLikelyNotMountPoint "/pod/vol")
             (true, Some (Go.PathError "stat" "/pod/vol" Go.ENOENT));
       Event (MkdirAll "/pod/vol" perm_0750) None;
       Event (Mount "/var/lib/kubelet/plugins/kubernetes.io/aws-ebs/mounts/aws/us-east-1a/vol-1"
                    "/pod/vol" "" ["bind"; "noatime"])
             (Go.Errorf "mount failed");
       Event (IsLikelyNotMountPoint "/pod/vol") (false, None);
       Event (Unmount "/pod/vol") None;
       Event (IsLikelyNotMountPoint "/pod/vol") (true, None);
       Event (Remove "/pod/vol") None ]).
Proof. reflexivity. Qed.

Lemma SetUpAt_failed_mount_witness :
  let '(r, _, tr) :=
    run FakeNode.handle
        (Volume.SetUpAt FakeNode.paths (Volume.AwsMounter FakeNode.ebs) "/pod/vol" None)
        FakeNode.failing in
  r = Go.Errorf "mount failed" /\
  length (List.filter is_Mount tr) = 1 /\
  length (List.filter is_Unmount tr) <= 1 /\
  (forall ev, In ev tr -> is_Unmount ev = true -> ev_call ev = Unmount "/pod/vol").
Proof.
  rewrite SetUpAt_on_failing_node.
  eapply (SetUpAt_failed_mount_one_unmount_no_retry
            FakeNode.paths FakeNode.world FakeNode.handle FakeNode.failing
            FakeNode.failing (Volume.AwsMounter FakeNode.ebs) "/pod/vol" None).
  - exact SetUpAt_on_failing_node.
  - cbn. left. reflexivity.
Defined.

(** C4. When [IsLikelyNotMountPoint] reports the directory as a mount
    point ([notMnt] false, with no error or with a "does not exist" error,
    which the code passes), [SetUpAt] (AWS EBS or GCE PD) returns [nil] and
    that check is the only call it makes: no [MkdirAll], no [Mount], no
    [SetVolumeOwnership]; the node is left as the check left it. *)
Theorem SetUpAt_already_mounted_is_noop
    (L : PathLib) (W : Type) (h : handler W) (w w1 : W)
    (m : Volume.Mounter) (dir : string) (fsGroup : option Z) (err : Go.error) :
  h (IsLikelyNotMountPoint dir) w = ((false, err), w1) ->
  err = None \/ Go.IsNotExist err = true ->
  run h (Volume.SetUpAt L m dir fsGroup) w
  = (None, w1, [Event (IsLikelyNotMountPoint dir) (false, err)]).
Proof.
  intros Hcheck Herr.
  destruct m as [b | b]; simpl; rewrite Hcheck; simpl.
  all: destruct Herr as [-> | ->]; [reflexivity |].
  all: rewrite andb_false_r; reflexivity.
Qed.

Lemma SetUpAt_already_mounted_witness :
  run FakeNode.handle
      (Volume.SetUpAt FakeNode.paths (Volume.GceMounter FakeNode.pd) "/pod/vol" (Some 7%Z))
      FakeNode.mounted
  = (None, FakeNode.mounted, [Event (IsLikelyNotMountPoint "/pod/vol") (false, None)]).
Proof.
  apply (SetUpAt_already_mounted_is_noop
           FakeNode.paths FakeNode.world FakeNode.handle FakeNode.mounted FakeNode.mounted
           (Volume.GceMounter FakeNode.pd) "/pod/vol" (Some 7%Z) None).
  - reflexivity.
  - left. reflexivity.
Defined.

(** A failed check other than "does not exist" is returned as it is. *)
Lemma SetUpAt_check_error (L : PathLib) (W : Type) (h : handler W) (w w1 : W)
    (m : Volume.Mounter) (dir : string) (fsGroup : option Z)
    (notMnt : bool) (e : Go.err) :
  h (IsLikelyNotMountPoint dir) w = ((notMnt, Some e), w1) ->
  Go.IsNotExist (Some e) = false ->
  run h (Volume.SetUpAt L m dir fsGroup) w
  = (Some e, w1, [Event (IsLikelyNotMountPoint dir) (notMnt, Some e)]).
Proof.
  intros Hcheck Hne.
  destruct m as [b | b]; simpl; rewrite Hcheck; simpl; rewrite Hne; reflexivity.
Qed.

End SetUpFacts.

(** ** Attachable-volume limits: [GetVolumeLimits] *)

Module LimitFacts.
Import Node.

Section Limits.
Variables (EBSVolumeLimitKey GCEVolumeLimitKey : string).
Variables (DefaultMaxEBSVolumes DefaultMaxEBSNitroVolumeLimit : Z).
Variables (EBSNitroLimitRegex aws_ProviderName gce_ProviderName : string).
Variable regexp_MatchString : string -> string -> bool * Go.error.

Let ebsLimits := AwsEbs.GetVolumeLimits EBSVolumeLimitKey DefaultMaxEBSVolumes
  DefaultMaxEBSNitroVolumeLimit EBSNitroLimitRegex aws_ProviderName regexp_MatchString.
Let gceLimits := GcePd.GetVolumeLimits GCEVolumeLimitKey gce_ProviderName.

Lemma ebs_lookup_fails_default (host : CloudHost) (cloud : Cloud) :
  GetCloudProvider host = Some cloud ->
  ProviderName cloud = aws_ProviderName ->
  Volume.instance_lookup_fails host cloud = true ->
  ebsLimits host = (Some {[ EBSVolumeLimitKey := DefaultMaxEBSVolumes ]}, None).
Proof.
  intros Hc Hp Hf. unfold ebsLimits, AwsEbs.GetVolumeLimits.
  rewrite Hc, Hp, String.eqb_refl. simpl.
  unfold Volume.instance_lookup_fails in Hf.
  destruct (GetInstances cloud) as [instances |]; [| reflexivity].
  destruct (InstanceType instances (GetNodeName host)) as [ty err].
  simpl in Hf. rewrite Hf. reflexivity.
Qed.

Lemma gce_lookup_fails_default (host : CloudHost) (cloud : Cloud) :
  GetCloudProvider host = Some cloud ->
  ProviderName cloud = gce_ProviderName ->
  Volume.instance_lookup_fails host cloud = true ->
  gceLimits host = (Some {[ GCEVolumeLimitKey := GcePd.VolumeLimit16 ]}, None).
Proof.
  intros Hc Hp Hf. unfold gceLimits, GcePd.GetVolumeLimits.
  rewrite Hc, Hp, String.eqb_refl. simpl.
  unfold Volume.instance_lookup_fails in Hf.
  destruct (GetInstances cloud) as [instances |]; [| reflexivity].
  destruct (InstanceType instances (GetNodeName host)) as [ty err].
  simpl in Hf. rewrite Hf. reflexivity.
Qed.

End Limits.

(** C2. On a host whose cloud provider is the plugin's own, when the lookup
    of the node's instance data fails ([Instances()] not ok, or
    [InstanceType] in error), [GetVolumeLimits] answers the default map
    with a [nil] error: the one entry [DefaultMaxEBSVolumes] for EBS, the one
    entry [VolumeLimit16] for GCE PD. *)
Theorem GetVolumeLimits_lookup_failure_gives_default
    (EBSVolumeLimitKey GCEVolumeLimitKey : string)
    (DefaultMaxEBSVolumes DefaultMaxEBSNitroVolumeLimit : Z)
    (EBSNitroLimitRegex aws_ProviderName gce_ProviderName : string)
    (regexp_MatchString : string -> string -> bool * Go.error)
    (host : CloudHost) (cloud : Cloud) :
  GetCloudProvider host = Some cloud ->
  Volume.instance_lookup_fails host cloud = true ->
  (ProviderName cloud = aws_ProviderName ->
   AwsEbs.GetVolumeLimits EBSVolumeLimitKey DefaultMaxEBSVolumes
     DefaultMaxEBSNitroVolumeLimit EBSNitroLimitRegex aws_ProviderName
     regexp_MatchString host
   = (Some {[ EBSVolumeLimitKey := DefaultMaxEBSVolumes ]}, None)) /\
  (ProviderName cloud = gce_ProviderName ->
   GcePd.GetVolumeLimits GCEVolumeLimitKey gce_ProviderName host
   = (Some {[ GCEVolumeLimitKey := GcePd.VolumeLimit16 ]}, None)).
Proof.
  intros Hc Hf. split; intros Hp.
  - now apply ebs_lookup_fails_default with (cloud := cloud).
  - now apply gce_lookup_fails_default with (cloud := cloud).
Qed.

Lemma GetVolumeLimits_lookup_failure_witness :
  AwsEbs.GetVolumeLimits "attachable-volumes-aws-ebs" 39 25 "^[cmr]5.*|t3|z1d" "aws"
    FakeNode.matchNitro
    (FakeNode.cloudHost (Some (FakeNode.cloudWithInstanceType "aws"
                                 ("", Go.Errorf "instance not found"))))
  = (Some {[ "attachable-volumes-aws-ebs" := 39%Z ]}, None).
Proof.
  refine (proj1 (GetVolumeLimits_lookup_failure_gives_default
            "attachable-volumes-aws-ebs" "attachable-volumes-gce-pd" 39 25
            "^[cmr]5.*|t3|z1d" "aws" "aws" FakeNode.matchNitro
            (FakeNode.cloudHost (Some (FakeNode.cloudWithInstanceType "aws"
                                         ("", Go.Errorf "instance not found"))))
            (FakeNode.cloudWithInstanceType "aws" ("", Go.Errorf "instance not found"))
            _ _) _); reflexivity.
Defined.

(** The other paths of [GetVolumeLimits], on concrete hosts. *)
Example GetVolumeLimits_runs :
  let ebs := AwsEbs.GetVolumeLimits "attachable-volumes-aws-ebs" 39 25
               "^[cmr]5.*|t3|z1d" "aws" FakeNode.matchNitro in
  let gce := GcePd.GetVolumeLimits "attachable-volumes-gce-pd" "gce" in
  let host c := FakeNode.cloudHost (Some c) in
  ebs (FakeNode.cloudHost None) = (None, Go.Errorf "no cloudprovider present") /\
  ebs (host (FakeNode.cloudWithoutInstances "gce"))
    = (None, Go.Errorf "expected aws cloud, found gce") /\
  ebs (host (FakeNode.cloudWithoutInstances "aws"))
    = (Some {[ "attachable-volumes-aws-ebs" := 39%Z ]}, None) /\
  ebs (host (FakeNode.cloudWithInstanceType "aws" ("c5.large", None)))
    = (Some {[ "attachable-volumes-aws-ebs" := 25%Z ]}, None) /\
  ebs (host (FakeNode.cloudWithInstanceType "aws" ("t2.micro", None)))
    = (Some {[ "attachable-volumes-aws-ebs" := 39%Z ]}, None) /\
  gce (host (FakeNode.cloudWithoutInstances "gce"))
    = (Some {[ "attachable-volumes-gce-pd" := 16%Z ]}, None) /\
  gce (host (FakeNode.cloudWithInstanceType "gce" ("n1-standard-1", None)))
    = (Some {[ "attachable-volumes-gce-pd" := 32%Z ]}, None) /\
  gce (host (FakeNode.cloudWithInstanceType "gce" ("n1-standard-4", None)))
    = (Some {[ "attachable-volumes-gce-pd" := 64%Z ]}, None) /\
  gce (host (FakeNode.cloudWithInstanceType "gce" ("n1-highmem-96", None)))
    = (Some {[ "attachable-volumes-gce-pd" := 128%Z ]}, None) /\
  gce (host (FakeNode.cloudWithInstanceType "gce" ("n1-standard", None)))
    = (Some {[ "attachable-volumes-gce-pd" := 16%Z ]}, None) /\
  gce (host (FakeNode.cloudWithInstanceType "gce" ("f1-micro", None)))
    = (Some {[ "attachable-volumes-gce-pd" := 16%Z ]}, None).
Proof.
  cbv zeta. repeat split; vm_compute; reflexivity.
Qed.

End LimitFacts.

(** ** The CNI plugin: no pod set-up before the configuration is there *)

Module CniFacts.
Import Prog Cni.
Import Go (outcome, Returns, Panics).

Lemma checkPlugins_ipRanges_without_cidr (plugins : list NetworkConfig) :
  (exists p, In p plugins /\ capability p "ipRanges" = true) ->
  checkPlugins "" plugins = Go.Errorf "no PodCIDR set".
Proof.
  induction plugins as [| q rest IH]; intros (p & Hin & Hcap).
  - destruct Hin.
  - simpl. destruct (capability q "ipRanges") eqn:Hq; [reflexivity |].
    apply IH. destruct Hin as [-> | Hin]; [congruence |]. eauto.
Qed.

Lemma checkPlugins_without_ipRanges (cidr : string) (plugins : list NetworkConfig) :
  (forall p, In p plugins -> capability p "ipRanges" = false) ->
  checkPlugins cidr plugins = None.
Proof.
  induction plugins as [| q rest IH]; intros H; [reflexivity |].
  simpl. rewrite (H q (or_introl eq_refl)). apply IH. intros p Hp. apply H. now right.
Qed.

Lemma checkPlugins_with_cidr (cidr : string) (plugins : list NetworkConfig) :
  cidr <> "" -> checkPlugins cidr plugins = None.
Proof.
  intros Hc. induction plugins as [| q rest IH]; [reflexivity |].
  simpl. destruct (capability q "ipRanges"); [| exact IH].
  destruct (String.eqb_spec cidr ""); [contradiction | reflexivity].
Qed.

(** The plugin's configuration is uninitialized: there is no default
    network, or it declares the [ipRanges] capability and no pod CIDR has
    been set. *)
Lemma checkInitialized_uninitialized (plugin : cniNetworkPlugin) :
  (defaultNetwork plugin = None \/
   exists n p, defaultNetwork plugin = Some n /\
               In p (Plugins (NetworkConfig_ n)) /\
               capability p "ipRanges" = true /\ podCidr plugin = "") ->
  checkInitialized plugin = Go.Errorf "cni config uninitialized" \/
  checkInitialized plugin = Go.Errorf "no PodCIDR set".
Proof.
  unfold checkInitialized.
  intros [-> | (n & p & -> & Hin & Hcap & ->)]; [now left | right].
  apply checkPlugins_ipRanges_without_cidr. eauto.
Qed.

(** C3. While the default network configuration is uninitialized,
    [SetUpPod] returns a non-nil error and has made no call at all: no
    [GetNetNS] lookup, no [AddNetworkList]; the world is untouched. *)
Theorem SetUpPod_uninitialized_fails_before_any_call
    (ExtractPodBandwidthResources : gmap string string -> option Z * option Z * Go.error)
    (DefaultInterfaceName : string) (strings_ToLower : string -> string)
    (W : Type) (h : handler W) (w : W)
    (plugin : cniNetworkPlugin) (namespace name id : string)
    (annotations : gmap string string) :
  (defaultNetwork plugin = None \/
   exists n p, defaultNetwork plugin = Some n /\
               In p (Plugins (NetworkConfig_ n)) /\
               capability p "ipRanges" = true /\ podCidr plugin = "") ->
  exists e : Go.err,
    run h (SetUpPod ExtractPodBandwidthResources DefaultInterfaceName strings_ToLower
             plugin namespace name id annotations) w
    = (Returns (Some e), w, []).
Proof.
  intros Hun. unfold SetUpPod.
  destruct (checkInitialized_uninitialized plugin Hun) as [-> | ->];
    eexists; reflexivity.
Qed.

Lemma SetUpPod_uninitialized_witness :
  exists e : Go.err,
    run FakeCni.handle
        (FakeCni.SetUpPod
           {| loNetwork := Some FakeCni.lo;
              defaultNetwork := Some (FakeCni.bridge {[ "ipRanges" := true ]});
              podCidr := "" |}
           "default" "web-0" "sandbox-1" ∅) 0
    = (Returns (Some e), 0, []).
Proof.
  apply (SetUpPod_uninitialized_fails_before_any_call
           FakeCni.noBandwidth "eth0" (fun s => s) nat FakeCni.handle 0
           {| loNetwork := Some FakeCni.lo;
              defaultNetwork := Some (FakeCni.bridge {[ "ipRanges" := true ]});
              podCidr := "" |}
           "default" "web-0" "sandbox-1" ∅).
  right. eexists _, _. repeat split.
  - left. reflexivity.
  - reflexivity.
Defined.

(** Once the pod CIDR is set the same plugin goes through: namespace
    lookup, then ADD on the loopback and on the default network. *)
Example SetUpPod_initialized_run :
  let plugin := Cni.Event "pod-cidr-change"
                  {| loNetwork := Some FakeCni.lo;
                     defaultNetwork := Some (FakeCni.bridge {[ "ipRanges" := true ]});
                     podCidr := "" |}
                  "pod-cidr-change" (Some "10.0.0.0/24") in
  let '(r, w, tr) := run FakeCni.handle
                         (FakeCni.SetUpPod plugin "default" "web-0" "sandbox-1" ∅) 0 in
  r = Returns None /\ w = 2 /\
  map (fun ev => match ev_call ev with
                 | GetNetNS _ => "GetNetNS"
                 | GetPodPortMappings _ => "GetPodPortMappings"
                 | AddNetworkList _ c _ => ("ADD " ++ Name c)%string
                 | DelNetworkList _ c _ => ("DEL " ++ Name c)%string
                 end) tr
  = ["GetNetNS"; "GetPodPortMappings"; "ADD cni-loopback";
     "GetPodPortMappings"; "ADD k8s-pod-network"].
Proof. vm_compute. repeat split. Qed.

End CniFacts.

(** ** Unmounting: [UnmountMountPoint] *)

Module UnmountFacts.
Import Prog Node.

#[local] Arguments Go.IsNotExist : simpl never.
#[local] Arguments Util.IsCorruptedMnt : simpl never.

Ltac path_step :=
  match goal with
  | |- forall _ : (bool * Go.error)%type, _ => let x := fresh "x" in intro x
  | |- forall _ : Go.error, _ => let x := fresh "x" in intro x
  | x : (bool * Go.error)%type |- _ => destruct x as [? ?]
  | x : Go.error |- _ => destruct x as [? |]
  | x : bool |- _ => destruct x
  | |- context [Go.IsNotExist ?e] => destruct (Go.IsNotExist e)
  | |- context [Util.IsCorruptedMnt ?e] => destruct (Util.IsCorruptedMnt e)
  end; simpl.

(** After a successful [Unmount], on every path: the path is checked again
    and the result is the check's error, or the result of removing the
    directory when the path is no longer a mount point, or the "failed to
    unmount" error, without removal, when it still is one. *)
Lemma UnmountMountPoint_after_unmount_paths (mountPath : string) (ext : bool) :
  always (fun tr r =>
            forall tr2, after_unmount tr = Some tr2 ->
              (exists notMnt e,
                  tr2 = [Event (IsLikelyNotMountPoint mountPath) (notMnt, Some e)] /\
                  r = Some e) \/
              (exists x,
                  tr2 = [Event (IsLikelyNotMountPoint mountPath) (true, None);
                         Event (Remove mountPath) x] /\
                  r = x) \/
              (tr2 = [Event (IsLikelyNotMountPoint mountPath) (false, None)] /\
               r = Go.Errorf ("failed to unmount path " ++ mountPath)))
         (Util.UnmountMountPoint mountPath ext).
Proof.
  unfold Util.UnmountMountPoint, Util.PathExists, Util.doUnmountMountPoint.
  destruct ext; simpl; repeat path_step.
  all: intros tr2 Htr; cbn in Htr; try discriminate Htr.
  all: injection Htr as <-.
  all: first [ left; eexists _, _; split; reflexivity
             | right; left; eexists; split; reflexivity
             | right; right; split; reflexivity ].
Qed.

(** A mounted directory that cannot be removed: the unmount succeeds, the
    path is no longer a mount point, and the removal's error is returned. *)
Example UnmountMountPoint_on_undeletable :
  run FakeNode.handle (Util.UnmountMountPoint "/pod/vol" false) FakeNode.undeletable
  = (Some (Go.PathError "remove" "/pod/vol" (Go.EOTHER 39)),
     FakeNode.set_mountPoints FakeNode.undeletable [],
     [ Event (Stat "/pod/vol") None;
       Event (IsLikelyNotMountPoint "/pod/vol") (false, None);
       Event (Unmount "/pod/vol") None;
       Event (IsLikelyNotMountPoint "/pod/vol") (true, None);
       Event (Remove "/pod/vol") (Some (Go.PathError "remove" "/pod/vol" (Go.EOTHER 39))) ]).
Proof. reflexivity. Qed.

(** C10 as stated fails in its last part: "after a successful unmount ...
    an error is returned only if the path is still a mount point
    afterwards".  On the node above the check after the unmount reports no
    mount point, the node has no mount point left, and the call still
    returns an error. *)
Lemma UnmountMountPoint_error_without_mount_point :
  ~ (forall (W : Type) (h : handler W) (w w' : W) (mountPath : string)
            (r : Go.error) (tr tr2 : list event),
        run h (Util.UnmountMountPoint mountPath false) w = (r, w', tr) ->
        after_unmount tr = Some tr2 ->
        r <> None ->
        exists ev, head tr2 = Some ev /\ reports_mount_point ev = true).
Proof.
  intros claim.
  destruct (claim _ FakeNode.handle FakeNode.undeletable _ "/pod/vol" _ _ _
              UnmountMountPoint_on_undeletable eq_refl) as (ev & Hhd & Hmp).
  - discriminate.
  - cbn in Hhd. injection Hhd as <-. discriminate Hmp.
Qed.

(** C10, amended.  [UnmountMountPoint]
    - returns [nil], after the one [Stat] call, when the path does not exist;
    - when the path exists and the mount-point check says it is no mount
      point, removes the directory and returns the result of the removal;
    - after a successful [Unmount] checks the path again and returns the
      check's error if it failed, the result of removing the directory if
      the path is no longer a mount point, and a "failed to unmount" error,
      without removing anything, if it still is one. *)
Theorem UnmountMountPoint_contract
    (W : Type) (h : handler W) (w : W) (mountPath : string) :
  (forall ext e w1,
      h (Stat mountPath) w = (Some e, w1) ->
      Go.IsNotExist (Some e) = true ->
      run h (Util.UnmountMountPoint mountPath ext) w
      = (None, w1, [Event (Stat mountPath) (Some e)])) /\
  (forall w1 w2 w3 x,
      h (Stat mountPath) w = (None, w1) ->
      h (IsLikelyNotMountPoint mountPath) w1 = ((true, None), w2) ->
      h (Remove mountPath) w2 = (x, w3) ->
      run h (Util.UnmountMountPoint mountPath false) w
      = (x, w3, [Event (Stat mountPath) None;
                 Event (IsLikelyNotMountPoint mountPath) (true, None);
                 Event (Remove mountPath) x])) /\
  (forall w1 w2 w3 x,
      h (Stat mountPath) w = (None, w1) ->
      h (IsNotMountPoint mountPath) w1 = ((true, None), w2) ->
      h (Remove mountPath) w2 = (x, w3) ->
      run h (Util.UnmountMountPoint mountPath true) w
      = (x, w3, [Event (Stat mountPath) None;
                 Event (IsNotMountPoint mountPath) (true, None);
                 Event (Remove mountPath) x])) /\
  (forall ext r w' tr tr2,
      run h (Util.UnmountMountPoint mountPath ext) w = (r, w', tr) ->
      after_unmount tr = Some tr2 ->
      (exists notMnt e,
          tr2 = [Event (IsLikelyNotMountPoint mountPath) (notMnt, Some e)] /\
          r = Some e) \/
      (exists x,
          tr2 = [Event (IsLikelyNotMountPoint mountPath) (true, None);
                 Event (Remove mountPath) x] /\
          r = x) \/
      (tr2 = [Event (IsLikelyNotMountPoint mountPath) (false, None)] /\
       r = Go.Errorf ("failed to unmount path " ++ mountPath))).
Proof.
  repeat split.
  - intros ext e w1 Hstat Hne.
    unfold Util.UnmountMountPoint, Util.PathExists. simpl.
    rewrite Hstat. simpl. rewrite Hne. reflexivity.
  - intros w1 w2 w3 x Hstat Hchk Hrm.
    unfold Util.UnmountMountPoint, Util.PathExists. simpl.
    rewrite Hstat. simpl. rewrite Hchk. simpl. rewrite Hrm. reflexivity.
  - intros w1 w2 w3 x Hstat Hchk Hrm.
    unfold Util.UnmountMountPoint, Util.PathExists. simpl.
    rewrite Hstat. simpl. rewrite Hchk. simpl. rewrite Hrm. reflexivity.
  - intros ext r w' tr tr2 Hrun Hafter.
    exact (ProgFacts.run_always h _ _ w w' r tr
             (UnmountMountPoint_after_unmount_paths mountPath ext) Hrun tr2 Hafter).
Qed.

(** The contract on three nodes: a missing path, a plain directory, and
    the mounted directory that cannot be removed. *)
Lemma UnmountMountPoint_contract_witness :
  run FakeNode.handle (Util.UnmountMountPoint "/pod/vol" false) FakeNode.failing
  = (None, FakeNode.failing,
     [Event (Stat "/pod/vol") (Some (Go.PathError "stat" "/pod/vol" Go.ENOENT))]) /\
  run FakeNode.handle (Util.UnmountMountPoint "/pod/vol" false) FakeNode.unmounted
  = (None, FakeNode.set_dirs FakeNode.unmounted [],
     [Event (Stat "/pod/vol") None;
      Event (IsLikelyNotMountPoint "/pod/vol") (true, None);
      Event (Remove "/pod/vol") None]) /\
  (exists x : Go.error,
      ([Event (IsLikelyNotMountPoint "/pod/vol") (true, None);
        Event (Remove "/pod/vol") (Some (Go.PathError "remove" "/pod/vol" (Go.EOTHER 39)))]
       : list event)
      = [Event (IsLikelyNotMountPoint "/pod/vol") (true, None);
         Event (Remove "/pod/vol") x] /\
      Some (Go.PathError "remove" "/pod/vol" (Go.EOTHER 39)) = x).
Proof.
  split; [| split].
  - apply (proj1 (UnmountMountPoint_contract _ FakeNode.handle FakeNode.failing "/pod/vol"));
      reflexivity.
  - apply (proj1 (proj2 (UnmountMountPoint_contract _ FakeNode.handle
                           FakeNode.unmounted "/pod/vol"))
             FakeNode.unmounted FakeNode.unmounted); reflexivity.
  - destruct (proj2 (proj2 (proj2 (UnmountMountPoint_contract _ FakeNode.handle
                                     FakeNode.undeletable "/pod/vol")))
                _ _ _ _ _ UnmountMountPoint_on_undeletable eq_refl)
      as [(nm & e & Heq & _) | [Hx | [Heq _]]].
    + apply (f_equal (@length _)) in Heq. discriminate Heq.
    + exact Hx.
    + apply (f_equal (@length _)) in Heq. discriminate Heq.
Defined.

(** [TearDownAt] of both disk plugins is this routine, with the cheap
    mount-point check. *)
Lemma TearDownAt_is_UnmountMountPoint (dir : string) :
  AwsEbs.TearDownAt dir = Util.UnmountMountPoint dir false /\
  GcePd.TearDownAt dir = Util.UnmountMountPoint dir false.
Proof. split; reflexivity. Qed.

End UnmountFacts.

(** ** The Azure disk attacher: [WaitForAttach] *)

Module AzureFacts.
Import Prog AzureDD.

Example WaitForAttach_device_present :
  run FakeAzure.handle
      (FakeAzure.WaitForAttach 100 FakeAzure.disk "3" (10 * Go.Second)%Z)
      (FakeAzure.node 1)
  = (Some ("/dev/disk/azure/scsi1/lun3", None),
     {| FakeAzure.ticksLeft := 9; FakeAzure.scans := 1;
        FakeAzure.appearsAt := 1; FakeAzure.held := [] |},
     [ Event GetDiskController None;
       Event ScsiHostRescan tt;
       Event (PollerStart Go.Second (10 * Go.Second)%Z) tt;
       Event PollerRecv true;
       Event (FindDiskByLun 3) ("/dev/disk/azure/scsi1/lun3", None) ]).
Proof. vm_compute. reflexivity. Qed.

(** C8, the failing input.  The device of LUN 3 shows up at the second
    scan and the caller allows ten seconds.  The poller is started with the
    one-second interval and the caller's timeout, the first scan finds
    nothing, and [WaitForAttach] returns the "failed within timeout" error
    at once: one scan, nine ticks of the timeout unused. *)
Example WaitForAttach_gives_up_after_first_scan :
  run FakeAzure.handle
      (FakeAzure.WaitForAttach 100 FakeAzure.disk "3" (10 * Go.Second)%Z)
      (FakeAzure.node 2)
  = (Some ("", Go.Errorf
       "azureDisk - WaitForAttach failed within timeout node (node-1) diskId:(disk1) lun:(3)"),
     {| FakeAzure.ticksLeft := 9; FakeAzure.scans := 1;
        FakeAzure.appearsAt := 2; FakeAzure.held := [] |},
     [ Event GetDiskController None;
       Event ScsiHostRescan tt;
       Event (PollerStart Go.Second (10 * Go.Second)%Z) tt;
       Event PollerRecv true;
       Event (FindDiskByLun 3) ("", None) ]).
Proof. vm_compute. reflexivity. Qed.

(** The same node under the polling that the spec describes: the second
    scan finds the device and its path is returned. *)
Example polling_as_specified_finds_the_device :
  run FakeAzure.handle
      (Poll 100 (1 * Go.Second)%Z (10 * Go.Second)%Z
            (waitCondition_as_specified "node-1" "disk1" 3) "")
      (FakeAzure.node 2)
  = (("/dev/disk/azure/scsi1/lun3", Some None),
     {| FakeAzure.ticksLeft := 8; FakeAzure.scans := 2;
        FakeAzure.appearsAt := 2; FakeAzure.held := [] |},
     [ Event (PollerStart Go.Second (10 * Go.Second)%Z) tt;
       Event PollerRecv true;
       Event (FindDiskByLun 3) ("", None);
       Event PollerRecv true;
       Event (FindDiskByLun 3) ("/dev/disk/azure/scsi1/lun3", None) ]).
Proof. vm_compute. reflexivity. Qed.

Section Attacher.
Variable Spec : Type.
Variable getVolumeSource : Spec -> Go.err + AzureDiskVolumeSource.
Variable getDiskLUN : string -> Z * Go.error.
Variable GOOS : string.
Variable hostName : string.

Ltac path_step :=
  match goal with
  | |- forall _ : (string * Go.error)%type, _ => let x := fresh "x" in intro x
  | |- forall _ : (Z * Go.error)%type, _ => let x := fresh "x" in intro x
  | |- forall _ : Go.error, _ => let x := fresh "x" in intro x
  | |- forall _ : unit, _ => let x := fresh "x" in intro x
  | |- forall _ : bool, _ => let x := fresh "x" in intro x
  | x : (string * Go.error)%type |- _ => destruct x as [? ?]
  | x : (Z * Go.error)%type |- _ => destruct x as [? ?]
  | x : Go.error |- _ => destruct x as [? |]
  | x : unit |- _ => destruct x
  | |- context [getVolumeSource ?s] => destruct (getVolumeSource s)
  | |- context [getDiskLUN ?d] => destruct (getDiskLUN d) as [? [? |]]
  | |- context [String.eqb ?a ?b] => destruct (String.eqb_spec a b)
  end; simpl.

(** Whatever the node answers, and however long the timeout: with fuel for
    one round of polling [WaitForAttach] returns, it has scanned for the
    device at most once and received from the poller at most once, and a
    scan that finds nothing ends the call with an error. *)
Lemma WaitForAttach_paths (fuel : nat) (spec : Spec) (devicePath : string)
    (timeout : Go.Duration) :
  always (fun tr r =>
            (exists path err, r = Some (path, err)) /\
            length (scans_of tr) <= 1 /\
            length (List.filter is_PollerRecv tr) <= 1 /\
            (In ("", None) (scans_of tr) -> exists e, r = Some ("", Some e)))
         (WaitForAttach Spec getVolumeSource getDiskLUN GOOS hostName
            (S fuel) spec devicePath timeout).
Proof.
  unfold WaitForAttach, Poll, waitCondition.
  simpl; repeat path_step.
  all: split; [eauto |]; split; [cbn; lia |]; split; [cbn; lia |].
  all: cbn; intros H; repeat (destruct H as [H | H]); try contradiction.
  all: try discriminate H.
  all: injection H as Hs; subst.
  all: first [ contradiction | congruence | eexists; reflexivity ].
Qed.

(** The same for every run against a handler. *)
Lemma WaitForAttach_scans_once (W : Type) (h : handler W) (w w' : W)
    (fuel : nat) (spec : Spec) (devicePath : string) (timeout : Go.Duration)
    (r : option (string * Go.error)) (tr : list event) :
  run h (WaitForAttach Spec getVolumeSource getDiskLUN GOOS hostName
           (S fuel) spec devicePath timeout) w = (r, w', tr) ->
  (exists path err, r = Some (path, err)) /\
  length (scans_of tr) <= 1 /\
  length (List.filter is_PollerRecv tr) <= 1 /\
  (In ("", None) (scans_of tr) -> exists e, r = Some ("", Some e)).
Proof.
  intros Hrun.
  exact (ProgFacts.run_always h _ _ w w' r tr
           (WaitForAttach_paths fuel spec devicePath timeout) Hrun).
Qed.

End Attacher.

End AzureFacts.

(** ** The Azure disk attacher: one operation per instance at a time *)

Module AzureConcFacts.
Import Prog AzureDD AzureConc.

Section Operations.
Variable Spec : Type.
Variable getVolumeSource : Spec -> Go.err + AzureDiskVolumeSource.
Variable slot : string -> nat.

Ltac discipline_step :=
  match goal with
  | |- _ /\ _ => split
  | |- True => exact I
  | |- @eq (list string) _ _ => reflexivity
  | |- @eq (option string) _ _ => reflexivity
  | |- exists _, _ => eexists
  | |- forall _ : (string * Go.error)%type, _ => let x := fresh "x" in intro x
  | |- forall _ : (Z * Go.error)%type, _ => let x := fresh "x" in intro x
  | |- forall _ : Go.error, _ => let x := fresh "x" in intro x
  | |- forall _ : unit, _ => let x := fresh "x" in intro x
  | x : (string * Go.error)%type |- _ => destruct x as [? ?]
  | x : (Z * Go.error)%type |- _ => destruct x as [? ?]
  | x : Go.error |- _ => destruct x as [? |]
  | x : unit |- _ => destruct x
  | |- context [getVolumeSource ?s] => destruct (getVolumeSource s)
  | |- context [Kind ?v] => destruct (Kind v)
  | |- context [CachingMode ?v] => destruct (CachingMode v)
  | |- context [String.eqb ?a ?a] => rewrite (String.eqb_refl a)
  | |- context [String.eqb ?a ?b] => destruct (String.eqb a b)
  end; simpl.

(** [Attach] and [Detach] keep the lock discipline on every path. *)
Lemma program_disciplined (o : operation Spec) :
  disciplined None [] (program Spec getVolumeSource o).
Proof.
  destruct o as [spec nodeName | diskURI nodeName];
    unfold program, Attach, Detach; simpl; repeat discipline_step.
Qed.

Lemma start_invariant (ops : list (operation Spec)) :
  invariant slot (start Spec getVolumeSource ops).
Proof.
  split.
  - intros i t Hi. unfold start in Hi. simpl in Hi.
    rewrite list_lookup_fmap in Hi.
    destruct (ops !! i) as [o |]; simpl in Hi; [| discriminate].
    injection Hi as <-. simpl. apply program_disciplined.
  - intros i t id Hi Hin. unfold start in Hi. simpl in Hi.
    rewrite list_lookup_fmap in Hi.
    destruct (ops !! i) as [o |]; simpl in Hi; [| discriminate].
    injection Hi as <-. destruct Hin.
Qed.

Lemma step_invariant (P Q : pool) :
  step slot P Q -> invariant slot P -> invariant slot Q.
Proof.
  intros Hstep [Hdisc Hlock].
  destruct Hstep as [P i t c k x Hi Hprog Hen].
  pose proof (Hdisc i t Hi) as Hd. rewrite Hprog in Hd. simpl in Hd.
  destruct Hd as [Hguard Hnext].
  assert (Hlen : i < length (threads P)) by (eapply lookup_lt_Some; eassumption).
  split; simpl.
  - intros j tj Hj.
    destruct (decide (i = j)) as [<- | Hne].
    + rewrite list_lookup_insert_eq in Hj by exact Hlen.
      injection Hj as <-. simpl. apply Hnext.
    + rewrite list_lookup_insert_ne in Hj by exact Hne. exact (Hdisc j tj Hj).
  - intros j tj id Hj Hin.
    destruct (decide (i = j)) as [<- | Hne].
    + rewrite list_lookup_insert_eq in Hj by exact Hlen.
      injection Hj as <-. simpl in Hin.
      destruct c; simpl in *;
        try (exact (Hlock i t id Hi Hin)).
      * destruct Hguard as [Hheld _]. rewrite Hheld in Hin.
        destruct Hin as [<- | []]. apply lookup_insert_eq.
      * rewrite Hguard in Hin. simpl in Hin. rewrite String.eqb_refl in Hin.
        destruct Hin.
    + rewrite list_lookup_insert_ne in Hj by exact Hne.
      pose proof (Hlock j tj id Hj Hin) as Hj_owner.
      destruct c; simpl in *; try exact Hj_owner.
      * rewrite lookup_insert_ne; [exact Hj_owner |].
        intros Heq. rewrite Heq in Hen. congruence.
      * rewrite lookup_delete_ne; [exact Hj_owner |].
        intros Heq.
        assert (Hi_owner : locked P !! slot id0 = Some i).
        { apply (Hlock i t id0 Hi). rewrite Hguard. now left. }
        rewrite Heq in Hi_owner. congruence.
Qed.

Lemma reachable_invariant (ops : list (operation Spec)) (P : pool) :
  reachable slot (start Spec getVolumeSource ops) P -> invariant slot P.
Proof.
  induction 1 as [| P Q _ IH Hstep].
  - apply start_invariant.
  - exact (step_invariant P Q Hstep IH).
Qed.

Lemma fire_reachable (answer : forall c : call, resp c) (P0 P : pool) (i : nat) :
  reachable slot P0 P -> reachable slot P0 (fire slot answer P i).
Proof.
  intros Hreach. unfold fire.
  destruct (threads P !! i) as [t |] eqn:Hi; [| exact Hreach].
  destruct (t_prog t) as [r | c k] eqn:Hprog; [exact Hreach |].
  destruct (enabledb slot (locked P) c) eqn:Hen; [| exact Hreach].
  eapply reach_step; [exact Hreach |].
  apply (step_call slot P i t c k (answer c) Hi Hprog).
  destruct c; simpl in *; try exact I.
  destruct (locked P !! slot id); [discriminate Hen | reflexivity].
Qed.

Lemma run_schedule_reachable (answer : forall c : call, resp c)
    (schedule : list nat) (P0 : pool) :
  reachable slot P0 (run_schedule slot answer schedule P0).
Proof.
  unfold run_schedule.
  assert (H : forall P, reachable slot P0 P ->
                        reachable slot P0 (fold_left (fire slot answer) schedule P)).
  { induction schedule as [| i rest IH]; intros P HP; simpl; [exact HP |].
    apply IH. apply fire_reachable. exact HP. }
  apply H. apply reach_start.
Qed.

End Operations.

(** C9. In every pool reachable from attach and detach operations started
    together: no key of [getLunMutex] is held by two operations; an
    operation about to call [GetNextDiskLun], [AttachDisk] or
    [DetachDiskByName] holds exactly the key of the instance id it resolved;
    so two operations that resolved the same instance id are never both at
    such a call. *)
Theorem attach_detach_serialized_per_instance
    (Spec : Type) (getVolumeSource : Spec -> Go.err + AzureDiskVolumeSource)
    (slot : string -> nat) (ops : list (operation Spec)) (P : pool)
    (i j : nat) (ti tj : thread) :
  reachable slot (start Spec getVolumeSource ops) P ->
  threads P !! i = Some ti ->
  threads P !! j = Some tj ->
  (forall id, In id (t_held ti) -> In id (t_held tj) -> i = j) /\
  (forall c, next_call ti = Some c -> critical c = true ->
             exists id, t_inst ti = Some id /\ t_held ti = [id]) /\
  (forall ci cj, next_call ti = Some ci -> critical ci = true ->
                 next_call tj = Some cj -> critical cj = true ->
                 t_inst ti = t_inst tj -> i = j).
Proof.
  intros Hreach Hi Hj.
  destruct (reachable_invariant Spec getVolumeSource slot ops P Hreach) as [Hdisc Hlock].
  assert (Hmutex : forall id, In id (t_held ti) -> In id (t_held tj) -> i = j).
  { intros id Hini Hinj.
    pose proof (Hlock i ti id Hi Hini) as H1.
    pose proof (Hlock j tj id Hj Hinj) as H2. congruence. }
  assert (Hsection : forall k t c, threads P !! k = Some t ->
             next_call t = Some c -> critical c = true ->
             exists id, t_inst t = Some id /\ t_held t = [id]).
  { intros k t c Hk Hnext Hcrit.
    pose proof (Hdisc k t Hk) as Hd. unfold next_call in Hnext.
    destruct (t_prog t) as [r | c' k']; [discriminate |].
    injection Hnext as ->. simpl in Hd. destruct Hd as [Hguard _].
    destruct c; simpl in Hcrit; try discriminate Hcrit; simpl in Hguard;
      destruct Hguard as (id & Hheld & Hinst); eauto. }
  split; [exact Hmutex |]. split.
  - intros c. apply (Hsection i ti c Hi).
  - intros ci cj Hni Hci Hnj Hcj Hsame.
    destruct (Hsection i ti ci Hi Hni Hci) as (id & Hinst_i & Hheld_i).
    destruct (Hsection j tj cj Hj Hnj Hcj) as (id' & Hinst_j & Hheld_j).
    assert (id = id') by congruence. subst id'.
    apply (Hmutex id); [rewrite Hheld_i | rewrite Hheld_j]; now left.
Qed.

(** Two attaches to the same node: the first has taken the lock and is
    about to allocate a LUN, the second has resolved the same instance id
    and waits at [LockKey], which is not enabled. *)
Lemma attach_detach_serialized_witness :
  let P := run_schedule slot4 answers [0; 0; 0; 1; 0; 1; 1; 1; 1] twoAttaches in
  exists t0 t1 : thread,
    threads P !! 0 = Some t0 /\ threads P !! 1 = Some t1 /\
    next_call t0 = Some (GetNextDiskLun "node-1") /\
    t_held t0 = ["vm-node-1"] /\
    next_call t1 = Some (LockKey "vm-node-1") /\
    t_held t1 = [] /\
    (forall id, In id (t_held t0) -> In id (t_held t1) -> 0 = 1).
Proof.
  intros P.
  assert (Hreach : reachable slot4 twoAttaches P)
    by exact (run_schedule_reachable slot4 answers [0; 0; 0; 1; 0; 1; 1; 1; 1] twoAttaches).
  assert (H0 : exists t0, threads P !! 0 = Some t0 /\
                          next_call t0 = Some (GetNextDiskLun "node-1") /\
                          t_held t0 = ["vm-node-1"]).
  { vm_compute. eexists. split; [reflexivity |]. split; reflexivity. }
  assert (H1 : exists t1, threads P !! 1 = Some t1 /\
                          next_call t1 = Some (LockKey "vm-node-1") /\
                          t_held t1 = []).
  { vm_compute. eexists. split; [reflexivity |]. split; reflexivity. }
  destruct H0 as (t0 & H0 & Hnext0 & Hheld0).
  destruct H1 as (t1 & H1 & Hnext1 & Hheld1).
  exists t0, t1.
  split; [exact H0 |]. split; [exact H1 |].
  split; [exact Hnext0 |]. split; [exact Hheld0 |].
  split; [exact Hnext1 |]. split; [exact Hheld1 |].
  exact (proj1 (attach_detach_serialized_per_instance
                  (option AzureDiskVolumeSource) FakeAzure.getVolumeSource slot4
                  [OpAttach _ FakeAzure.disk "node-1"; OpAttach _ FakeAzure.disk "node-1"]
                  P 0 1 t0 t1 Hreach H0 H1)).
Defined.

End AzureConcFacts.

(** ** The service cache *)

Module ServiceCacheFacts.
Import ServiceCache.

(** [TestServiceCache], step by step on one cache. *)
Example TestServiceCache :
  let '(cS, sc) := getOrCreate "addTest" empty in
  let sc := assign_state cS (Some defaultExternalService) sc in
  len sc = 1 /\
  let sc := delete "addTest" sc in
  len sc = 0 /\
  let '(p, sc) := new {| state := Some defaultExternalService |} sc in
  let sc := set "addTest" p sc in
  get "addTest" sc = (Some p, true) /\
  let '(p1, sc) := new {| state := Some defaultExternalService |} sc in
  let sc := set "addTest1" p1 sc in
  length (ListKeys sc) = 2 /\
  GetByKey "addTest" sc = (Some p, true, None) /\
  length (allServices sc) = 2 /\
  allServices sc = [Some defaultExternalService; Some defaultExternalService].
Proof. vm_compute. repeat split. Qed.

Lemma get_present (s : serviceCache) (k : string) :
  (get k s).2 = true <-> is_Some (serviceMap s !! k).
Proof.
  unfold get. destruct (serviceMap s !! k) as [p |]; simpl; split; intros H.
  - by exists p.
  - done.
  - discriminate H.
  - by destruct H.
Qed.

Lemma ListKeys_spec (s : serviceCache) (k : string) :
  k ∈ ListKeys s <-> (get k s).2 = true.
Proof.
  rewrite get_present. unfold ListKeys. rewrite list_elem_of_fmap. split.
  - intros ([k' p] & -> & Hin). apply elem_of_map_to_list in Hin. by eexists.
  - intros [p Hp]. exists (k, p). split; [done |]. by apply elem_of_map_to_list.
Qed.

(** A pointer handed out by [getOrCreate] stays the entry of its key, so a
    later assignment through it is what [get] and [allServices] see. *)
Lemma getOrCreate_then_assign (s : serviceCache) (k : string) (svc : Service) :
  let '(p, s1) := getOrCreate k s in
  let s2 := assign_state p (Some svc) s1 in
  get k s2 = (Some p, true) /\ state_of s2 p = Some svc /\ Some svc ∈ allServices s2.
Proof.
  unfold getOrCreate.
  destruct (serviceMap s !! k) as [p |] eqn:Hk; simpl.
  - unfold get, state_of, allServices; simpl. rewrite Hk, lookup_insert_eq.
    repeat split; try done.
    apply list_elem_of_fmap. exists p. unfold state_of; simpl.
    rewrite lookup_insert_eq. split; [done |].
    apply list_elem_of_fmap. exists (k, p). split; [done |].
    by apply elem_of_map_to_list.
  - set (p := fresh (dom (heap s))).
    unfold get, state_of, allServices; simpl. rewrite !lookup_insert_eq.
    repeat split; try done.
    apply list_elem_of_fmap. exists p. unfold state_of; simpl.
    rewrite lookup_insert_eq. split; [done |].
    apply list_elem_of_fmap. exists (k, p). split; [done |].
    apply elem_of_map_to_list. apply lookup_insert_eq.
Qed.

(** C7. For every cache [s], key [k] and pointer [p]:
    after [getOrCreate k] and after [set k p] the entry is present and
    [get k] returns it with [true]; after [delete k] it is absent; none of
    the three touches another key; [ListKeys] has no duplicate, holds exactly
    the keys that [get] finds and has one key per stored entry; and
    [allServices] is, up to order, the [state] of each stored entry, one per
    entry. *)
Theorem serviceCache_operations_consistent (s : serviceCache) (k : string) (p : ptr) :
  get k (getOrCreate k s).2 = (Some (getOrCreate k s).1, true) /\
  get k (set k p s) = (Some p, true) /\
  get k (delete k s) = (None, false) /\
  (forall k', k' <> k ->
      get k' (getOrCreate k s).2 = get k' s /\
      get k' (set k p s) = get k' s /\
      get k' (delete k s) = get k' s) /\
  NoDup (ListKeys s) /\
  (forall k', k' ∈ ListKeys s <-> (get k' s).2 = true) /\
  length (ListKeys s) = len s /\
  length (allServices s) = len s /\
  allServices s ≡ₚ (fun kv => state_of s kv.2) <$> map_to_list (serviceMap s).
Proof.
  split_and!.
  - unfold getOrCreate, get.
    destruct (serviceMap s !! k) as [q |] eqn:Hk; simpl.
    + by rewrite Hk.
    + by rewrite lookup_insert_eq.
  - unfold set, get; simpl. by rewrite lookup_insert_eq.
  - unfold delete, get; simpl. by rewrite lookup_delete_eq.
  - intros k' Hne. split_and!.
    + unfold getOrCreate, get.
      destruct (serviceMap s !! k) as [q |] eqn:Hk; simpl; [done |].
      by rewrite lookup_insert_ne.
    + unfold set, get; simpl. by rewrite lookup_insert_ne.
    + unfold delete, get; simpl. by rewrite lookup_delete_ne.
  - apply NoDup_fst_map_to_list.
  - apply ListKeys_spec.
  - unfold ListKeys, len. by rewrite length_fmap, length_map_to_list.
  - unfold allServices, len. by rewrite !length_fmap, length_map_to_list.
  - unfold allServices. by rewrite <- list_fmap_compose.
Qed.

End ServiceCacheFacts.

(** ** [kubectl cordon], [uncordon] and [drain] *)

Module DrainFacts.
Import Prog Drain FakeApi.

(** The model passes every row of the two test tables, with deletion and
    with eviction. *)
Example model_passes_TestCordon : forallb cordonTest_passes cordonTests = true.
Proof. vm_compute. reflexivity. Qed.

Example model_passes_TestDrain :
  forallb (drainTest_passes true) drainTests = true /\
  forallb (drainTest_passes false) drainTests = true.
Proof. split; vm_compute; reflexivity. Qed.

(** C5. On a server that has the node: the command succeeds; afterwards
    the node's [Spec.Unschedulable] is the desired value ([true] for cordon,
    [false] for uncordon) and every other field of the node is as before;
    no other node is touched; and when the node already is as desired,
    no patch is sent and the server is left exactly as it was. *)
Theorem cordon_uncordon_patch_only_unschedulable
    (s : server) (name : string) (n : Node) (desired : bool) :
  nodes s !! name = Some n ->
  exists (s' : server) (tr : list event) (n' : Node),
    run handle (RunCordonOrUncordon desired name) s = (Done, s', tr) /\
    nodes s' !! name = Some n' /\
    Unschedulable (Spec n') = desired /\
    PodCIDR (Spec n') = PodCIDR (Spec n) /\
    ProviderID (Spec n') = ProviderID (Spec n) /\
    Taints (Spec n') = Taints (Spec n) /\
    NodeName n' = NodeName n /\ Labels n' = Labels n /\
    (forall other, other <> name -> nodes s' !! other = nodes s !! other) /\
    (Unschedulable (Spec n) = desired ->
     s' = s /\ n' = n /\ tr = [Event (GetNode name) (inr n)]).
Proof.
  intros Hn. unfold RunCordonOrUncordon. simpl. rewrite Hn. simpl.
  destruct (Bool.eqb (Unschedulable (Spec n)) desired) eqn:Heq; simpl.
  - apply Bool.eqb_prop in Heq.
    exists s, [Event (GetNode name) (inr n)], n. split_and!; auto.
  - eexists _, _, (apply_patch {| patch_unschedulable := desired |} n).
    split_and!; try reflexivity.
    + simpl. rewrite lookup_alter_eq, Hn. reflexivity.
    + intros other Hne. simpl. by rewrite lookup_alter_ne.
    + intros Hsame. rewrite Hsame, Bool.eqb_reflx in Heq. discriminate Heq.
Qed.

Lemma cordon_uncordon_witness :
  exists (s' : server) (tr : list event) (n' : Node),
    run handle (RunCordonOrUncordon true "node") (serving node [rc_pod] false)
    = (Done, s', tr) /\
    nodes s' !! "node" = Some n' /\
    Unschedulable (Spec n') = true /\
    PodCIDR (Spec n') = PodCIDR (Spec node) /\
    ProviderID (Spec n') = ProviderID (Spec node) /\
    Taints (Spec n') = Taints (Spec node) /\
    NodeName n' = NodeName node /\ Labels n' = Labels node /\
    (forall other, other <> "node" ->
        nodes s' !! other = nodes (serving node [rc_pod] false) !! other) /\
    (Unschedulable (Spec node) = true ->
     s' = serving node [rc_pod] false /\ n' = node /\
     tr = [Event (GetNode "node") (inr node)]).
Proof.
  apply (cordon_uncordon_patch_only_unschedulable
           (serving node [rc_pod] false) "node" node true).
  reflexivity.
Defined.




Lemma existsb_eqb_In (x : string) (l : list string) :
  In x l -> existsb (String.eqb x) l = true.
Proof.
  intros Hin. apply existsb_exists. exists x. split; [exact Hin | apply String.eqb_refl].
Qed.

(** The rows of [TestDrain] have one pod each.  On a server that has the
    node, with one running pod on it that has no [emptyDir] volume and is no
    mirror pod, and nothing deleted before:
    - a pod with a controller other than a DaemonSet (a
      ReplicationController, say) does not block the drain and is deleted or
      evicted;
    - a pod of an existing DaemonSet blocks the drain unless
      [--ignore-daemonsets] is given, and then it is skipped with a warning
      and not deleted;
    - a pod without controller blocks the drain unless [--force] is given,
      and then it is deleted or evicted and the drain succeeds. *)
Lemma drain_single_pod
    (o : DrainOptions) (s : server) (n : Node) (p : Pod) :
  nodes s !! "node" = Some n ->
  pods s = [p] ->
  finished p = false -> HasEmptyDir p = false -> IsMirror p = false ->
  deleted s = [] -> evicted s = [] ->
  (forall ref, ControllerRef p = Some ref -> Kind ref = "DaemonSet" ->
               In (OwnerName ref) (daemonsets s)) ->
  let '(r, s', _) := run handle (RunDrain o "node") s in
  let removed := deleted s' ++ evicted s' in
  match ControllerRef p with
  | None =>
      if Force o then r = Done /\ removed = [PodName p]
      else is_Fatal r = true /\ removed = []
  | Some ref =>
      if String.eqb (Kind ref) "DaemonSet"
      then if IgnoreDaemonsets o
           then r = Done /\ removed = [] /\
                In ("WARNING: " ++ kDaemonsetWarning ++ ": " ++ PodName p)%string (stderr s')
           else is_Fatal r = true /\ removed = []
      else r = Done /\ removed = [PodName p]
  end.
Proof.
  intros Hn Hpods Hfin Hdir Hmirror Hdel Hev Hds.
  destruct p as [pname pns ref phase emptyDir mirror]. simpl in *. subst emptyDir mirror.
  unfold finished in Hfin. simpl in Hfin.
  unfold RunDrain, RunCordonOrUncordon, getPodsForDeletion.
  simpl. rewrite Hn. simpl.
  destruct phase; try discriminate Hfin.
  all: destruct (Bool.eqb (Unschedulable (Spec n)) true); simpl; rewrite Hpods; simpl.
  all: unfold examine, daemonsetFilter, mirrorPodFilter, localStorageFilter,
         unreplicatedFilter, finished; simpl.
  all: destruct ref as [[kind owner] |]; simpl.
  all: try (destruct (String.eqb_spec kind "DaemonSet") as [Hkind | Hkind]; simpl).
  all: try (rewrite (existsb_eqb_In owner _ (Hds _ eq_refl Hkind)); simpl).
  all: try (destruct (IgnoreDaemonsets o); simpl).
  all: try (destruct (Force o); simpl).
  all: try (destruct (eviction s); simpl).
  all: rewrite ?Hdel, ?Hev; simpl.
  all: repeat split; try reflexivity.
  all: try (apply in_or_app; right; left; reflexivity).
Qed.

(** The rows "RC-managed pod" and "naked pod with --force" of [TestDrain],
    through the lemma. *)
Lemma drain_single_pod_rows :
  (let '(r, s', _) :=
     run handle (RunDrain (flags false false false) "node") (serving node [rc_pod] true) in
   r = Done /\ deleted s' ++ evicted s' = ["bar"]) /\
  (let '(r, s', _) :=
     run handle (RunDrain (flags true false false) "node") (serving node [naked_pod] false) in
   r = Done /\ deleted s' ++ evicted s' = ["bar"]).
Proof.
  split.
  - refine (drain_single_pod (flags false false false) (serving node [rc_pod] true)
             node rc_pod eq_refl eq_refl eq_refl eq_refl eq_refl eq_refl eq_refl _).
    intros ref Href Hkind. injection Href as <-. discriminate Hkind.
  - refine (drain_single_pod (flags true false false) (serving node [naked_pod] false)
             node naked_pod eq_refl eq_refl eq_refl eq_refl eq_refl eq_refl eq_refl _).
    intros ref Href. discriminate Href.
Qed.

(** *** Any number of pods *)

Import DrainPods.






















(** Several pods on the node: without [--force] the naked pod blocks the
    drain of the others; with [--force] and [--ignore-daemonsets] all but
    the DaemonSet pod go. *)
Example drain_of_several_pods :
  let run_drain o ps := run handle (RunDrain o "node") (serving node ps false) in
  (run_drain (flags false false false) [rc_pod; naked_pod]).1.1
  = Fatal (kUnmanagedFatal ++ ": bar") /\
  deleted (run_drain (flags false false false) [rc_pod; naked_pod]).1.2 = [] /\
  (run_drain (flags true true false) [rc_pod; ds_pod; naked_pod]).1.1 = Done /\
  deleted (run_drain (flags true true false) [rc_pod; ds_pod; naked_pod]).1.2
  = ["bar"; "bar"].
Proof. vm_compute. repeat split. Qed.

End DrainFacts.
(** ** Strings and string sets *)

Module StringSetFacts.
Import StringSet.

Lemma ascii_compare_refl (c : ascii) : Ascii.compare c c = Eq.
Proof. unfold Ascii.compare. apply N.compare_refl. Qed.

Lemma ascii_compare_eq (a b : ascii) : Ascii.compare a b = Eq -> a = b.
Proof.
  unfold Ascii.compare. intros H. apply N.compare_eq in H.
  rewrite <- (ascii_N_embedding a), <- (ascii_N_embedding b). now rewrite H.
Qed.

Lemma ascii_compare_lt_trans (a b c : ascii) :
  Ascii.compare a b = Lt -> Ascii.compare b c = Lt -> Ascii.compare a c = Lt.
Proof.
  unfold Ascii.compare. rewrite !N.compare_lt_iff. lia.
Qed.

Lemma compare_refl (s : string) : String.compare s s = Eq.
Proof.
  induction s as [| c s IH]; simpl; [reflexivity |].
  now rewrite ascii_compare_refl.
Qed.

Lemma lt_irrefl (s : string) : ~ lt s s.
Proof. unfold lt. rewrite compare_refl. discriminate. Qed.

Lemma lt_trans (a b c : string) : lt a b -> lt b c -> lt a c.
Proof.
  unfold lt. revert b c.
  induction a as [| x a IH]; intros [| y b] [| z c]; simpl; try discriminate; auto.
  destruct (Ascii.compare x y) eqn:Hxy; try discriminate.
  - apply ascii_compare_eq in Hxy. subst y.
    destruct (Ascii.compare x z) eqn:Hxz; try discriminate; auto.
    intros; eapply IH; eauto.
  - intros _. destruct (Ascii.compare y z) eqn:Hyz; try discriminate.
    + apply ascii_compare_eq in Hyz. subst z. now rewrite Hxy.
    + intros _. now rewrite (ascii_compare_lt_trans _ _ _ Hxy Hyz).
Qed.

Lemma compare_Gt_lt (a b : string) : String.compare a b = Gt -> lt b a.
Proof.
  unfold lt. intros H. rewrite String.compare_antisym, H. reflexivity.
Qed.

Lemma sorted_NoDup (s : list string) : sorted s -> List.NoDup s.
Proof.
  induction 1 as [| x s Hs IH Hx]; constructor; auto.
  intros Hin. rewrite List.Forall_forall in Hx. exact (lt_irrefl x (Hx x Hin)).
Qed.

Lemma In_Insert (x y : string) (s : list string) :
  In x (Insert y s) <-> x = y \/ In x s.
Proof.
  unfold Insert. induction s as [| z s IH]; simpl.
  - intuition.
  - destruct (String.compare y z) eqn:Hc; simpl.
    + apply String.compare_eq_iff in Hc. subst z. intuition.
    + intuition.
    + rewrite IH. intuition.
Qed.

Lemma Insert_sorted (y : string) (s : list string) : sorted s -> sorted (Insert y s).
Proof.
  unfold Insert, sorted. induction 1 as [| z s Hs IH Hz]; simpl.
  - repeat constructor.
  - destruct (String.compare y z) eqn:Hc.
    + now constructor.
    + constructor; [now constructor |].
      constructor; [exact Hc |].
      eapply List.Forall_impl; [| exact Hz]. intros a Ha. exact (lt_trans _ _ _ Hc Ha).
    + constructor; [exact IH |].
      rewrite List.Forall_forall. intros a Ha. apply In_Insert in Ha as [-> | Ha].
      * now apply compare_Gt_lt.
      * rewrite List.Forall_forall in Hz. now apply Hz.
Qed.

Lemma fold_Insert_In (f : string -> bool) (l s : list string) (x : string) :
  In x (fold_left (fun s y => if f y then GoStrings.Insert y s else s) l s)
  <-> (In x l /\ f x = true) \/ In x s.
Proof.
  revert s. induction l as [| y l IH]; intros s; simpl.
  - intuition.
  - rewrite IH. destruct (f y) eqn:Hf.
    + rewrite (In_Insert x y s). intuition; subst; auto.
    + intuition; subst; congruence.
Qed.

Lemma fold_Insert_sorted (f : string -> bool) (l s : list string) :
  sorted s -> sorted (fold_left (fun s y => if f y then GoStrings.Insert y s else s) l s).
Proof.
  revert s. induction l as [| y l IH]; intros s Hs; simpl; [exact Hs |].
  apply IH. destruct (f y); [now apply Insert_sorted | exact Hs].
Qed.

Lemma NewString_In (l : list string) (x : string) : In x (NewString l) <-> In x l.
Proof.
  unfold NewString.
  rewrite (fold_Insert_In (fun _ => true) l [] x). simpl. intuition.
Qed.

Lemma NewString_sorted (l : list string) : sorted (NewString l).
Proof.
  unfold NewString. apply (fold_Insert_sorted (fun _ => true)). constructor.
Qed.

Lemma Has_In (s : list string) (x : string) : Has s x = true <-> In x s.
Proof.
  unfold Has. rewrite existsb_exists. split.
  - intros (y & Hy & He). apply String.eqb_eq in He. now subst.
  - intros H. exists x. split; [exact H | apply String.eqb_refl].
Qed.

Lemma In_Delete (s : list string) (x y : string) :
  In y (Delete s x) <-> In y s /\ y <> x.
Proof.
  unfold Delete. rewrite List.filter_In, negb_true_iff, String.eqb_neq. intuition.
Qed.

Lemma Delete_sorted (s : list string) (x : string) : sorted s -> sorted (Delete s x).
Proof.
  unfold Delete, sorted. induction 1 as [| z s Hs IH Hz]; simpl; [constructor |].
  destruct (negb (String.eqb x z)); [| exact IH].
  constructor; [exact IH |].
  rewrite List.Forall_forall in *. intros a Ha. apply List.filter_In in Ha as [Ha _]. auto.
Qed.

Lemma Delete_length (s : list string) (x : string) :
  sorted s -> In x s -> S (length (Delete s x)) = length s.
Proof.
  unfold Delete, sorted. induction 1 as [| z s Hs IH Hz]; simpl; [tauto |].
  intros [-> | Hin].
  - rewrite String.eqb_refl. simpl. f_equal.
    clear IH. induction s as [| a s IHs]; simpl; [reflexivity |].
    inversion Hz as [| ? ? Ha Hz']; subst. inversion Hs; subst.
    destruct (String.eqb_spec x a) as [-> | Hne]; [exfalso; exact (lt_irrefl a Ha) |].
    simpl. f_equal. auto.
  - destruct (String.eqb_spec x z) as [-> | Hne]; simpl.
    + exfalso. rewrite List.Forall_forall in Hz. exact (lt_irrefl z (Hz z Hin)).
    + f_equal. auto.
Qed.

End StringSetFacts.
(** ** Package [volume/util]: sizes *)

Module IntFacts.
Import GoInt.

Lemma int64_small (x : Z) : is_int64 x -> int64 x = x.
Proof.
  unfold is_int64, int64, wrap. change (64 - 1)%Z with 63%Z.
  change (2 ^ 63)%Z with 9223372036854775808%Z.
  change (2 ^ 64)%Z with 18446744073709551616%Z.
  intros H. rewrite Z.mod_small; lia.
Qed.

Lemma int64_range (x : Z) : is_int64 (int64 x).
Proof.
  unfold is_int64, int64, wrap. change (64 - 1)%Z with 63%Z.
  change (2 ^ 63)%Z with 9223372036854775808%Z.
  change (2 ^ 64)%Z with 18446744073709551616%Z.
  pose proof (Z.mod_pos_bound (x + 9223372036854775808) 18446744073709551616). lia.
Qed.

Lemma uint32_range (x : Z) : is_uint32 (uint32 x).
Proof. unfold is_uint32, uint32. apply Z.mod_pos_bound. reflexivity. Qed.

Lemma uint32_small (x : Z) : is_uint32 x -> uint32 x = x.
Proof. unfold is_uint32, uint32. intros H. now apply Z.mod_small. Qed.

Lemma len_nonneg (s : string) : (0 <= len s)%Z.
Proof. unfold len. lia. Qed.

Lemma len_append (a b : string) : len (a ++ b) = (len a + len b)%Z.
Proof.
  unfold len. induction a as [| c a IH]; [reflexivity |]. simpl. lia.
Qed.

End IntFacts.

Module SizeFacts.
Import Go (outcome, Returns, Panics).
Import GoInt VolumeUtil IntFacts.

Lemma RoundUpSize_quot (size unit : Z) :
  is_int64 size -> (0 < unit)%Z ->
  RoundUpSize size unit
  = Returns (if (0 <? Z.rem size unit)%Z then Z.quot size unit + 1 else Z.quot size unit)%Z.
Proof.
  intros Hs Hu. unfold RoundUpSize.
  destruct (Z.eqb_spec unit 0) as [-> | _]; [lia |].
  assert (Hq : is_int64 (Z.quot size unit)).
  { unfold is_int64 in *. change (2 ^ 63)%Z with 9223372036854775808%Z in *.
    Z.to_euclidean_division_equations. nia. }
  rewrite (int64_small _ Hq).
  destruct (Z.ltb_spec 0 (Z.rem size unit)) as [Hr | Hr]; [| reflexivity].
  rewrite int64_small; [reflexivity |].
  unfold is_int64 in *. change (2 ^ 63)%Z with 9223372036854775808%Z in *.
  Z.to_euclidean_division_equations. nia.
Qed.

(** X1. For every [int64] size and every positive allocation unit,
    [RoundUpSize] returns the ceiling of [size / unit]: the least number [r]
    of units with [size <= unit * r].  Sizes that are zero or negative need
    no increment, since the division truncates toward zero. *)
Theorem RoundUpSize_is_ceiling (size unit : Z) :
  is_int64 size -> (0 < unit)%Z ->
  exists r : Z, RoundUpSize size unit = Returns r /\
                (unit * (r - 1) < size <= unit * r)%Z.
Proof.
  intros Hs Hu. rewrite (RoundUpSize_quot size unit Hs Hu).
  eexists. split; [reflexivity |].
  destruct (Z.ltb_spec 0 (Z.rem size unit)) as [Hr | Hr];
    Z.to_euclidean_division_equations; nia.
Qed.

Lemma RoundUpSize_is_ceiling_witness :
  exists r : Z, RoundUpSize (1500 * 1024 * 1024) (1024 * 1024 * 1024) = Returns r /\
                (1024 * 1024 * 1024 * (r - 1) < 1500 * 1024 * 1024 <= 1024 * 1024 * 1024 * r)%Z.
Proof.
  apply (RoundUpSize_is_ceiling (1500 * 1024 * 1024) (1024 * 1024 * 1024)).
  - unfold is_int64. vm_compute. split; [discriminate | reflexivity].
  - reflexivity.
Defined.

Example RoundUpSize_examples :
  RoundUpSize (1500 * 1024 * 1024) GIB = Returns 2%Z /\
  RoundUpSize 0 GIB = Returns 0%Z /\
  RoundUpSize (-1) GIB = Returns 0%Z /\
  RoundUpSize (2 * GIB) GIB = Returns 2%Z /\
  RoundUpSize 1 0 = Panics "integer divide by zero" /\
  RoundUpToGB (1000 * 1000 * 1000 + 1) = Returns 2%Z.
Proof. repeat split; vm_compute; reflexivity. Qed.

(** X2. [RoundUpSizeInt] never hands out a truncated size.  With a 32-bit
    or a 64-bit [int], for every [int64] size and positive unit, the call
    either returns the very number [RoundUpSize] returns, with a [nil]
    error, and that number fits the [int]; or it returns [0] and an
    error, and the number does not fit.  With a 64-bit [int] the error
    never occurs. *)
Theorem RoundUpSizeInt_exact_or_error (intSize size unit : Z) :
  intSize = 32%Z \/ intSize = 64%Z -> is_int64 size -> (0 < unit)%Z ->
  exists r : Z,
    RoundUpSize size unit = Returns r /\
    ((- 2 ^ (intSize - 1) <= r < 2 ^ (intSize - 1))%Z /\
     RoundUpSizeInt intSize size unit = Returns (r, None)
     \/
     ~ (- 2 ^ (intSize - 1) <= r < 2 ^ (intSize - 1))%Z /\ intSize = 32%Z /\
     exists e, RoundUpSizeInt intSize size unit = Returns (0%Z, Some e)).
Proof.
  intros Hw Hs Hu. unfold RoundUpSizeInt.
  rewrite (RoundUpSize_quot size unit Hs Hu).
  set (r := (if (0 <? Z.rem size unit)%Z then Z.quot size unit + 1 else Z.quot size unit)%Z).
  assert (Hr : is_int64 r).
  { subst r. unfold is_int64 in *. change (2 ^ 63)%Z with 9223372036854775808%Z in *.
    destruct (Z.ltb_spec 0 (Z.rem size unit)); Z.to_euclidean_division_equations; nia. }
  exists r. split; [reflexivity |].
  destruct Hw as [-> | ->].
  - change (32 - 1)%Z with 31%Z. change (2 ^ 31)%Z with 2147483648%Z.
    assert (Hw : is_int64 (wrap 32 r)).
    { unfold wrap, is_int64. change (32 - 1)%Z with 31%Z.
      change (2 ^ 31)%Z with 2147483648%Z. change (2 ^ 32)%Z with 4294967296%Z.
      change (2 ^ 63)%Z with 9223372036854775808%Z.
      pose proof (Z.mod_pos_bound (r + 2147483648) 4294967296). lia. }
    rewrite (int64_small _ Hw).
    destruct (Z.eqb_spec (wrap 32 r) r) as [He | He]; simpl.
    + left. rewrite He. split; [| reflexivity].
      rewrite <- He. unfold wrap. change (32 - 1)%Z with 31%Z.
      change (2 ^ 31)%Z with 2147483648%Z. change (2 ^ 32)%Z with 4294967296%Z.
      pose proof (Z.mod_pos_bound (r + 2147483648) 4294967296). lia.
    + right. split; [| split; [reflexivity | eexists; reflexivity]].
      intros Hin. apply He. unfold wrap. change (32 - 1)%Z with 31%Z.
      change (2 ^ 31)%Z with 2147483648%Z. change (2 ^ 32)%Z with 4294967296%Z.
      rewrite Z.mod_small; lia.
  - left. change (wrap 64 r) with (int64 r). rewrite !(int64_small _ Hr).
    rewrite Z.eqb_refl. simpl. split; [exact Hr | reflexivity].
Qed.

Lemma RoundUpSizeInt_exact_or_error_witness :
  exists r : Z,
    RoundUpSize (2 ^ 62) 1 = Returns r /\
    ((- 2 ^ (32 - 1) <= r < 2 ^ (32 - 1))%Z /\
     RoundUpSizeInt 32 (2 ^ 62) 1 = Returns (r, None)
     \/
     ~ (- 2 ^ (32 - 1) <= r < 2 ^ (32 - 1))%Z /\ 32%Z = 32%Z /\
     exists e, RoundUpSizeInt 32 (2 ^ 62) 1 = Returns (0%Z, Some e)).
Proof.
  apply (RoundUpSizeInt_exact_or_error 32 (2 ^ 62) 1).
  - left. reflexivity.
  - unfold is_int64. vm_compute. split; [discriminate | reflexivity].
  - reflexivity.
Defined.

Example RoundUpSizeInt_examples :
  RoundUpSizeInt 32 (3 * GIB) GIB = Returns (3%Z, None) /\
  RoundUpSizeInt 32 (2 ^ 62) 1
  = Returns (0%Z, Go.Errorf
      "capacity 4611686018427387904 is too great, casting results in integer overflow") /\
  RoundUpSizeInt 64 (2 ^ 62) 1 = Returns ((2 ^ 62)%Z, None).
Proof. repeat split; vm_compute; reflexivity. Qed.

End SizeFacts.
(** ** Package [volume/util]: names and paths *)

Module StrFacts.
Import GoInt GoStr IntFacts.
#[local] Arguments String.append !_ _ / : simpl nomatch.

Lemma append_assoc (a b c : string) : ((a ++ b) ++ c = a ++ (b ++ c))%string.
Proof. induction a as [| x a IH]; [reflexivity |]. simpl. now rewrite IH. Qed.

Lemma append_empty_r (a : string) : (a ++ "")%string = a.
Proof. induction a as [| x a IH]; [reflexivity |]. simpl. now rewrite IH. Qed.

Lemma prefix_empty (s : string) : String.prefix "" s = true.
Proof. destruct s; reflexivity. Qed.

Lemma prefix_refl (s : string) : String.prefix s s = true.
Proof.
  induction s as [| c s IH]; [reflexivity |]. simpl.
  destruct (ascii_dec c c); [exact IH | congruence].
Qed.

Lemma substring0_prefix (n : nat) (s : string) : String.prefix (substring 0 n s) s = true.
Proof.
  revert s. induction n as [| n IH]; intros [| c s]; simpl; try reflexivity.
  destruct (ascii_dec c c); [apply IH | congruence].
Qed.

Lemma substring0_length (n : nat) (s : string) :
  n <= String.length s -> String.length (substring 0 n s) = n.
Proof.
  revert s. induction n as [| n IH]; intros [| c s]; simpl; intros H; try lia.
  rewrite IH; lia.
Qed.

Lemma substring0_all (s : string) : substring 0 (String.length s) s = s.
Proof. induction s as [| c s IH]; [reflexivity |]. simpl. now rewrite IH. Qed.

Lemma Contains_cons (x : ascii) (s : string) (c : ascii) :
  Contains (String x s) (String c "") = Ascii.eqb c x || Contains s (String c "").
Proof.
  cbn [Contains String.prefix]. destruct (ascii_dec c x) as [-> | Hne].
  - now rewrite Ascii.eqb_refl, prefix_empty.
  - apply Ascii.eqb_neq in Hne. now rewrite Hne.
Qed.

(** [c] occurs in [s]. *)
Lemma Contains_byte (s : string) (c : ascii) :
  Contains s (String c "") = true <-> exists a b, s = (a ++ String c b)%string.
Proof.
  induction s as [| x s IH].
  - split; [discriminate |]. intros (a & b & H). destruct a; discriminate.
  - rewrite Contains_cons. destruct (Ascii.eqb_spec c x) as [-> | Hne]; simpl.
    + split; [| reflexivity]. intros _. exists "", s. reflexivity.
    + rewrite IH. split.
      * intros (a & b & ->). exists (String x a), b. reflexivity.
      * intros (a & b & H). destruct a as [| y a]; simpl in H; inversion H; subst.
        -- congruence.
        -- eauto.
Qed.

Lemma Contains_append (a b : string) (c : ascii) :
  Contains (a ++ b) (String c "") = Contains a (String c "") || Contains b (String c "").
Proof.
  induction a as [| x a IH].
  - simpl. reflexivity.
  - change (String x a ++ b)%string with (String x (a ++ b)%string).
    rewrite !Contains_cons, IH. now rewrite orb_assoc.
Qed.

Lemma cut_app (a b : string) (sep : ascii) :
  Contains a (String sep "") = false -> cut (a ++ String sep b) sep = Some (a, b).
Proof.
  induction a as [| x a IH]; intros H.
  - simpl. now rewrite Ascii.eqb_refl.
  - rewrite Contains_cons in H. apply orb_false_iff in H as [Hx Ha].
    simpl. rewrite Ascii.eqb_sym, Hx, (IH Ha). reflexivity.
Qed.

Lemma cut_Some (s : string) (sep : ascii) (a b : string) :
  cut s sep = Some (a, b) ->
  s = (a ++ String sep b)%string /\ Contains a (String sep "") = false.
Proof.
  revert a. induction s as [| x s IH]; intros a; simpl; [discriminate |].
  destruct (Ascii.eqb_spec x sep) as [-> | Hne].
  - intros [= <- <-]. split; reflexivity.
  - destruct (cut s sep) as [[a' b'] |]; [| discriminate].
    intros [= <- <-]. destruct (IH a' eq_refl) as [-> Ha]. split; [reflexivity |].
    rewrite Contains_cons, Ha.
    destruct (Ascii.eqb_spec sep x); [congruence | reflexivity].
Qed.

Lemma cut_None (s : string) (sep : ascii) :
  cut s sep = None <-> Contains s (String sep "") = false.
Proof.
  induction s as [| x s IH]; [simpl; tauto |].
  rewrite Contains_cons. simpl.
  destruct (Ascii.eqb_spec x sep) as [-> | Hne].
  - rewrite Ascii.eqb_refl. simpl. split; discriminate.
  - destruct (Ascii.eqb_spec sep x); [congruence |]. simpl.
    rewrite <- IH. destruct (cut s sep) as [[? ?] |]; split; congruence.
Qed.

Lemma Contains_sep (a b : string) (c : ascii) :
  Contains (a ++ String c b) (String c "") = true.
Proof.
  rewrite Contains_append, Contains_cons, Ascii.eqb_refl. simpl. apply orb_true_r.
Qed.

(** What follows the first separator holds every later one. *)
Lemma cut_rest_Contains (a b : string) (sep : ascii) (x r : string) :
  cut (a ++ String sep b) sep = Some (x, r) ->
  Contains b (String sep "") = true -> Contains r (String sep "") = true.
Proof.
  intros Hcut Hb. destruct (cut a sep) as [[a1 a2] |] eqn:Ha.
  - apply cut_Some in Ha as [-> Ha1]. rewrite append_assoc in Hcut.
    change (String sep a2 ++ String sep b)%string
      with (String sep (a2 ++ String sep b)%string) in Hcut.
    rewrite (cut_app a1 _ sep Ha1) in Hcut. inversion Hcut; subst.
    apply Contains_sep.
  - apply cut_None in Ha. rewrite (cut_app a b sep Ha) in Hcut.
    inversion Hcut; subst. exact Hb.
Qed.

(** [strings.Replace(s, old, new, -1)] for one-byte [old] and [new] is a
    map over the bytes. *)
Lemma Replace_byte (s : string) (old new : ascii) :
  GoStrings.Replace s (String old "") (String new "")
  = map_bytes (fun c => if Ascii.eqb c old then new else c) s.
Proof.
  unfold GoStrings.Replace. induction s as [| c s IH]; [reflexivity |].
  simpl. destruct (ascii_dec old c) as [-> | Hne].
  - rewrite Ascii.eqb_refl, prefix_empty. simpl. now rewrite IH.
  - destruct (Ascii.eqb_spec c old); [congruence |]. now rewrite IH.
Qed.

Lemma map_bytes_without (f : ascii -> ascii) (c : ascii) (s : string) :
  (forall x, f x <> c) -> Contains (map_bytes f s) (String c "") = false.
Proof.
  intros Hf. induction s as [| x s IH]; [reflexivity |].
  change (map_bytes f (String x s)) with (String (f x) (map_bytes f s)).
  rewrite Contains_cons, IH.
  destruct (Ascii.eqb_spec c (f x)) as [He | _]; [| reflexivity].
  exfalso. exact (Hf x (eq_sym He)).
Qed.

Lemma map_bytes_id (f : ascii -> ascii) (c : ascii) (s : string) :
  (forall x, x <> c -> f x = x) -> Contains s (String c "") = false -> map_bytes f s = s.
Proof.
  intros Hf. induction s as [| x s IH]; [reflexivity |].
  rewrite Contains_cons. intros H. apply orb_false_iff in H as [Hx Hs].
  simpl. rewrite (IH Hs), Hf; [reflexivity |].
  intros ->. now rewrite Ascii.eqb_refl in Hx.
Qed.

End StrFacts.

Module NameFacts.
Import Go (outcome, Returns, Panics).
Import GoInt GoStr VolumeUtil IntFacts StrFacts.
#[local] Arguments String.append !_ _ / : simpl nomatch.

Ltac pow2 :=
  change (2 ^ 62)%Z with 4611686018427387904%Z in *;
  change (2 ^ 63)%Z with 9223372036854775808%Z in *;
  change (2 ^ 64)%Z with 18446744073709551616%Z in *.

Lemma len_dynamic (clusterName : string) :
  len (clusterName ++ "-dynamic") = (len clusterName + 8)%Z.
Proof. rewrite len_append. reflexivity. Qed.

Lemma slice_to_len (s : string) (n : Z) :
  (0 <= n <= len s)%Z -> len (slice_to s n) = n.
Proof.
  unfold len, slice_to. intros H. rewrite substring0_length; lia.
Qed.

(** X3. When the PV name and one dash fit into [maxLength],
    [GenerateVolumeName] returns a name of at most [maxLength] bytes that
    ends in the dash and the whole PV name; what is cut is the end of
    ["<clusterName>-dynamic"], and no more of it than needed. *)
Theorem GenerateVolumeName_fits (clusterName pvName : string) (maxLength : Z) :
  (len clusterName + len pvName < 2 ^ 62)%Z ->
  (len pvName + 1 <= maxLength < 2 ^ 63)%Z ->
  exists kept : string,
    GenerateVolumeName clusterName pvName maxLength
    = Returns (kept ++ "-" ++ pvName)%string /\
    String.prefix kept (clusterName ++ "-dynamic") = true /\
    (len (kept ++ "-" ++ pvName) <= maxLength)%Z /\
    len kept = Z.min (len clusterName + 8) (maxLength - len pvName - 1).
Proof.
  intros Hsmall Hmax. unfold GenerateVolumeName.
  pose proof (len_nonneg clusterName) as Hc. pose proof (len_nonneg pvName) as Hp.
  pose proof (len_dynamic clusterName) as Hd. pow2.
  rewrite (int64_small (len pvName + 1)) by (unfold is_int64; pow2; lia).
  rewrite (int64_small (len pvName + 1 + _)) by (unfold is_int64; pow2; lia).
  rewrite (int64_small (maxLength - len pvName)) by (unfold is_int64; pow2; lia).
  rewrite (int64_small (maxLength - len pvName - 1)) by (unfold is_int64; pow2; lia).
  destruct (Z.gtb_spec (len pvName + 1 + len (clusterName ++ "-dynamic")) maxLength)
    as [Hlong | Hfit].
  - destruct (Z.ltb_spec (maxLength - len pvName - 1) 0) as [? | _]; [lia |].
    destruct (Z.ltb_spec (len (clusterName ++ "-dynamic")) (maxLength - len pvName - 1))
      as [? | _]; [lia |]. simpl orb. cbv iota.
    exists (slice_to (clusterName ++ "-dynamic") (maxLength - len pvName - 1)).
    assert (Hk : len (slice_to (clusterName ++ "-dynamic") (maxLength - len pvName - 1))
                 = (maxLength - len pvName - 1)%Z) by (apply slice_to_len; lia).
    split; [reflexivity |]. split; [apply substring0_prefix |].
    rewrite !len_append, Hk. change (len "-") with 1%Z. split; lia.
  - exists (clusterName ++ "-dynamic")%string.
    split; [reflexivity |]. split; [apply prefix_refl |].
    rewrite !len_append in *. change (len "-") with 1%Z. change (len "-dynamic") with 8%Z in *.
    split; lia.
Qed.

Lemma GenerateVolumeName_fits_witness :
  exists kept : string,
    GenerateVolumeName "kubernetes" "pvc-0f3e2a7c-1b2d-4c5e" 30
    = Returns (kept ++ "-" ++ "pvc-0f3e2a7c-1b2d-4c5e")%string /\
    String.prefix kept ("kubernetes" ++ "-dynamic") = true /\
    (len (kept ++ "-" ++ "pvc-0f3e2a7c-1b2d-4c5e") <= 30)%Z /\
    len kept = Z.min (len "kubernetes" + 8) (30 - len "pvc-0f3e2a7c-1b2d-4c5e" - 1).
Proof.
  apply (GenerateVolumeName_fits "kubernetes" "pvc-0f3e2a7c-1b2d-4c5e" 30).
  - vm_compute. reflexivity.
  - vm_compute. split; [discriminate | reflexivity].
Defined.

(** X4. [GenerateVolumeName] panics exactly when the PV name and its dash
    do not fit into [maxLength]: the slice of the prefix then has a negative
    bound.  A PV name of [maxLength] bytes or more is such a name. *)
Theorem GenerateVolumeName_panics_iff (clusterName pvName : string) (maxLength : Z) :
  (len clusterName + len pvName < 2 ^ 62)%Z ->
  is_int64 maxLength ->
  (exists msg, GenerateVolumeName clusterName pvName maxLength = Panics msg)
  <-> (maxLength < len pvName + 1)%Z.
Proof.
  intros Hsmall Hmax. unfold is_int64 in Hmax.
  pose proof (len_nonneg clusterName) as Hc. pose proof (len_nonneg pvName) as Hp.
  split.
  - intros [msg H].
    destruct (Z.lt_ge_cases maxLength (len pvName + 1)) as [Hlt | Hge]; [exact Hlt |].
    destruct (GenerateVolumeName_fits clusterName pvName maxLength Hsmall) as (k & Hk & _);
      [lia |]. congruence.
  - intros Hlt. unfold GenerateVolumeName.
    pose proof (len_dynamic clusterName) as Hd. pow2.
    rewrite (int64_small (len pvName + 1)) by (unfold is_int64; pow2; lia).
    rewrite (int64_small (len pvName + 1 + _)) by (unfold is_int64; pow2; lia).
    destruct (Z.gtb_spec (len pvName + 1 + len (clusterName ++ "-dynamic")) maxLength)
      as [_ | ?]; [| lia].
    set (n := int64 (int64 (maxLength - len pvName) - 1)).
    assert (Hn : (n < 0 \/ len (clusterName ++ "-dynamic") < n)%Z).
    { subst n. unfold int64, wrap. change (64 - 1)%Z with 63%Z. pow2.
      Z.to_euclidean_division_equations. lia. }
    destruct (Z.ltb_spec n 0); [eexists; reflexivity |].
    destruct (Z.ltb_spec (len (clusterName ++ "-dynamic")) n); [eexists; reflexivity | lia].
Qed.

Lemma GenerateVolumeName_panics_iff_witness :
  (exists msg, GenerateVolumeName "k8s" "pvc-0123456789" 10 = Panics msg)
  <-> (10 < len "pvc-0123456789" + 1)%Z.
Proof.
  apply (GenerateVolumeName_panics_iff "k8s" "pvc-0123456789" 10).
  - vm_compute. reflexivity.
  - unfold is_int64. vm_compute. split; [discriminate | reflexivity].
Defined.

Example GenerateVolumeName_examples :
  GenerateVolumeName "kubernetes" "pv-1" 63 = Returns "kubernetes-dynamic-pv-1" /\
  GenerateVolumeName "kubernetes" "pv-1" 20 = Returns "kubernetes-dyna-pv-1" /\
  GenerateVolumeName "kubernetes" "pv-1" 5 = Returns "-pv-1" /\
  GenerateVolumeName "kubernetes" "pv-1" 4 = Panics "slice bounds out of range".
Proof. repeat split; vm_compute; reflexivity. Qed.

(** X5. A unique volume name built by [GetUniqueVolumeName] from a plugin
    name of the form [namespace/plugin] (one slash) and any volume name,
    slashes included, is split by [SplitUniqueName] into that plugin name
    and that volume name, with a [nil] error. *)
Theorem SplitUniqueName_of_GetUniqueVolumeName (ns plugin volumeName : string) :
  Contains ns "/" = false -> Contains plugin "/" = false ->
  SplitUniqueName (GetUniqueVolumeName (ns ++ "/" ++ plugin) volumeName)
  = ((ns ++ "/" ++ plugin)%string, volumeName, None).
Proof.
  intros Hns Hp. unfold SplitUniqueName, GetUniqueVolumeName.
  rewrite !append_assoc.
  change ("/" ++ plugin ++ "/" ++ volumeName)%string
    with (String "/" (plugin ++ String "/" volumeName))%string.
  cbn [SplitN]. rewrite (cut_app ns _ "/" Hns), (cut_app plugin _ "/" Hp).
  reflexivity.
Qed.

Lemma SplitUniqueName_of_GetUniqueVolumeName_witness :
  SplitUniqueName (GetUniqueVolumeName ("kubernetes.io" ++ "/" ++ "aws-ebs")
                     "aws://us-east-1a/vol-1")
  = (("kubernetes.io" ++ "/" ++ "aws-ebs")%string, "aws://us-east-1a/vol-1", None).
Proof.
  apply (SplitUniqueName_of_GetUniqueVolumeName "kubernetes.io" "aws-ebs"
           "aws://us-east-1a/vol-1"); reflexivity.
Defined.

(** X6. Whenever [SplitUniqueName] succeeds, [GetUniqueVolumeName] of its
    two results is the name that was split, and the plugin name it returns
    has exactly one slash; it fails exactly on names with fewer than two
    slashes. *)
Theorem SplitUniqueName_inverse (uniqueName : string) :
  match SplitUniqueName uniqueName with
  | (pluginName, volumeName, None) =>
      GetUniqueVolumeName pluginName volumeName = uniqueName /\
      exists ns plugin, pluginName = (ns ++ "/" ++ plugin)%string /\
                        Contains ns "/" = false /\ Contains plugin "/" = false
  | (pluginName, volumeName, Some _) =>
      pluginName = "" /\ volumeName = "" /\
      forall a b c, uniqueName <> (a ++ "/" ++ b ++ "/" ++ c)%string
  end.
Proof.
  unfold SplitUniqueName, GetUniqueVolumeName. cbn [SplitN].
  destruct (cut uniqueName "/") as [[c0 r] |] eqn:H0.
  - apply cut_Some in H0 as [-> Hc0].
    destruct (cut r "/") as [[c1 c2] |] eqn:H1.
    + apply cut_Some in H1 as [-> Hc1]. split.
      * now rewrite append_assoc.
      * exists c0, c1. auto.
    + split; [reflexivity |]. split; [reflexivity |].
      intros a b c He. apply cut_None in H1.
      assert (Hcut : cut (c0 ++ String "/" r) "/" = Some (c0, r)) by now apply cut_app.
      rewrite He in Hcut.
      change ("/" ++ b ++ "/" ++ c)%string with (String "/" (b ++ String "/" c))%string in Hcut.
      rewrite (cut_rest_Contains a _ "/" c0 r Hcut (Contains_sep b c "/")) in H1.
      discriminate.
  - split; [reflexivity |]. split; [reflexivity |].
    intros a b c He. apply cut_None in H0. rewrite He in H0.
    change ("/" ++ b ++ "/" ++ c)%string with (String "/" (b ++ String "/" c))%string in H0.
    rewrite Contains_sep in H0. discriminate.
Qed.

Example SplitUniqueName_examples :
  SplitUniqueName "kubernetes.io/gce-pd/disk-1" = ("kubernetes.io/gce-pd", "disk-1", None) /\
  SplitUniqueName "kubernetes.io/aws-ebs/aws://us-east-1a/vol-1"
  = ("kubernetes.io/aws-ebs", "aws://us-east-1a/vol-1", None) /\
  SplitUniqueName "flexvolume/disk"
  = ("", "", Go.Errorf
       "cannot split volume unique name flexvolume/disk to plugin/volume components") /\
  SplitUniqueName "//" = ("/", "", None).
Proof. repeat split; vm_compute; reflexivity. Qed.

End NameFacts.
(** ** Package [volume/util]: Windows paths, zone lists and mount options *)

Module PathFacts.
Import GoInt GoStr VolumeUtil IntFacts StrFacts.
#[local] Arguments String.append !_ _ / : simpl nomatch.

Lemma GetWindowsPath_map (path : string) :
  GoStrings.Replace path "/" backslash
  = map_bytes (fun c => if Ascii.eqb c "/" then ascii_of_nat 92 else c) path.
Proof. apply (Replace_byte path "/" (ascii_of_nat 92)). Qed.

Lemma no_slash_map (s : string) :
  Contains (map_bytes (fun c => if Ascii.eqb c "/" then ascii_of_nat 92 else c) s) "/" = false.
Proof.
  apply (map_bytes_without _ "/"%char). intros x.
  destruct (Ascii.eqb_spec x "/") as [-> | Hne]; [discriminate | exact Hne].
Qed.

(** X7. [GetWindowsPath] leaves no forward slash in its result, and
    applying it to its own result changes nothing: a path that starts with
    a backslash gets the drive [c:] once, never twice. *)
Theorem GetWindowsPath_normalizes (path : string) :
  Contains (GetWindowsPath path) "/" = false /\
  GetWindowsPath (GetWindowsPath path) = GetWindowsPath path.
Proof.
  assert (Hid : forall s, Contains s "/" = false ->
                          GoStrings.Replace s "/" backslash = s).
  { intros s Hs. rewrite GetWindowsPath_map. apply (map_bytes_id _ "/"%char); [| exact Hs].
    intros x Hx. destruct (Ascii.eqb_spec x "/"); [contradiction | reflexivity]. }
  unfold GetWindowsPath. rewrite GetWindowsPath_map.
  set (w := map_bytes _ path). pose proof (no_slash_map path) as Hw. fold w in Hw.
  destruct (GoStrings.HasPrefix w backslash) eqn:Hp.
  - assert (Hc : Contains ("c:" ++ w) "/" = false).
    { change ("c:" ++ w)%string with (String "c" (String ":" w)).
      rewrite !Contains_cons, Hw. reflexivity. }
    split; [exact Hc |]. rewrite (Hid _ Hc). reflexivity.
  - split; [exact Hw |]. rewrite (Hid _ Hw), Hp. reflexivity.
Qed.

Example GetWindowsPath_examples :
  GetWindowsPath "/var/lib/kubelet" = "c:\var\lib\kubelet" /\
  GetWindowsPath "c:/var/lib" = "c:\var\lib" /\
  GetWindowsPath "var/lib" = "var\lib" /\
  GetWindowsPath "" = "".
Proof. repeat split; vm_compute; reflexivity. Qed.

(** X8. On Windows, every path that [MakeAbsolutePath] returns holds a
    colon (a path with a colon is returned as it is, any other gets the
    drive [c:]), and making the result absolute again changes nothing. *)
Theorem MakeAbsolutePath_windows (filepath_Clean : string -> string) (path : string) :
  let abs := MakeAbsolutePath filepath_Clean "windows" in
  Contains (abs path) ":" = true /\ abs (abs path) = abs path.
Proof.
  assert (Hc : forall p, Contains (MakeAbsolutePath filepath_Clean "windows" p) ":" = true).
  { intros p. unfold MakeAbsolutePath. simpl negb. cbv iota.
    destruct (Contains p ":") eqn:Hp; [exact Hp |].
    destruct (GoStrings.HasPrefix p "/" || GoStrings.HasPrefix p backslash).
    - change ("c:" ++ p)%string with (String "c" (String ":" p)).
      rewrite !Contains_cons. reflexivity.
    - change ("c:" ++ backslash ++ p)%string with (String "c" (String ":" (backslash ++ p))).
      rewrite !Contains_cons. reflexivity. }
  cbv zeta. split; [apply Hc |].
  unfold MakeAbsolutePath at 1. simpl negb. cbv iota. now rewrite Hc.
Qed.

Example MakeAbsolutePath_examples :
  MakeAbsolutePath (fun p => p) "windows" "d:\data" = "d:\data" /\
  MakeAbsolutePath (fun p => p) "windows" "/data" = "c:/data" /\
  MakeAbsolutePath (fun p => p) "windows" "\data" = "c:\data" /\
  MakeAbsolutePath (fun p => p) "windows" "data" = "c:\data" /\
  MakeAbsolutePath (fun p => p) "linux" "data" = "/data".
Proof. repeat split; vm_compute; reflexivity. Qed.

End PathFacts.

Module ListFacts.
Import GoStr VolumeUtil StringSet StringSetFacts.

Section Lists.
Variable strings_TrimSpace : string -> string.

Lemma loops_agree (str delimiter : string) (pieces acc : list string) (set : StringSet.t) :
  (forall x, In x set <-> In x acc) -> sorted set ->
  match stringToList_loop strings_TrimSpace str delimiter pieces acc,
        stringToSet_loop strings_TrimSpace str delimiter pieces set with
  | (Some l, None), (s, None) =>
      l = acc ++ map strings_TrimSpace pieces /\
      (forall x, In x s <-> In x l) /\ sorted s /\
      Forall (fun x => x <> "") (map strings_TrimSpace pieces)
  | (None, Some e), (s, Some e') => e = e' /\ s = []
  | _, _ => False
  end.
Proof.
  revert acc set. induction pieces as [| zone rest IH]; intros acc set Hin Hs; simpl.
  - rewrite app_nil_r. repeat split; auto; apply Hin.
  - destruct (String.eqb_spec (strings_TrimSpace zone) "") as [He | Hne].
    + split; reflexivity.
    + set (t := strings_TrimSpace zone) in *.
      assert (H1 : forall x, In x (Insert t set) <-> In x (acc ++ [t])).
      { intros x. rewrite In_Insert, in_app_iff, Hin. simpl. intuition congruence. }
      specialize (IH (acc ++ [t]) (Insert t set) H1 (Insert_sorted _ _ Hs)).
      destruct (stringToList_loop strings_TrimSpace str delimiter rest (acc ++ [t]))
        as [[l |] [e |]];
        destruct (stringToSet_loop strings_TrimSpace str delimiter rest (Insert t set))
          as [s [e' |]]; try exact IH.
      destruct IH as (Hl & Hm & Hsort & Hne').
      rewrite <- app_assoc in Hl. simpl in Hl. repeat split; auto; try apply Hm.
Qed.

(** X9. [stringToSet] and [stringToList] accept the same strings and fail
    with the same error.  When they succeed, the list is the trimmed pieces
    of the string in their order, none of them empty, and the set holds
    exactly the elements of that list, sorted and without duplicates; when
    they fail, the set is empty. *)
Theorem stringToSet_agrees_with_stringToList (str delimiter : string) :
  match stringToList strings_TrimSpace str delimiter,
        stringToSet strings_TrimSpace str delimiter with
  | (Some l, None), (s, None) =>
      l = map strings_TrimSpace (Split str delimiter) /\
      Forall (fun x => x <> "") l /\
      (forall x, In x s <-> In x l) /\ sorted s /\ List.NoDup s
  | (None, Some e), (s, Some e') => e = e' /\ s = []
  | _, _ => False
  end.
Proof.
  unfold stringToList, stringToSet.
  assert (H0 : forall x : string, In x (@nil string) <-> In x (@nil string)) by tauto.
  assert (Hs0 : sorted []) by constructor.
  pose proof (loops_agree str delimiter (Split str delimiter) [] [] H0 Hs0) as H.
  destruct (stringToList_loop strings_TrimSpace str delimiter (Split str delimiter) [])
    as [[l |] [e |]];
    destruct (stringToSet_loop strings_TrimSpace str delimiter (Split str delimiter) [])
      as [s [e' |]]; try exact H.
  destruct H as (Hl & Hm & Hs & Hne).
  simpl in Hl. subst l. repeat split; auto; try apply Hm. now apply sorted_NoDup.
Qed.

End Lists.

Example zone_lists :
  let trim (s : string) := GoStrings.Replace s " " "" in
  ZonesToSet trim "us-east-1b, us-east-1a,us-east-1b"
  = (Some ["us-east-1a"; "us-east-1b"], None) /\
  stringToList trim "us-east-1b, us-east-1a,us-east-1b" ","
  = (Some ["us-east-1b"; "us-east-1a"; "us-east-1b"], None) /\
  LabelZonesToList trim "__" "zone-a__zone-b" = (Some ["zone-a"; "zone-b"], None) /\
  LabelZonesToSet trim "__" "zone-a____zone-b"
  = ([], Go.Errorf (Go.quote "__" ++ " separated list (" ++ Go.quote "zone-a____zone-b"
                    ++ ") must not contain an empty string")) /\
  fst (stringToList trim "" ",") = None.
Proof. cbv zeta. repeat split; vm_compute; reflexivity. Qed.

End ListFacts.

Module OptionFacts.
Import StringSet StringSetFacts.

Lemma JoinMountOptions_sorted (userOptions systemOptions : list string) :
  sorted (Util.JoinMountOptions userOptions systemOptions).
Proof.
  unfold Util.JoinMountOptions.
  apply (fold_Insert_sorted (fun _ => true)).
  apply (fold_Insert_sorted (fun o : string => (0 <? String.length o)%nat)). constructor.
Qed.

Lemma JoinMountOptions_In (userOptions systemOptions : list string) (o : string) :
  In o (Util.JoinMountOptions userOptions systemOptions)
  <-> (In o userOptions /\ o <> "") \/ In o systemOptions.
Proof.
  unfold Util.JoinMountOptions.
  set (nonempty := fun o : string => (0 <? String.length o)%nat).
  etransitivity; [apply (fold_Insert_In (fun _ => true)) |].
  etransitivity; [apply or_iff_compat_l; apply (fold_Insert_In nonempty) |]. simpl.
  assert (Hn : nonempty o = true <-> o <> "").
  { unfold nonempty. destruct o; simpl.
    - split; [discriminate | intros H; now contradiction H].
    - split; [intros _; discriminate | reflexivity]. }
  rewrite Hn. tauto.
Qed.

(** X10. [JoinMountOptions] returns a sorted list without duplicates that
    holds exactly the non-empty user options and all the system options (an
    empty system option included). *)
Theorem JoinMountOptions_is_the_union (userOptions systemOptions : list string) :
  sorted (Util.JoinMountOptions userOptions systemOptions) /\
  List.NoDup (Util.JoinMountOptions userOptions systemOptions) /\
  forall o : string,
    In o (Util.JoinMountOptions userOptions systemOptions)
    <-> (In o userOptions /\ o <> "") \/ In o systemOptions.
Proof.
  split; [apply JoinMountOptions_sorted |].
  split; [apply sorted_NoDup, JoinMountOptions_sorted |].
  apply JoinMountOptions_In.
Qed.

End OptionFacts.
(** ** Package [volume/util]: the choice of zones *)

Module ZoneFacts.
Import Go (outcome, Returns, Panics).
Import GoInt GoStr StringSet Zones IntFacts StrFacts StringSetFacts.
#[local] Arguments String.append !_ _ / : simpl nomatch.

Ltac pow32 := change (2 ^ 32)%Z with 4294967296%Z in *.

Lemma zone_at_Some (zs : list string) (k : Z) :
  (0 < length zs)%nat -> (Z.of_nat (length zs) < 2 ^ 32)%Z ->
  exists z, zone_at zs k = Returns z /\
            nth_error zs (Z.to_nat (k mod Z.of_nat (length zs))) = Some z.
Proof.
  intros Hpos Hlt. unfold zone_at.
  rewrite uint32_small by (unfold is_uint32; lia).
  destruct (Z.eqb_spec (Z.of_nat (length zs)) 0) as [? | _]; [lia |].
  pose proof (Z.mod_pos_bound k (Z.of_nat (length zs))) as Hb.
  destruct (nth_error zs (Z.to_nat (k mod Z.of_nat (length zs)))) eqn:Hn.
  - eauto.
  - apply nth_error_None in Hn. lia.
Qed.

Lemma zone_at_In (zs : list string) (k : Z) (z : string) :
  zone_at zs k = Returns z -> In z zs.
Proof.
  unfold zone_at. destruct (_ =? 0)%Z; [discriminate |].
  destruct (nth_error zs _) eqn:Hn; [| discriminate].
  intros [= <-]. eapply nth_error_In, Hn.
Qed.

(** X11. [ChooseZoneForVolume] on a set of fewer than [2^32] zones: the
    empty string for the empty set, and otherwise a zone of the set,
    whatever the name of the claim and whatever [rand.Uint32] answers. *)
Theorem ChooseZoneForVolume_member (rand_Uint32 : Z) (zones : StringSet.t)
    (pvcName : string) :
  (Z.of_nat (length zones) < 2 ^ 32)%Z ->
  match zones with
  | [] => ChooseZoneForVolume rand_Uint32 zones pvcName = Returns ""
  | _ :: _ => exists zone, ChooseZoneForVolume rand_Uint32 zones pvcName = Returns zone /\
                           In zone zones
  end.
Proof.
  intros Hlt. destruct zones as [| z0 zs]; [reflexivity |].
  unfold ChooseZoneForVolume, Len, List.
  destruct (Z.eqb_spec (Z.of_nat (length (z0 :: zs))) 0) as [He | _]; [simpl in He; lia |].
  destruct (getPVCNameHashAndIndexOffset rand_Uint32 pvcName) as [hash index].
  destruct (zone_at_Some (z0 :: zs) (uint32 (hash + index))) as (z & Hz & Hn);
    [simpl; lia | exact Hlt |].
  exists z. split; [exact Hz |]. eapply zone_at_In, Hz.
Qed.

Lemma ChooseZoneForVolume_member_witness :
  exists zone,
    ChooseZoneForVolume 7 ["us-east-1a"; "us-east-1b"; "us-east-1c"] "www-web-0"
    = Returns zone /\ In zone ["us-east-1a"; "us-east-1b"; "us-east-1c"].
Proof.
  apply (ChooseZoneForVolume_member 7 ["us-east-1a"; "us-east-1b"; "us-east-1c"] "www-web-0").
  vm_compute. reflexivity.
Defined.

(** *** Names that end in a number *)

Lemma LastIndexByte_ge (s : string) (c : ascii) : (-1 <= LastIndexByte s c)%Z.
Proof.
  induction s as [| a s IH]; simpl; [lia |].
  destruct (Z.leb_spec 0 (LastIndexByte s c)); [lia |].
  destruct (Ascii.eqb a c); lia.
Qed.

Lemma LastIndexByte_none (s : string) (c : ascii) :
  Contains s (String c "") = false -> LastIndexByte s c = (-1)%Z.
Proof.
  induction s as [| a s IH]; [reflexivity |].
  rewrite Contains_cons. intros H. apply orb_false_iff in H as [Ha Hs].
  simpl. rewrite (IH Hs). simpl. rewrite Ascii.eqb_sym, Ha. reflexivity.
Qed.

Lemma LastIndexByte_app (a b : string) (c : ascii) :
  Contains b (String c "") = false -> LastIndexByte (a ++ String c b) c = len a.
Proof.
  intros Hb. induction a as [| x a IH].
  - simpl. rewrite (LastIndexByte_none b c Hb). simpl. now rewrite Ascii.eqb_refl.
  - change (String x a ++ String c b)%string with (String x (a ++ String c b)%string).
    cbn [LastIndexByte]. rewrite IH. pose proof (len_nonneg a) as Ha.
    destruct (Z.leb_spec 0 (len a)); [| lia]. unfold len. simpl String.length. lia.
Qed.

Lemma drop_app (a b : string) : GoStrings.drop (String.length a) (a ++ b) = b.
Proof. induction a as [| x a IH]; [destruct b; reflexivity | exact IH]. Qed.

Lemma slice_from_app (a b : string) (c : ascii) :
  slice_from (a ++ String c b) (len a + 1) = b.
Proof.
  unfold slice_from, len.
  replace (Z.to_nat (Z.of_nat (String.length a) + 1)) with (String.length (a ++ String c ""))%nat.
  - replace (a ++ String c b)%string with ((a ++ String c "") ++ b)%string.
    + apply drop_app.
    + rewrite append_assoc. reflexivity.
  - pose proof (len_append a (String c "")) as H. unfold len in H. simpl in H. lia.
Qed.

Lemma slice_to_app (a b : string) : slice_to (a ++ b) (len a) = a.
Proof.
  unfold slice_to, len. rewrite Nat2Z.id.
  induction a as [| x a IH]; [destruct b; reflexivity |].
  simpl. now rewrite IH.
Qed.

Lemma digit_not_dash (c : ascii) (d : Z) :
  GoStrings.digit c = Some d -> Ascii.eqb "-" c = false /\ (0 <= d <= 9)%Z.
Proof.
  unfold GoStrings.digit. intros H.
  destruct (Ascii.eqb_spec "-" c) as [<- | _]; [discriminate H |].
  split; [reflexivity |].
  destruct (Z.leb_spec 48 (Z.of_N (N_of_ascii c))); simpl in H; [| discriminate].
  destruct (Z.leb_spec (Z.of_N (N_of_ascii c)) 57); simpl in H; [| discriminate].
  inversion H. lia.
Qed.

Lemma digits_no_dash (s : string) (acc n : Z) :
  GoStrings.digits acc s = Some n -> Contains s "-" = false.
Proof.
  revert acc. induction s as [| c s IH]; intros acc; [reflexivity |].
  simpl GoStrings.digits. destruct (GoStrings.digit c) as [d |] eqn:Hd; [| discriminate].
  intros H. rewrite Contains_cons, (IH _ H).
  now destruct (digit_not_dash c d Hd) as [-> _].
Qed.

Lemma digits_nonneg (s : string) (acc n : Z) :
  (0 <= acc)%Z -> GoStrings.digits acc s = Some n -> (0 <= n)%Z.
Proof.
  revert acc. induction s as [| c s IH]; intros acc Hacc; simpl.
  - intros [= <-]. exact Hacc.
  - destruct (GoStrings.digit c) as [d |] eqn:Hd; [| discriminate].
    apply IH. destruct (digit_not_dash c d Hd). lia.
Qed.

Lemma ParseUint32_Some (s : string) (i : Z) :
  ParseUint32 s = Some i ->
  Contains s "-" = false /\ is_uint32 i /\ s <> "".
Proof.
  unfold ParseUint32. destruct s as [| c s]; [discriminate |].
  destruct (GoStrings.digits 0 (String c s)) as [n |] eqn:Hn; [| discriminate].
  destruct (Z.ltb_spec n (2 ^ 32)); [| discriminate]. intros [= <-].
  split; [eapply digits_no_dash, Hn |]. split; [| discriminate].
  split; [eapply digits_nonneg; [| exact Hn]; lia | assumption].
Qed.

Lemma append_nonempty (a b : string) (c : ascii) : String.eqb (a ++ String c b) "" = false.
Proof. destruct a; reflexivity. Qed.

(** The hash and the index of a name [base-id] with a number [id]: the
    index is the number, the hash is taken of what follows the last dash of
    [base], or of [base] when it has no dash. *)
Lemma numbered_name (rand_Uint32 : Z) (base id : string) (i : Z) :
  ParseUint32 id = Some i ->
  getPVCNameHashAndIndexOffset rand_Uint32 (base ++ "-" ++ id)
  = (fnv32 (if negb (LastIndexByte base "-" =? -1)%Z
            then slice_from base (LastIndexByte base "-" + 1) else base), i).
Proof.
  intros Hid. destruct (ParseUint32_Some id i Hid) as (Hdash & Hi & _).
  unfold getPVCNameHashAndIndexOffset.
  change ("-" ++ id)%string with (String "-" id).
  rewrite append_nonempty, (LastIndexByte_app base id "-" Hdash).
  pose proof (len_nonneg base) as Hb.
  destruct (Z.eqb_spec (len base) (-1)) as [? | _]; [lia |]. simpl negb. cbv iota.
  rewrite slice_from_app, Hid, slice_to_app, (uint32_small i Hi).
  destruct (negb (LastIndexByte base "-" =? -1)%Z); reflexivity.
Qed.

(** X12. Two claims of the same member of a StatefulSet, named
    [claim-set-id] with the same set name (without a dash) and the same
    number, are given the same zone and the same zones, whatever the claim
    names are: only the set name is hashed. *)
Theorem claims_of_one_member_share_zones (rand_Uint32 : Z) (zones : StringSet.t)
    (claim1 claim2 set id : string) (numZones : Z) :
  Contains set "-" = false -> ParseUint32 id <> None ->
  ChooseZoneForVolume rand_Uint32 zones (claim1 ++ "-" ++ set ++ "-" ++ id)
  = ChooseZoneForVolume rand_Uint32 zones (claim2 ++ "-" ++ set ++ "-" ++ id) /\
  ChooseZonesForVolume rand_Uint32 zones (claim1 ++ "-" ++ set ++ "-" ++ id) numZones
  = ChooseZonesForVolume rand_Uint32 zones (claim2 ++ "-" ++ set ++ "-" ++ id) numZones.
Proof.
  intros Hset Hid. destruct (ParseUint32 id) as [i |] eqn:Hi; [| congruence].
  assert (H : forall claim,
             getPVCNameHashAndIndexOffset rand_Uint32 (claim ++ "-" ++ set ++ "-" ++ id)
             = (fnv32 set, i)).
  { intros claim.
    replace (claim ++ "-" ++ set ++ "-" ++ id)%string
      with ((claim ++ "-" ++ set) ++ "-" ++ id)%string
      by (rewrite !append_assoc; reflexivity).
    rewrite (numbered_name rand_Uint32 _ id i Hi).
    change ("-" ++ set)%string with (String "-" set).
    rewrite (LastIndexByte_app claim set "-" Hset), slice_from_app.
    pose proof (len_nonneg claim).
    destruct (Z.eqb_spec (len claim) (-1)); [lia | reflexivity]. }
  unfold ChooseZoneForVolume, ChooseZonesForVolume. rewrite (H claim1), (H claim2).
  split; reflexivity.
Qed.

Lemma claims_of_one_member_share_zones_witness :
  ChooseZoneForVolume 0 ["a"; "b"; "c"] ("data" ++ "-" ++ "web" ++ "-" ++ "2")
  = ChooseZoneForVolume 0 ["a"; "b"; "c"] ("logs" ++ "-" ++ "web" ++ "-" ++ "2") /\
  ChooseZonesForVolume 0 ["a"; "b"; "c"] ("data" ++ "-" ++ "web" ++ "-" ++ "2") 2
  = ChooseZonesForVolume 0 ["a"; "b"; "c"] ("logs" ++ "-" ++ "web" ++ "-" ++ "2") 2.
Proof.
  apply (claims_of_one_member_share_zones 0 ["a"; "b"; "c"] "data" "logs" "web" "2" 2).
  - reflexivity.
  - discriminate.
Defined.


Lemma fnv32_from_nonneg (s : string) (h : Z) : (0 <= h)%Z -> (0 <= fnv32_from h s)%Z.
Proof.
  revert h. induction s as [| c s IH]; intros h Hh; simpl; [exact Hh |].
  apply IH. apply Z.lxor_nonneg. split; intros _; [lia |].
  unfold uint32. apply Z.mod_pos_bound. reflexivity.
Qed.

Lemma fnv32_nonneg (s : string) : (0 <= fnv32 s)%Z.
Proof. apply fnv32_from_nonneg. unfold fnv_offset32. lia. Qed.

Lemma distinct_positions (zs : list string) (i j : Z) (a b : string) :
  sorted zs -> (0 <= i)%Z -> (0 <= j)%Z -> i <> j ->
  nth_error zs (Z.to_nat i) = Some a -> nth_error zs (Z.to_nat j) = Some b -> a <> b.
Proof.
  intros Hs Hi Hj Hne Ha Hb ->. apply sorted_NoDup in Hs.
  assert (Hlt : (Z.to_nat i < length zs)%nat) by (apply nth_error_Some; congruence).
  pose proof (proj1 (List.NoDup_nth_error zs) Hs (Z.to_nat i) (Z.to_nat j) Hlt) as H.
  rewrite Ha, Hb in H. specialize (H eq_refl). lia.
Qed.

(** X13. Claims [base-i] and [base-(i+1)] of consecutive members of a
    StatefulSet are given neighbouring zones of the sorted zone list (the
    one after the last zone is the first), hence different zones when
    there are at least two; this holds as long as the 32-bit sum of the
    hash and the index does not wrap around. *)
Theorem consecutive_members_neighbouring_zones (rand_Uint32 : Z) (zones : StringSet.t)
    (base id1 id2 : string) (i : Z) :
  sorted zones -> (2 <= Z.of_nat (length zones) < 2 ^ 32)%Z ->
  ParseUint32 id1 = Some i -> ParseUint32 id2 = Some (i + 1)%Z ->
  (let '(hash, index) := getPVCNameHashAndIndexOffset rand_Uint32 (base ++ "-" ++ id1) in
   hash + index + 1 < 2 ^ 32)%Z ->
  exists (k : Z) (zone1 zone2 : string),
    ChooseZoneForVolume rand_Uint32 zones (base ++ "-" ++ id1) = Returns zone1 /\
    ChooseZoneForVolume rand_Uint32 zones (base ++ "-" ++ id2) = Returns zone2 /\
    (0 <= k < Z.of_nat (length zones))%Z /\
    nth_error zones (Z.to_nat k) = Some zone1 /\
    nth_error zones (Z.to_nat ((k + 1) mod Z.of_nat (length zones))) = Some zone2 /\
    zone1 <> zone2.
Proof.
  intros Hs Hn H1 H2. rewrite (numbered_name rand_Uint32 base id1 i H1).
  set (h := fnv32 _). intros Hwrap.
  assert (Hh : (0 <= h)%Z) by apply fnv32_nonneg.
  destruct (ParseUint32_Some id1 i H1) as (_ & Hi & _).
  unfold ChooseZoneForVolume, Len, List.
  rewrite (numbered_name rand_Uint32 base id1 i H1), (numbered_name rand_Uint32 base id2 _ H2).
  fold h. destruct (Z.eqb_spec (Z.of_nat (length zones)) 0) as [? | _]; [lia |].
  unfold is_uint32 in Hi.
  rewrite (uint32_small (h + i)) by (unfold is_uint32; lia).
  rewrite (uint32_small (h + (i + 1))) by (unfold is_uint32; lia).
  set (n := Z.of_nat (length zones)) in *.
  destruct (zone_at_Some zones (h + i)) as (z1 & Hz1 & Hn1); [lia | lia |].
  destruct (zone_at_Some zones (h + (i + 1))) as (z2 & Hz2 & Hn2); [lia | lia |].
  fold n in Hn1, Hn2.
  assert (Hk : ((h + (i + 1)) mod n = ((h + i) mod n + 1) mod n)%Z).
  { rewrite Z.add_mod_idemp_l by lia. f_equal. lia. }
  pose proof (Z.mod_pos_bound (h + i) n) as Hb.
  exists ((h + i) mod n)%Z, z1, z2. rewrite <- Hk.
  split; [exact Hz1 |]. split; [exact Hz2 |]. split; [lia |].
  split; [exact Hn1 |]. split; [exact Hn2 |].
  pose proof (Z.mod_pos_bound (h + (i + 1)) n) as Hb2.
  eapply (distinct_positions zones _ _ z1 z2 Hs); [| | | exact Hn1 | exact Hn2]; try lia.
  rewrite Hk. intros He. specialize (Hb ltac:(lia)).
  destruct (Z.eq_dec ((h + i) mod n + 1)%Z n) as [Hlast | Hnot].
  - rewrite Hlast, Z.mod_same in He by lia. rewrite He in Hlast. lia.
  - rewrite (Z.mod_small (_ + 1)) in He by lia. lia.
Qed.

Lemma consecutive_members_neighbouring_zones_witness :
  exists (k : Z) (zone1 zone2 : string),
    ChooseZoneForVolume 0 ["a"; "b"; "c"] ("www-web" ++ "-" ++ "0") = Returns zone1 /\
    ChooseZoneForVolume 0 ["a"; "b"; "c"] ("www-web" ++ "-" ++ "1") = Returns zone2 /\
    (0 <= k < Z.of_nat (length ["a"; "b"; "c"]))%Z /\
    nth_error ["a"; "b"; "c"] (Z.to_nat k) = Some zone1 /\
    nth_error ["a"; "b"; "c"] (Z.to_nat ((k + 1) mod Z.of_nat (length ["a"; "b"; "c"])))
    = Some zone2 /\
    zone1 <> zone2.
Proof.
  apply (consecutive_members_neighbouring_zones 0 ["a"; "b"; "c"] "www-web" "0" "1" 0).
  - apply (NewString_sorted ["a"; "b"; "c"]).
  - vm_compute. split; [discriminate | reflexivity].
  - reflexivity.
  - reflexivity.
  - vm_compute. reflexivity.
Defined.

Example fnv32_test_vectors :
  fnv32 "" = 2166136261%Z /\ fnv32 "a" = 84696446%Z /\ fnv32 "foobar" = 837857890%Z.
Proof. repeat split; vm_compute; reflexivity. Qed.

Example ChooseZoneForVolume_round_robin :
  let zones := ["us-east-1a"; "us-east-1b"; "us-east-1c"] in
  map (ChooseZoneForVolume 0 zones) ["www-web-0"; "www-web-1"; "www-web-2"; "www-web-3"]
  = map Returns ["us-east-1a"; "us-east-1b"; "us-east-1c"; "us-east-1a"] /\
  ChooseZoneForVolume 0 zones "logs-web-1" = Returns "us-east-1b" /\
  ChooseZoneForVolume 0 [] "www-web-0" = Returns "" /\
  ChooseZonesForVolume 0 zones "www-web-0" 2 = Returns ["us-east-1a"; "us-east-1b"] /\
  ChooseZonesForVolume 0 zones "www-web-1" 2 = Returns ["us-east-1a"; "us-east-1c"] /\
  ChooseZonesForVolume 0 zones "www" 5
  = Returns ["us-east-1a"; "us-east-1b"; "us-east-1c"] /\
  ChooseZonesForVolume 0 zones "www-web-4294967295" 1 = Returns [].
Proof. cbv zeta. repeat split; vm_compute; reflexivity. Qed.

(** *** Several zones *)

Lemma Insert_length_le (x : string) (s : list string) :
  (length (Insert x s) <= S (length s))%nat.
Proof.
  unfold Insert. induction s as [| y s IH]; simpl; [lia |].
  destruct (String.compare x y); simpl; lia.
Qed.

Lemma Insert_length_new (x : string) (s : list string) :
  ~ In x s -> length (Insert x s) = S (length s).
Proof.
  unfold Insert. induction s as [| y s IH]; simpl; [reflexivity |].
  intros Hn. destruct (String.compare x y) eqn:Hc; simpl.
  - apply String.compare_eq_iff in Hc. subst. tauto.
  - reflexivity.
  - rewrite IH; tauto.
Qed.

Lemma chooseLoop_Returns (zs : list string) (hash bound : Z) :
  forall (fuel : nat) (index : Z) (acc chosen : StringSet.t),
    chooseLoop fuel zs hash index bound acc = Returns chosen ->
    (forall z, In z chosen -> In z acc \/ In z zs) /\
    (forall z, In z acc -> In z chosen) /\
    (sorted acc -> sorted chosen) /\
    (length chosen <= length acc + fuel)%nat.
Proof.
  induction fuel as [| fuel IH]; intros index acc chosen; simpl.
  - intros [= <-]. repeat split; auto; lia.
  - destruct (index <? bound)%Z; [| intros [= <-]; repeat split; auto; lia].
    destruct (zone_at zs (uint32 (hash + index))) as [zone | msg] eqn:Hz; [| discriminate].
    intros H. apply IH in H as (H1 & H2 & H3 & H4).
    pose proof (zone_at_In _ _ _ Hz) as Hin0.
    pose proof (Insert_length_le zone acc) as Hlen.
    split; [| split; [| split]].
    + intros z Hin. apply H1 in Hin as [Hin | Hin]; [| auto].
      apply In_Insert in Hin as [-> | ?]; auto.
    + intros z Hin. apply H2, In_Insert. auto.
    + intros Hs. apply H3, Insert_sorted, Hs.
    + lia.
Qed.

Lemma chooseLoop_total (zs : list string) (hash bound : Z) :
  (0 < length zs)%nat -> (Z.of_nat (length zs) < 2 ^ 32)%Z ->
  forall (fuel : nat) (index : Z) (acc : StringSet.t),
    exists chosen, chooseLoop fuel zs hash index bound acc = Returns chosen.
Proof.
  intros Hpos Hlt. induction fuel as [| fuel IH]; intros index acc; simpl; [eauto |].
  destruct (index <? bound)%Z; [| eauto].
  destruct (zone_at_Some zs (uint32 (hash + index)) Hpos Hlt) as (z & -> & _). apply IH.
Qed.

(** X14. [ChooseZonesForVolume] on a set of fewer than [2^32] zones returns
    a set of zones, all of them taken from the given set, and never more
    than [numZones] of them. *)
Theorem ChooseZonesForVolume_within (rand_Uint32 : Z) (zones : StringSet.t)
    (pvcName : string) (numZones : Z) :
  (Z.of_nat (length zones) < 2 ^ 32)%Z -> is_uint32 numZones ->
  exists chosen : StringSet.t,
    ChooseZonesForVolume rand_Uint32 zones pvcName numZones = Returns chosen /\
    (forall z, In z chosen -> In z zones) /\
    sorted chosen /\
    (Z.of_nat (length chosen) <= numZones)%Z.
Proof.
  intros Hlt Hnum. unfold ChooseZonesForVolume, Len, List, is_uint32 in *.
  destruct (Z.eqb_spec (Z.of_nat (length zones)) 0) as [_ | Hne].
  - exists []. repeat split; [intros z [] | constructor | simpl; lia].
  - destruct (getPVCNameHashAndIndexOffset rand_Uint32 pvcName) as [hash index].
    set (start := uint32 (index * numZones)). set (bound := uint32 (start + numZones)).
    destruct (chooseLoop_total zones hash bound ltac:(lia) Hlt
                (Z.to_nat (bound - start)) start (NewString [])) as [chosen Hc].
    exists chosen. split; [exact Hc |].
    apply chooseLoop_Returns in Hc as (H1 & _ & H3 & H4).
    split; [| split].
    + intros z Hz. apply H1 in Hz as [[] | Hz]. exact Hz.
    + apply H3. constructor.
    + assert (Hs : (0 <= start)%Z) by (apply uint32_range).
      assert (Hb : (bound <= start + numZones)%Z).
      { subst bound. unfold uint32. apply Z.mod_le; [lia | reflexivity]. }
      simpl in H4. lia.
Qed.

Lemma ChooseZonesForVolume_within_witness :
  exists chosen : StringSet.t,
    ChooseZonesForVolume 0 ["a"; "b"; "c"] "www-web-1" 2 = Returns chosen /\
    (forall z, In z chosen -> In z ["a"; "b"; "c"]) /\
    sorted chosen /\
    (Z.of_nat (length chosen) <= 2)%Z.
Proof.
  apply (ChooseZonesForVolume_within 0 ["a"; "b"; "c"] "www-web-1" 2).
  - vm_compute. reflexivity.
  - unfold is_uint32. vm_compute. split; [discriminate | reflexivity].
Defined.

Lemma mod_eq_close (a b n : Z) :
  (0 < n)%Z -> (a mod n = b mod n)%Z -> (0 < b - a < n)%Z -> False.
Proof.
  intros Hn He Hd.
  assert (H : ((b - a) mod n = 0)%Z).
  { rewrite Zminus_mod, He, Z.sub_diag. apply Z.mod_0_l. lia. }
  rewrite Z.mod_small in H; lia.
Qed.

Lemma chooseLoop_count (zs : list string) (hash start bound : Z) :
  sorted zs -> (0 < Z.of_nat (length zs) < 2 ^ 32)%Z ->
  (0 <= hash)%Z -> (0 <= start)%Z ->
  (bound <= start + Z.of_nat (length zs))%Z -> (hash + bound <= 2 ^ 32)%Z ->
  (bound < 2 ^ 32)%Z ->
  forall (fuel : nat) (index : Z) (acc : StringSet.t),
    (start <= index)%Z -> (index + Z.of_nat fuel = bound)%Z ->
    (forall z, In z acc ->
       exists j, (start <= j < index)%Z /\
                 nth_error zs (Z.to_nat ((hash + j) mod Z.of_nat (length zs))) = Some z) ->
    exists chosen, chooseLoop fuel zs hash index bound acc = Returns chosen /\
                   length chosen = (length acc + fuel)%nat.
Proof.
  intros Hs Hn Hh Hst Hb Hw Hb32. pow32.
  induction fuel as [| fuel IH]; intros index acc Hidx Hfuel Hacc; simpl.
  - eexists. split; [reflexivity | lia].
  - destruct (Z.ltb_spec index bound) as [Hlt | ?]; [| lia].
    rewrite (uint32_small (hash + index)) by (unfold is_uint32; pow32; lia).
    rewrite (uint32_small (index + 1)) by (unfold is_uint32; pow32; lia).
    destruct (zone_at_Some zs (hash + index)) as (z & -> & Hz); [lia | pow32; lia |].
    assert (Hnew : ~ In z acc).
    { intros Hin. destruct (Hacc z Hin) as (j & Hj & Hzj).
      pose proof (Z.mod_pos_bound (hash + j) (Z.of_nat (length zs)) ltac:(lia)).
      pose proof (Z.mod_pos_bound (hash + index) (Z.of_nat (length zs)) ltac:(lia)).
      destruct (Z.eq_dec ((hash + j) mod Z.of_nat (length zs))%Z
                         ((hash + index) mod Z.of_nat (length zs))%Z) as [He | Hne].
      - apply (mod_eq_close (hash + j) (hash + index) (Z.of_nat (length zs))); lia.
      - refine (distinct_positions zs _ _ z z Hs _ _ Hne Hzj Hz eq_refl); lia. }
    destruct (IH (index + 1)%Z (Insert z acc)) as (chosen & Hc & Hlen); [lia | lia | |].
    + intros z' Hin. apply In_Insert in Hin as [-> | Hin].
      * exists index. split; [lia | exact Hz].
      * destruct (Hacc z' Hin) as (j & Hj & Hzj). exists j. split; [lia | exact Hzj].
    + exists chosen. split; [exact Hc |]. rewrite Hlen, (Insert_length_new z acc Hnew). lia.
Qed.

Lemma hash_index_range (rand_Uint32 : Z) (pvcName : string) :
  is_uint32 rand_Uint32 ->
  (0 <= fst (getPVCNameHashAndIndexOffset rand_Uint32 pvcName))%Z /\
  is_uint32 (snd (getPVCNameHashAndIndexOffset rand_Uint32 pvcName)).
Proof.
  intros Hr. unfold getPVCNameHashAndIndexOffset, is_uint32 in *.
  destruct (String.eqb pvcName ""); [simpl; pow32; lia |].
  destruct (negb _).
  - destruct (ParseUint32 _) as [id |].
    + destruct (negb _); simpl; (split; [apply fnv32_nonneg | apply uint32_range]).
    + simpl. split; [apply fnv32_nonneg | pow32; lia].
  - simpl. split; [apply fnv32_nonneg | pow32; lia].
Qed.

(** X15. [ChooseZonesForVolume] returns exactly [numZones] different zones
    when the set has that many, provided the 32-bit arithmetic on the hash
    and the index does not wrap around: [hash + index * numZones + numZones]
    stays below [2^32]. *)
Theorem ChooseZonesForVolume_count (rand_Uint32 : Z) (zones : StringSet.t)
    (pvcName : string) (numZones : Z) :
  sorted zones -> is_uint32 rand_Uint32 ->
  (0 <= numZones <= Z.of_nat (length zones))%Z -> (Z.of_nat (length zones) < 2 ^ 32)%Z ->
  (let '(hash, index) := getPVCNameHashAndIndexOffset rand_Uint32 pvcName in
   hash + index * numZones + numZones < 2 ^ 32)%Z ->
  exists chosen : StringSet.t,
    ChooseZonesForVolume rand_Uint32 zones pvcName numZones = Returns chosen /\
    Z.of_nat (length chosen) = numZones /\ List.NoDup chosen.
Proof.
  intros Hs Hr Hnum Hlt. unfold ChooseZonesForVolume, Len, List.
  pose proof (hash_index_range rand_Uint32 pvcName Hr) as [Hh Hi].
  destruct (getPVCNameHashAndIndexOffset rand_Uint32 pvcName) as [hash index].
  simpl in Hh, Hi. unfold is_uint32 in Hi. intros Hwrap. pow32.
  destruct (Z.eqb_spec (Z.of_nat (length zones)) 0) as [He | Hne].
  - exists []. repeat split; [simpl; lia | constructor].
  - assert (Hprod : (0 <= index * numZones)%Z) by nia.
    rewrite (uint32_small (index * numZones)) by (unfold is_uint32; pow32; lia).
    rewrite (uint32_small (index * numZones + numZones)) by (unfold is_uint32; pow32; lia).
    destruct (chooseLoop_count zones hash (index * numZones) (index * numZones + numZones)
                Hs ltac:(pow32; lia) Hh Hprod ltac:(lia) ltac:(pow32; lia) ltac:(pow32; lia)
                (Z.to_nat (index * numZones + numZones - index * numZones))
                (index * numZones)%Z (NewString []))
      as (chosen & Hc & Hlen); [lia | lia | intros z [] |].
    exists chosen. split; [exact Hc |]. split; [simpl in Hlen; lia |].
    apply sorted_NoDup. apply chooseLoop_Returns in Hc as (_ & _ & H3 & _).
    apply H3. constructor.
Qed.

Lemma ChooseZonesForVolume_count_witness :
  exists chosen : StringSet.t,
    ChooseZonesForVolume 0 ["a"; "b"; "c"] "www-web-1" 2 = Returns chosen /\
    Z.of_nat (length chosen) = 2%Z /\ List.NoDup chosen.
Proof.
  apply (ChooseZonesForVolume_count 0 ["a"; "b"; "c"] "www-web-1" 2).
  - apply (NewString_sorted ["a"; "b"; "c"]).
  - unfold is_uint32. vm_compute. split; [discriminate | reflexivity].
  - vm_compute. split; discriminate.
  - vm_compute. reflexivity.
  - vm_compute. reflexivity.
Defined.

(** *** A zone that has to be among the chosen ones *)

Lemma Delete_length_le (s : list string) (x : string) :
  (length (Delete s x) <= length s)%nat.
Proof.
  unfold Delete. induction s as [| y s IH]; simpl; [lia |].
  destruct (negb (String.eqb x y)); simpl; lia.
Qed.

Lemma ChooseZonesForVolume_Returns (rand_Uint32 : Z) (zones : StringSet.t)
    (pvcName : string) (numZones : Z) (chosen : StringSet.t) :
  ChooseZonesForVolume rand_Uint32 zones pvcName numZones = Returns chosen ->
  forall z, In z chosen -> In z zones.
Proof.
  unfold ChooseZonesForVolume, List.
  destruct (Len zones =? 0)%Z; [intros [= <-] z [] |].
  destruct (getPVCNameHashAndIndexOffset rand_Uint32 pvcName) as [hash index].
  intros H z Hz. apply chooseLoop_Returns in H as (H1 & _).
  apply H1 in Hz as [[] | Hz]. exact Hz.
Qed.

Lemma including_subset (rand_Uint32 : Z) (fmt_set : StringSet.t -> string)
    (zones : StringSet.t) (pvcName zone : string) (numReplicas : Z)
    (chosen : option StringSet.t) (zones' : StringSet.t) :
  chooseZonesForVolumeIncludingZone rand_Uint32 fmt_set zones pvcName zone numReplicas
  = Returns (chosen, None, zones') ->
  exists c, chosen = Some c /\ (forall z, In z c -> In z zones) /\
            (zone <> "" -> In zone c).
Proof.
  unfold chooseZonesForVolumeIncludingZone.
  destruct (numReplicas =? 0)%Z; [discriminate |].
  destruct (uint32 (Len zones) <? numReplicas)%Z; [discriminate |].
  destruct (String.eqb_spec zone "") as [-> | Hne]; simpl negb; cbv iota.
  - simpl andb. cbv iota.
    destruct (uint32 (Len zones) =? numReplicas)%Z.
    + intros [= <- <-]. exists zones. repeat split; auto. congruence.
    + destruct (ChooseZonesForVolume rand_Uint32 zones pvcName numReplicas) as [c | msg] eqn:Hc;
        [| discriminate].
      intros [= <- <-]. exists c. repeat split; [| congruence].
      eapply ChooseZonesForVolume_Returns, Hc.
  - destruct (Has zones zone) eqn:Hhas; simpl; [| discriminate].
    apply Has_In in Hhas.
    destruct (uint32 (Len zones) =? numReplicas)%Z.
    + intros [= <- <-]. exists zones. repeat split; auto.
    + destruct (ChooseZonesForVolume rand_Uint32 (Delete zones zone) pvcName
                  (uint32 (numReplicas - 1))) as [c | msg] eqn:Hc; [| discriminate].
      intros [= <- <-]. exists (Insert zone c). split; [reflexivity |]. split.
      * intros z Hz. apply In_Insert in Hz as [-> | Hz]; [exact Hhas |].
        apply (ChooseZonesForVolume_Returns _ _ _ _ _ Hc), In_Delete in Hz. tauto.
      * intros _. apply In_Insert. auto.
Qed.

(** X16. [chooseZonesForVolumeIncludingZone] on a set of fewer than [2^32]
    zones never panics.  It fails, and leaves the set alone, exactly when
    no replica is asked for, the set has too few zones, or the zone to
    include is not in the set: a failure has one of the three reasons, and a
    success has none of them.  On success it returns at most [numReplicas]
    zones of the set, the zone to include among them; and unless the set has
    just [numReplicas] zones, the zone to include has been deleted from the
    set of the caller. *)
Theorem chooseZonesForVolumeIncludingZone_includes (rand_Uint32 : Z)
    (fmt_set : StringSet.t -> string) (zones : StringSet.t)
    (pvcName zone : string) (numReplicas : Z) :
  (Z.of_nat (length zones) < 2 ^ 32)%Z -> is_uint32 numReplicas ->
  match chooseZonesForVolumeIncludingZone rand_Uint32 fmt_set zones pvcName zone
          numReplicas with
  | Returns (Some chosen, None, zones') =>
      (numReplicas <> 0%Z /\ (numReplicas <= Z.of_nat (length zones))%Z /\
       (zone <> "" -> In zone zones)) /\
      (zone <> "" -> In zone chosen) /\
      (forall z, In z chosen -> In z zones) /\
      (Z.of_nat (length chosen) <= numReplicas)%Z /\
      zones' = (if String.eqb zone "" || (Z.of_nat (length zones) =? numReplicas)%Z
                then zones else Delete zones zone)
  | Returns (None, Some _, zones') =>
      zones' = zones /\
      (numReplicas = 0%Z \/ (Z.of_nat (length zones) < numReplicas)%Z \/
       (zone <> "" /\ ~ In zone zones))
  | _ => False
  end.
Proof.
  intros Hlt Hnum.
  unfold chooseZonesForVolumeIncludingZone. unfold Len.
  rewrite (uint32_small (Z.of_nat (length zones))) by (unfold is_uint32; lia).
  unfold is_uint32 in Hnum.
  destruct (Z.eqb_spec numReplicas 0) as [Hz0 | Hn0];
    [split; [reflexivity | left; exact Hz0] |].
  destruct (Z.ltb_spec (Z.of_nat (length zones)) numReplicas) as [Hfew | Henough];
    [split; [reflexivity | right; left; exact Hfew] |].
  destruct (String.eqb_spec zone "") as [-> | Hne]; simpl negb; cbv iota.
  - assert (Hnone : numReplicas <> 0%Z /\
                    (numReplicas <= Z.of_nat (length zones))%Z /\
                    ("" <> "" -> In "" zones)).
    { split; [exact Hn0 |]. split; [lia |]. intros H. contradiction H. reflexivity. }
    simpl andb. cbv iota. simpl orb. cbv iota.
    destruct (Z.eqb_spec (Z.of_nat (length zones)) numReplicas) as [He | Hd].
    + split; [exact Hnone |]. repeat split; auto; try congruence; try lia.
    + destruct (ChooseZonesForVolume_within rand_Uint32 zones pvcName numReplicas Hlt)
        as (c & Hc & Hin & _ & Hlen); [exact Hnum |].
      rewrite Hc. split; [exact Hnone |].
      repeat split; auto; try congruence; try lia.
  - destruct (Has zones zone) eqn:Hhas; simpl andb; cbv iota.
    2:{ split; [reflexivity |]. right. right. split; [exact Hne |].
        intros Hin. apply Has_In in Hin. congruence. }
    assert (Hnone : numReplicas <> 0%Z /\
                    (numReplicas <= Z.of_nat (length zones))%Z /\
                    (zone <> "" -> In zone zones)).
    { split; [exact Hn0 |]. split; [lia |]. intros _. apply Has_In. exact Hhas. }
    simpl orb.
    destruct (Z.eqb_spec (Z.of_nat (length zones)) numReplicas) as [He | Hd].
    + apply Has_In in Hhas. split; [exact Hnone |]. repeat split; auto; try lia.
    + pose proof (Delete_length_le zones zone) as Hdl.
      rewrite (uint32_small (numReplicas - 1)) by (unfold is_uint32; lia).
      destruct (ChooseZonesForVolume_within rand_Uint32 (Delete zones zone) pvcName
                  (numReplicas - 1)) as (c & Hc & Hin & _ & Hlen);
        [lia | unfold is_uint32; lia |].
      rewrite Hc. apply Has_In in Hhas.
      pose proof (Insert_length_le zone c).
      split; [exact Hnone |].
      split; [intros _; apply In_Insert; auto |].
      split; [| split; [lia | reflexivity]].
      intros z Hz. apply In_Insert in Hz as [-> | Hz]; [exact Hhas |].
      apply Hin, In_Delete in Hz. tauto.
Qed.

Lemma chooseZonesForVolumeIncludingZone_includes_witness :
  match chooseZonesForVolumeIncludingZone 0 (fun _ => "") ["a"; "b"; "c"] "www-web-0" "c" 2 with
  | Returns (Some chosen, None, zones') =>
      (2%Z <> 0%Z /\ (2 <= Z.of_nat (length ["a"; "b"; "c"]))%Z /\
       ("c" <> "" -> In "c" ["a"; "b"; "c"])) /\
      ("c" <> "" -> In "c" chosen) /\
      (forall z, In z chosen -> In z ["a"; "b"; "c"]) /\
      (Z.of_nat (length chosen) <= 2)%Z /\
      zones' = (if String.eqb "c" "" || (Z.of_nat (length ["a"; "b"; "c"]) =? 2)%Z
                then ["a"; "b"; "c"] else Delete ["a"; "b"; "c"] "c")
  | Returns (None, Some _, zones') =>
      zones' = ["a"; "b"; "c"] /\
      (2%Z = 0%Z \/ (Z.of_nat (length ["a"; "b"; "c"]) < 2)%Z \/
       ("c" <> "" /\ ~ In "c" ["a"; "b"; "c"]))
  | _ => False
  end.
Proof.
  apply (chooseZonesForVolumeIncludingZone_includes 0 (fun _ => "") ["a"; "b"; "c"]
           "www-web-0" "c" 2).
  - vm_compute. reflexivity.
  - unfold is_uint32. vm_compute. split; [discriminate | reflexivity].
Defined.

Example chooseZonesForVolumeIncludingZone_examples :
  chooseZonesForVolumeIncludingZone 0 (fun _ => "") ["a"; "b"; "c"] "www-web-0" "c" 2
  = Returns (Some ["b"; "c"], None, ["a"; "b"]) /\
  chooseZonesForVolumeIncludingZone 0 (fun _ => "") ["a"; "b"; "c"] "www-web-0" "c" 3
  = Returns (Some ["a"; "b"; "c"], None, ["a"; "b"; "c"]) /\
  chooseZonesForVolumeIncludingZone 0 (fun _ => "") ["a"; "b"; "c"] "www-web-0" "" 2
  = Returns (Some ["a"; "b"], None, ["a"; "b"; "c"]) /\
  chooseZonesForVolumeIncludingZone 0 (fun _ => "[a b]") ["a"; "b"] "www-web-0" "c" 1
  = Returns (None, Go.Errorf "zone to be included: c needs to be member of set: [a b]",
             ["a"; "b"]).
Proof. repeat split; vm_compute; reflexivity. Qed.

(** *** Zones from the allowed topologies *)

Section Select.
Variable rand_Uint32 : Z.
Variable LabelZoneFailureDomain : string.
Variable fmt_set : StringSet.t -> string.

Lemma insertValues_In (values : list string) (zones : StringSet.t) (z : string) :
  In z (insertValues values zones) <-> In z values \/ In z zones.
Proof.
  unfold insertValues.
  etransitivity; [apply (fold_Insert_In (fun _ => true)) |]. tauto.
Qed.

Lemma zonesOfTerm_inr (exps : list TopologySelectorLabelRequirement)
    (zones result : StringSet.t) :
  zonesOfTerm LabelZoneFailureDomain exps zones = inr result ->
  forall z, In z result <->
            In z zones \/ exists exp, In exp exps /\ Key exp = LabelZoneFailureDomain /\
                                      In z (Values exp).
Proof.
  revert zones. induction exps as [| exp rest IH]; intros zones; simpl.
  - intros [= <-] z. split; [auto |]. intros [H | (? & [] & _)]. exact H.
  - destruct (String.eqb_spec (Key exp) LabelZoneFailureDomain) as [Hk | _]; [| discriminate].
    intros H z. rewrite (IH _ H z), insertValues_In. split.
    + intros [[Hv | Hz] | (e & He & Hke & Hv)]; eauto 8.
    + intros [Hz | (e & [<- | He] & Hke & Hv)]; eauto 8.
Qed.

Lemma zonesOfTerms_inr (terms : list TopologySelectorTerm) (zones result : StringSet.t) :
  zonesOfTerms LabelZoneFailureDomain terms zones = inr result ->
  forall z, In z result <-> In z zones \/ listed LabelZoneFailureDomain terms z.
Proof.
  revert zones. induction terms as [| term rest IH]; intros zones; simpl.
  - intros [= <-] z. split; [auto |]. intros [H | (? & ? & [] & _)]. exact H.
  - destruct (zonesOfTerm LabelZoneFailureDomain (MatchLabelExpressions term) zones)
      as [e | zones1] eqn:H1; [discriminate |].
    intros H z. rewrite (IH _ H z), (zonesOfTerm_inr _ _ _ H1 z). unfold listed. split.
    + intros [[Hz | (exp & He & Hk & Hv)] | (t & exp & Ht & He & Hk & Hv)].
      * auto.
      * right. exists term, exp. simpl. auto.
      * right. exists t, exp. simpl. auto.
    + intros [Hz | (t & exp & [<- | Ht] & He & Hk & Hv)].
      * auto.
      * left. right. eauto.
      * right. exists t, exp. auto.
Qed.

(** X17. [SelectZonesForVolume] keeps to the allowed topologies.  When
    [allowedTopologies] lists at least one zone under the zone key, every
    zone of a successful selection is one of the listed zones, and the
    caller's [zonesWithNodes] is left as it was.  The one way around is a
    node with a single replica: the zone of the node is then returned
    without a look at the topologies. *)
Theorem SelectZonesForVolume_within_allowedTopologies
    (zoneParameterPresent zonesParameterPresent : bool) (zoneParameter : string)
    (zonesParameter zonesWithNodes : StringSet.t) (node : option (gmap string string))
    (allowedTopologies : list TopologySelectorTerm) (pvcName : string) (numReplicas : Z)
    (zones : option StringSet.t) (zonesWithNodes' : StringSet.t) :
  node = None \/ numReplicas <> 1%Z ->
  (exists z, listed LabelZoneFailureDomain allowedTopologies z) ->
  SelectZonesForVolume rand_Uint32 LabelZoneFailureDomain fmt_set
    zoneParameterPresent zonesParameterPresent zoneParameter zonesParameter
    zonesWithNodes node allowedTopologies pvcName numReplicas
  = Returns (zones, None, zonesWithNodes') ->
  zonesWithNodes' = zonesWithNodes /\
  exists chosen,
    zones = Some chosen /\
    forall z, In z chosen -> listed LabelZoneFailureDomain allowedTopologies z.
Proof.
  intros Hnode [z0 Hz0]. unfold SelectZonesForVolume. cbv zeta.
  destruct (zoneParameterPresent && zonesParameterPresent); [discriminate |].
  assert (Hafter : forall zoneFromNode,
             selectZonesPastNode rand_Uint32 LabelZoneFailureDomain fmt_set
               zoneParameterPresent zonesParameterPresent zoneParameter zonesParameter
               zonesWithNodes zoneFromNode allowedTopologies pvcName numReplicas
             = Returns (zones, None, zonesWithNodes') ->
             zonesWithNodes' = zonesWithNodes /\
             exists chosen,
               zones = Some chosen /\
               forall z, In z chosen -> listed LabelZoneFailureDomain allowedTopologies z).
  { intros zoneFromNode. unfold selectZonesPastNode, ZonesFromAllowedTopologies.
    destruct (zonesOfTerms LabelZoneFailureDomain allowedTopologies []) as [e | allowed] eqn:Ha;
      [discriminate |].
    pose proof (zonesOfTerms_inr _ _ _ Ha) as Hin. cbv zeta. simpl default.
    assert (Hne : (0 < Len allowed)%Z).
    { unfold Len. destruct allowed as [| a l]; [| simpl; lia].
      exfalso. apply (proj2 (Hin z0)). right. exact Hz0. }
    destruct (Z.eqb_spec (Len allowed) 0) as [? | _]; [lia |].
    rewrite andb_false_r. destruct (Z.ltb_spec 0 (Len allowed)) as [_ | ?]; [| lia].
    destruct (zoneParameterPresent || zonesParameterPresent); [discriminate |].
    destruct (chooseZonesForVolumeIncludingZone rand_Uint32 fmt_set allowed pvcName
                zoneFromNode numReplicas) as [[[c [e |]] zs] | msg] eqn:Hc; try discriminate.
    intros [= <- <-]. split; [reflexivity |].
    destruct (including_subset _ _ _ _ _ _ _ _ Hc) as (c' & -> & Hsub & _).
    exists c'. split; [reflexivity |]. intros z Hz.
    apply Hsub, Hin in Hz as [[] | Hz]. exact Hz. }
  destruct node as [labels |].
  - destruct (zoneParameterPresent || zonesParameterPresent); [discriminate |].
    destruct (labels !! LabelZoneFailureDomain) as [zoneFromNode |]; [| discriminate].
    destruct (Z.eqb_spec numReplicas 1) as [-> | _].
    + destruct Hnode as [? | Hn]; [discriminate | now contradiction Hn].
    + apply Hafter.
  - apply Hafter.
Qed.

End Select.

Lemma SelectZonesForVolume_within_allowedTopologies_witness :
  ["b"; "c"] = ["b"; "c"] /\
  exists chosen, Some ["c"] = Some chosen /\
                 forall z, In z chosen -> Zones.listed "zone" (oneZone "zone" ["c"; "b"]) z.
Proof.
  apply (SelectZonesForVolume_within_allowedTopologies 0 "zone" (fun _ => "")
           false false "" [] ["b"; "c"] None (oneZone "zone" ["c"; "b"]) "www-web-0" 1).
  - left. reflexivity.
  - exists "b". exists {| MatchLabelExpressions := [ {| Key := "zone"; Values := ["c"; "b"] |} ] |},
      {| Key := "zone"; Values := ["c"; "b"] |}. simpl. intuition.
  - vm_compute. reflexivity.
Defined.

Example SelectZonesForVolume_examples :
  let select := SelectZonesForVolume 0 "zone" (fun _ => "") in
  select false false "" [] ["a"; "b"] (Some {[ "zone" := "a" ]}) [] "www-web-0" 1%Z
  = Returns (Some ["a"], None, ["a"; "b"]) /\
  select false false "" [] ["a"; "b"; "c"] (Some {[ "zone" := "c" ]}) [] "www-web-0" 2%Z
  = Returns (Some ["b"; "c"], None, ["a"; "b"]) /\
  select false false "" [] ["a"; "b"] (Some {[ "zone" := "z" ]}) (oneZone "zone" ["a"]) "pvc" 1%Z
  = Returns (Some ["z"], None, ["a"; "b"]) /\
  select true true "a" ["a"] [] None [] "pvc" 1%Z
  = Returns (None, Go.Errorf
      "both zone and zones StorageClass parameters must not be used at the same time", []) /\
  select false true "" ["a"; "b"] [] None [] "pvc" 0%Z = Returns (Some [], None, []) /\
  select false false "" [] [] None (oneZone "region" ["r"]) "pvc" 1%Z
  = Returns (None, Go.Errorf "unsupported key found in matchLabelExpressions: region", []).
Proof. cbv zeta. repeat split; vm_compute; reflexivity. Qed.

End ZoneFacts.
(** ** The disk plugins: specs, mounters and reconstructed volumes *)

Module PluginFacts.
Import Node VolumeSpec GoStr StrFacts StringSetFacts.
#[local] Arguments String.append !_ _ / : simpl nomatch.

(** X18. For the EBS and the PD plugin alike, [CanSupport],
    [GetVolumeName] and [newMounterInternal] agree on every spec: either
    the plugin supports the spec, a mounter is built and its disk is the
    one [GetVolumeName] names; or it does not, and both fail.  The mounter
    is read-only by the flag of the pod's volume when the spec has one with
    the plugin's source, and by the flag of the spec otherwise. *)
Theorem CanSupport_agrees_with_newMounterInternal
    (spec_Name : Spec -> string) (MountOptionAnnotation : string) (host : VolumeHost)
    (spec : Spec) (podUID : string) :
  match AwsEbsPlugin.newMounterInternal spec_Name MountOptionAnnotation host spec podUID with
  | (Some m, None) =>
      AwsEbsPlugin.CanSupport spec = true /\
      AwsEbsPlugin.GetVolumeName spec = (AwsEbs.volumeID m, None) /\
      AwsEbs.readOnly m =
        match Volume spec with
        | Some {| Vol.AWSElasticBlockStore := Some ebs |} => EBS.ReadOnly ebs
        | _ => ReadOnly spec
        end
  | (None, Some e) =>
      AwsEbsPlugin.CanSupport spec = false /\ AwsEbsPlugin.GetVolumeName spec = ("", Some e)
  | _ => False
  end /\
  match GcePdPlugin.newMounterInternal spec_Name MountOptionAnnotation host spec podUID with
  | (Some m, None) =>
      GcePdPlugin.CanSupport spec = true /\
      GcePdPlugin.GetVolumeName spec = (GcePd.pdName m, None) /\
      GcePd.readOnly m =
        match Volume spec with
        | Some {| Vol.GCEPersistentDisk := Some pd |} => PD.ReadOnly pd
        | _ => ReadOnly spec
        end
  | (None, Some e) =>
      GcePdPlugin.CanSupport spec = false /\ GcePdPlugin.GetVolumeName spec = ("", Some e)
  | _ => False
  end.
Proof.
  destruct spec as [[[vn va vg] |] [[pn pa pe pg pm] |] ro];
    split;
    unfold AwsEbsPlugin.newMounterInternal, AwsEbsPlugin.GetVolumeName,
      AwsEbsPlugin.getVolumeSource, AwsEbsPlugin.CanSupport,
      GcePdPlugin.newMounterInternal, GcePdPlugin.GetVolumeName,
      GcePdPlugin.getVolumeSource, GcePdPlugin.CanSupport, notNil; simpl;
    repeat match goal with
           | |- context [match ?x with Some _ => _ | None => _ end] => destruct x; simpl
           end;
    repeat split; reflexivity.
Qed.

(** *** The volume ID behind a global mount path *)

Lemma Split_never_nil (s : string) (sep : ascii) : GoStrings.Split s sep <> [].
Proof.
  induction s as [| c s IH]; simpl; [discriminate |].
  destruct (Ascii.eqb c sep); [discriminate |].
  destruct (GoStrings.Split s sep); [contradiction | discriminate].
Qed.

Lemma Split_without (a : string) (sep : ascii) :
  Contains a (String sep "") = false -> GoStrings.Split a sep = [a].
Proof.
  induction a as [| x a IH]; [reflexivity |].
  rewrite Contains_cons. intros H. apply orb_false_iff in H as [Hx Ha].
  simpl. rewrite Ascii.eqb_sym, Hx, (IH Ha). reflexivity.
Qed.

Lemma Split_app (a b : string) (sep : ascii) :
  Contains a (String sep "") = false ->
  GoStrings.Split (a ++ String sep b) sep = a :: GoStrings.Split b sep.
Proof.
  induction a as [| x a IH]; intros H.
  - simpl. now rewrite Ascii.eqb_refl.
  - rewrite Contains_cons in H. apply orb_false_iff in H as [Hx Ha].
    simpl. rewrite Ascii.eqb_sym, Hx, (IH Ha). reflexivity.
Qed.

Lemma replace_without_colon (fuel : nat) (s : string) :
  Contains s ":" = false -> GoStrings.replace_fuel fuel s "://" "/" = s.
Proof.
  revert s. induction fuel as [| fuel IH]; intros s; [reflexivity |].
  destruct s as [| c s]; [reflexivity |].
  rewrite Contains_cons. intros H. apply orb_false_iff in H as [Hc Hs].
  cbn [GoStrings.replace_fuel String.prefix].
  destruct (ascii_dec ":" c) as [<- | _]; [discriminate Hc |].
  now rewrite (IH s Hs).
Qed.

Lemma replace_fuel_skip (fuel : nat) (c : ascii) (s old new : string) :
  String.prefix old (String c s) = false ->
  GoStrings.replace_fuel (S fuel) (String c s) old new
  = String c (GoStrings.replace_fuel fuel s old new).
Proof. intros H. cbn [GoStrings.replace_fuel]. now rewrite H. Qed.

Lemma replace_fuel_hit (fuel : nat) (c : ascii) (s old new : string) :
  String.prefix old (String c s) = true ->
  GoStrings.replace_fuel (S fuel) (String c s) old new
  = (new ++ GoStrings.replace_fuel fuel
              (GoStrings.drop (String.length old) (String c s)) old new)%string.
Proof. intros H. cbn [GoStrings.replace_fuel]. now rewrite H. Qed.

Lemma Replace_url (zone rest : string) :
  Contains zone ":" = false -> Contains rest ":" = false ->
  GoStrings.Replace ("aws://" ++ zone ++ "/" ++ rest) "://" "/"
  = ("aws/" ++ zone ++ "/" ++ rest)%string.
Proof.
  intros Hz Hr. unfold GoStrings.Replace.
  set (T := (zone ++ "/" ++ rest)%string).
  assert (HT : Contains T ":" = false).
  { subst T. change ("/" ++ rest)%string with (String "/" rest).
    rewrite Contains_append, Contains_cons, Hz, Hr. reflexivity. }
  change ("aws://" ++ T)%string
    with (String "a" (String "w" (String "s" (String ":" (String "/" (String "/" T)))))).
  cbn [String.length].
  rewrite 3 replace_fuel_skip by reflexivity.
  rewrite replace_fuel_hit by (generalize T; intros t; destruct t; reflexivity).
  cbn [String.length GoStrings.drop].
  rewrite (replace_without_colon _ T HT). reflexivity.
Qed.

Lemma HasPrefix_app (p s : string) : GoStrings.HasPrefix (p ++ s) p = true.
Proof.
  unfold GoStrings.HasPrefix. induction p as [| c p IH]; [apply prefix_empty |].
  simpl. destruct (ascii_dec c c); [exact IH | congruence].
Qed.

(** X19. [ConstructVolumeSpec] of the EBS plugin undoes the cleaning of
    [makeGlobalPDPath].  For a volume ID [aws://zone/vol-id] (the zone may
    be empty), when the mounter reports as the device name the name that
    [makeGlobalPDPath] derives from the ID ([://] replaced by [/]), the
    reconstructed volume carries the ID again; so it does for the name
    [aws/vol-id], which is what is left of an empty zone once the path is
    cleaned. *)
Theorem ConstructVolumeSpec_recovers_volumeID (host : VolumeHost)
    (zone id volName mountPath : string) :
  Contains zone "/" = false -> Contains zone ":" = false ->
  Contains id "/" = false -> Contains id ":" = false ->
  let volume (volumeID : string) := {|
    Vol.Name := volName;
    Vol.AWSElasticBlockStore :=
      Some {| EBS.VolumeID := volumeID; EBS.FSType := "";
              EBS.Partition := 0; EBS.ReadOnly := false |};
    Vol.GCEPersistentDisk := None |} in
  let volumeID := ("aws://" ++ zone ++ "/" ++ "vol-" ++ id)%string in
  AwsEbsPlugin.ConstructVolumeSpec host
    (fun _ _ => (GoStrings.Replace volumeID "://" "/", None)) volName mountPath
  = (Some (volume volumeID), None) /\
  AwsEbsPlugin.ConstructVolumeSpec host
    (fun _ _ => (("aws/" ++ "vol-" ++ id)%string, None)) volName mountPath
  = (Some (volume ("aws:///" ++ "vol-" ++ id)%string), None).
Proof.
  intros Hz1 Hz2 Hi1 Hi2. cbv zeta.
  assert (Hv1 : Contains ("vol-" ++ id) "/" = false) by (simpl; rewrite Hi1; reflexivity).
  assert (Hv2 : Contains ("vol-" ++ id) ":" = false) by (simpl; rewrite Hi2; reflexivity).
  assert (Hvol : GoStrings.HasPrefix ("vol-" ++ id) "vol-" = true) by apply HasPrefix_app.
  split.
  - rewrite (Replace_url zone ("vol-" ++ id) Hz2 Hv2).
    assert (Hsplit : GoStrings.Split ("aws/" ++ zone ++ "/" ++ "vol-" ++ id) "/"
                     = ["aws"; zone; ("vol-" ++ id)%string]).
    { change ("aws/" ++ zone ++ "/" ++ "vol-" ++ id)%string
        with ("aws" ++ String "/" (zone ++ String "/" ("vol-" ++ id)))%string.
      now rewrite (Split_app "aws" _ "/" eq_refl), (Split_app zone _ "/" Hz1),
        (Split_without _ "/" Hv1). }
    assert (Hpre : GoStrings.HasPrefix ("aws/" ++ zone ++ "/" ++ "vol-" ++ id) "aws/" = true)
      by apply (HasPrefix_app "aws/").
    set (dev := ("aws/" ++ zone ++ "/" ++ "vol-" ++ id)%string) in *.
    set (vol := ("vol-" ++ id)%string) in *.
    unfold AwsEbsPlugin.ConstructVolumeSpec.
    cbv beta iota zeta delta [Go.is_nil negb]. rewrite Hpre, Hsplit.
    cbn [length Nat.ltb Nat.leb orb Nat.eqb Nat.sub nth negb]. rewrite Hvol. reflexivity.
  - assert (Hsplit : GoStrings.Split ("aws/" ++ "vol-" ++ id) "/"
                     = ["aws"; ("vol-" ++ id)%string]).
    { change ("aws/" ++ "vol-" ++ id)%string with ("aws" ++ String "/" ("vol-" ++ id))%string.
      now rewrite (Split_app "aws" _ "/" eq_refl), (Split_without _ "/" Hv1). }
    assert (Hpre : GoStrings.HasPrefix ("aws/" ++ "vol-" ++ id) "aws/" = true)
      by apply (HasPrefix_app "aws/").
    set (dev := ("aws/" ++ "vol-" ++ id)%string) in *.
    set (vol := ("vol-" ++ id)%string) in *.
    unfold AwsEbsPlugin.ConstructVolumeSpec.
    cbv beta iota zeta delta [Go.is_nil negb]. rewrite Hpre, Hsplit.
    cbn [length Nat.ltb Nat.leb orb Nat.eqb Nat.sub nth negb]. rewrite Hvol. reflexivity.
Qed.

Lemma ConstructVolumeSpec_recovers_volumeID_witness :
  let volume (volumeID : string) := {|
    Vol.Name := "data";
    Vol.AWSElasticBlockStore :=
      Some {| EBS.VolumeID := volumeID; EBS.FSType := "";
              EBS.Partition := 0; EBS.ReadOnly := false |};
    Vol.GCEPersistentDisk := None |} in
  let volumeID := ("aws://" ++ "us-east-1a" ++ "/" ++ "vol-" ++ "0a1b")%string in
  AwsEbsPlugin.ConstructVolumeSpec FakeNode.volumeHost
    (fun _ _ => (GoStrings.Replace volumeID "://" "/", None)) "data" "/mnt"
  = (Some (volume volumeID), None) /\
  AwsEbsPlugin.ConstructVolumeSpec FakeNode.volumeHost
    (fun _ _ => (("aws/" ++ "vol-" ++ "0a1b")%string, None)) "data" "/mnt"
  = (Some (volume ("aws:///" ++ "vol-" ++ "0a1b")%string), None).
Proof.
  apply (ConstructVolumeSpec_recovers_volumeID FakeNode.volumeHost "us-east-1a" "0a1b"
           "data" "/mnt"); reflexivity.
Defined.

Example ConstructVolumeSpec_examples :
  let construct name :=
    AwsEbsPlugin.ConstructVolumeSpec FakeNode.volumeHost (fun _ _ => (name, None))
      "data" "/mnt" in
  let id r := match r with
              | (Some {| Vol.AWSElasticBlockStore := Some ebs |}, None) => EBS.VolumeID ebs
              | _ => ""
              end in
  id (construct "vol-1234") = "vol-1234" /\
  id (construct "aws/vol-1234") = "aws:///vol-1234" /\
  id (construct "aws/us-east-1/vol-1234") = "aws://us-east-1/vol-1234" /\
  snd (construct "aws/us-east-1/a/vol-1234")
  = Go.Errorf ("failed to get AWS volume id from mount path " ++ Go.quote "/mnt"
               ++ ": invalid volume name format " ++ Go.quote "aws/us-east-1/a/vol-1234") /\
  snd (construct "aws/us-east-1/disk")
  = Go.Errorf ("invalid volume name format for AWS volume (" ++ Go.quote "disk"
               ++ ") retrieved from mount path " ++ Go.quote "/mnt").
Proof. cbv zeta. repeat split; vm_compute; reflexivity. Qed.

(** X20. [MountOptionFromSpec] never drops an option that the plugin
    passes in.  What it returns beside them are non-empty options of the
    persistent volume: those of its mount-option annotation when it has
    one, and those of its [MountOptions] field only when it has none. *)
Theorem MountOptionFromSpec_keeps_options (MountOptionAnnotation : string)
    (spec : Spec) (options : list string) (o : string) :
  (In o options -> In o (MountOptionFromSpec MountOptionAnnotation spec options)) /\
  (In o (MountOptionFromSpec MountOptionAnnotation spec options) ->
   In o options \/
   exists pv, PersistentVolume spec = Some pv /\ o <> "" /\
              match PV.Annotations pv !! MountOptionAnnotation with
              | Some mo => In o (GoStrings.Split mo ",")
              | None => In o (PV.MountOptions pv)
              end).
Proof.
  unfold MountOptionFromSpec. destruct (PersistentVolume spec) as [pv |]; [| tauto].
  destruct (PV.Annotations pv !! MountOptionAnnotation) as [mo |] eqn:Ha.
  - rewrite (OptionFacts.JoinMountOptions_In (GoStrings.Split mo ",") options o).
    split; [tauto |]. intros [[H1 H2] | H1]; [right | tauto].
    exists pv. rewrite Ha. split; [reflexivity | split; assumption].
  - destruct (0 <? length (PV.MountOptions pv))%nat; [| tauto].
    rewrite (OptionFacts.JoinMountOptions_In (PV.MountOptions pv) options o).
    split; [tauto |]. intros [[H1 H2] | H1]; [right | tauto].
    exists pv. rewrite Ha. split; [reflexivity | split; assumption].
Qed.

End PluginFacts.
(** ** The CNI plugin: tear-down, the order of the networks, events *)

Module CniMoreFacts.
Import Prog Cni CniTearDown.
Import Go (outcome, Returns, Panics).

Lemma initialized_has_network (plugin : cniNetworkPlugin) :
  checkInitialized plugin = None -> exists n, defaultNetwork plugin = Some n.
Proof.
  unfold checkInitialized. destruct (defaultNetwork plugin) as [n |]; [eauto | discriminate].
Qed.

Section Lib.
Variable ExtractPodBandwidthResources :
  gmap string string -> option Z * option Z * Go.error.
Variable DefaultInterfaceName : string.
Variable strings_ToLower : string -> string.

Let TearDownPod :=
  CniTearDown.TearDownPod ExtractPodBandwidthResources DefaultInterfaceName strings_ToLower.
Let SetUpPod :=
  Cni.SetUpPod ExtractPodBandwidthResources DefaultInterfaceName strings_ToLower.

Ltac answer :=
  match goal with
  | |- forall _ : (string * Go.error)%type, _ => intros [? [? |]]
  | |- forall _ : (list cniPortMapping * Go.error)%type, _ => intros [? [? |]]
  | |- forall _ : Go.error, _ => intros [? |]
  | |- context [ExtractPodBandwidthResources ?a] =>
      destruct (ExtractPodBandwidthResources a) as [[[? |] [? |]] [? |]]
  | |- context [Plugins ?c] => destruct (Plugins c) eqn:?
  | |- context [GoStr.Contains ?a ?b] => destruct (GoStr.Contains a b) eqn:?
  end; simpl.

Ltac membership :=
  repeat match goal with
         | H : _ \/ _ |- _ => destruct H as [<- | H]
         | H : In _ (_ :: _) |- _ => destruct H as [<- | H]
         | H : In _ [] |- _ => destruct H
         | H : False |- _ => destruct H
         end;
  repeat match goal with
         | H : is_Del _ = true |- _ => simpl in H; try discriminate H; clear H
         | H : is_Add _ = true |- _ => simpl in H; try discriminate H; clear H
         end;
  repeat match goal with
         | H : result_of _ = Some _ |- _ => simpl in H; inversion H; subst; clear H
         end.

(** X21. Whatever the host and the CNI library answer, [TearDownPod] never
    performs an ADD, performs at most one DEL, and performs it on the
    default network: the loopback network, which [SetUpPod] adds, is not
    deleted.  When the configuration is not initialized it returns the
    error of [checkInitialized] without any call. *)
Theorem TearDownPod_deletes_only_from_the_default_network
    (plugin : cniNetworkPlugin) (namespace name id : string) :
  always (fun tr r =>
      List.filter is_Add tr = [] /\
      (length (List.filter is_Del tr) <= 1)%nat /\
      (forall e, In e tr -> is_Del e = true ->
         exists n, defaultNetwork plugin = Some n /\
                   network_of e = Some (NetworkConfig_ n)) /\
      (checkInitialized plugin <> None ->
         tr = [] /\ r = Returns (checkInitialized plugin)))
    (TearDownPod plugin namespace name id).
Proof.
  unfold TearDownPod, CniTearDown.TearDownPod, deleteFromNetwork, buildCNIRuntimeConf.
  destruct (checkInitialized plugin) as [e |] eqn:Hinit; simpl.
  - repeat split; auto. intros e0 [].
  - destruct (defaultNetwork plugin) as [n |] eqn:Hn; simpl;
      repeat answer;
      (split; [reflexivity |]); (split; [lia |]);
      (split; [| intros H; now contradiction H]);
      intros ev Hin Hdel; membership; eauto.
Qed.

(** X22. The tear-down is best effort.  With an initialized configuration
    [TearDownPod] first asks the host for the network namespace of the
    sandbox, and whatever comes back, an error included, it goes on: the
    next call is always the one for the port mappings of the sandbox, and
    when that call and the reading of the bandwidth annotations succeed and
    the default network has a plugin, exactly one DEL follows, on the
    default network and with the namespace path that came back.  The result
    is then the error of the DEL, except that an error whose text holds
    ["no such file or directory"] counts as success. *)
Theorem TearDownPod_is_best_effort (plugin : cniNetworkPlugin)
    (namespace name id : string) :
  checkInitialized plugin = None ->
  always (fun tr r =>
      exists (netnsPath : string) (nsErr : Go.error) (rest : list event),
        tr = Prog.Event (GetNetNS id) (netnsPath, nsErr) :: rest /\
        (forall e err, In e rest -> is_Del e = true -> result_of e = Some err ->
                       netns_of e = Some netnsPath /\
                       r = Returns (ignoringNotFound err)) /\
        exists (portMappings : list cniPortMapping) (pmErr : Go.error)
               (rest' : list event),
          rest = Prog.Event (GetPodPortMappings id) (portMappings, pmErr) :: rest' /\
          (pmErr = None -> (ExtractPodBandwidthResources ∅).2 = None ->
           forall n, defaultNetwork plugin = Some n ->
                     Plugins (NetworkConfig_ n) <> [] ->
                     exists (rt : RuntimeConf) (err : Go.error),
                       rest' = [Prog.Event
                                  (DelNetworkList (CNIConfig n) (NetworkConfig_ n) rt)
                                  err] /\
                       NetNS rt = netnsPath /\
                       r = Returns (ignoringNotFound err)))
    (TearDownPod plugin namespace name id).
Proof.
  intros Hinit.
  unfold TearDownPod, CniTearDown.TearDownPod, deleteFromNetwork, buildCNIRuntimeConf.
  rewrite Hinit. simpl.
  destruct (defaultNetwork plugin) as [n0 |] eqn:Hn0; simpl;
    repeat answer;
    eexists _, _, _; (split; [reflexivity |]); split.
  all: try (intros ev err Hin Hdel Hres; membership;
            unfold ignoringNotFound; simpl;
            repeat match goal with H : GoStr.Contains _ _ = _ |- _ => rewrite H end;
            split; reflexivity).
  all: eexists _, _, _; (split; [reflexivity |]);
    intros Hpm Hbw net Hn Hplugins; simpl in Hbw;
    try discriminate Hpm; try discriminate Hbw; try discriminate Hn;
    injection Hn as <-; try congruence.
  all: eexists _, _; (split; [reflexivity |]); (split; [reflexivity |]);
    unfold ignoringNotFound; simpl;
    repeat match goal with H : GoStr.Contains _ _ = _ |- _ => rewrite H end;
    reflexivity.
Qed.

(** X23. With an initialized configuration and a loopback network,
    [SetUpPod] adds the pod to the loopback network first and to the default
    network second, and to no other.  An ADD that fails ends the set-up:
    its error is the result, so that after a failed loopback ADD the default
    network is not tried; and the set-up succeeds only after both ADDs. *)
Theorem SetUpPod_adds_loopback_first (plugin : cniNetworkPlugin)
    (namespace name id : string) (annotations : gmap string string)
    (lo : cniNetwork) :
  checkInitialized plugin = None -> loNetwork plugin = Some lo ->
  always (fun tr r =>
      exists n, defaultNetwork plugin = Some n /\
        let added := omap network_of (List.filter is_Add tr) in
        (added = [] \/ added = [NetworkConfig_ lo] \/
         added = [NetworkConfig_ lo; NetworkConfig_ n]) /\
        (r = Returns None -> added = [NetworkConfig_ lo; NetworkConfig_ n]) /\
        (forall e err, In e tr -> is_Add e = true -> result_of e = Some (Some err) ->
                       r = Returns (Some err)) /\
        (forall e rest err, List.filter is_Add tr = e :: rest ->
                            result_of e = Some (Some err) -> rest = []))
    (SetUpPod plugin namespace name id annotations).
Proof.
  intros Hinit Hlo. destruct (initialized_has_network plugin Hinit) as [n Hn].
  unfold SetUpPod, Cni.SetUpPod, addToNetwork, buildCNIRuntimeConf.
  rewrite Hinit, Hlo, Hn. simpl.
  repeat answer;
    exists n; (split; [reflexivity |]); cbv zeta; simpl;
    (split; [auto |]); (split; [try discriminate; auto |]);
    (split; [intros ev err Hin Hadd Hres; membership; auto |]);
    intros ev rest err Hadds Hres; inversion Hadds; subst;
    try reflexivity; discriminate Hres.
Qed.

End Lib.

(** The two theorems on the small host of the set-up run. *)
Lemma TearDownPod_is_best_effort_witness :
  always (fun tr r =>
      exists (netnsPath : string) (nsErr : Go.error) (rest : list event),
        tr = Prog.Event (GetNetNS "sandbox-1") (netnsPath, nsErr) :: rest /\
        (forall e err, In e rest -> is_Del e = true -> result_of e = Some err ->
                       netns_of e = Some netnsPath /\
                       r = Returns (ignoringNotFound err)) /\
        exists (portMappings : list cniPortMapping) (pmErr : Go.error)
               (rest' : list event),
          rest = Prog.Event (GetPodPortMappings "sandbox-1") (portMappings, pmErr)
                 :: rest' /\
          (pmErr = None -> (FakeCni.noBandwidth ∅).2 = None ->
           forall n, Some (FakeCni.bridge ∅) = Some n ->
                     Plugins (NetworkConfig_ n) <> [] ->
                     exists (rt : RuntimeConf) (err : Go.error),
                       rest' = [Prog.Event
                                  (DelNetworkList (CNIConfig n) (NetworkConfig_ n) rt)
                                  err] /\
                       NetNS rt = netnsPath /\
                       r = Returns (ignoringNotFound err)))
    (CniTearDown.TearDownPod FakeCni.noBandwidth "eth0" (fun s => s)
       {| loNetwork := Some FakeCni.lo; defaultNetwork := Some (FakeCni.bridge ∅);
          podCidr := "" |} "default" "web-0" "sandbox-1").
Proof.
  apply (TearDownPod_is_best_effort FakeCni.noBandwidth "eth0" (fun s => s)
           {| loNetwork := Some FakeCni.lo; defaultNetwork := Some (FakeCni.bridge ∅);
              podCidr := "" |} "default" "web-0" "sandbox-1").
  reflexivity.
Defined.

Lemma SetUpPod_adds_loopback_first_witness :
  always (fun tr r =>
      exists n, Some (FakeCni.bridge ∅) = Some n /\
        let added := omap network_of (List.filter is_Add tr) in
        (added = [] \/ added = [NetworkConfig_ FakeCni.lo] \/
         added = [NetworkConfig_ FakeCni.lo; NetworkConfig_ n]) /\
        (r = Returns None -> added = [NetworkConfig_ FakeCni.lo; NetworkConfig_ n]) /\
        (forall e err, In e tr -> is_Add e = true -> result_of e = Some (Some err) ->
                       r = Returns (Some err)) /\
        (forall e rest err, List.filter is_Add tr = e :: rest ->
                            result_of e = Some (Some err) -> rest = []))
    (Cni.SetUpPod FakeCni.noBandwidth "eth0" (fun s => s)
       {| loNetwork := Some FakeCni.lo; defaultNetwork := Some (FakeCni.bridge ∅);
          podCidr := "" |} "default" "web-0" "sandbox-1" ∅).
Proof.
  apply (SetUpPod_adds_loopback_first FakeCni.noBandwidth "eth0" (fun s => s)
           {| loNetwork := Some FakeCni.lo; defaultNetwork := Some (FakeCni.bridge ∅);
              podCidr := "" |} "default" "web-0" "sandbox-1" ∅ FakeCni.lo); reflexivity.
Defined.


Example TearDownPod_run :
  let plugin := {| loNetwork := Some FakeCni.lo;
                   defaultNetwork := Some (FakeCni.bridge ∅); podCidr := "" |} in
  let '(r, w, tr) :=
    run FakeCni.handle
      (CniTearDown.TearDownPod FakeCni.noBandwidth "eth0" (fun s => s) plugin
         "default" "web-0" "sandbox-1") 0 in
  r = Returns None /\ w = 0 /\
  map (fun ev => match ev_call ev with
                 | GetNetNS _ => "GetNetNS"
                 | GetPodPortMappings _ => "GetPodPortMappings"
                 | AddNetworkList _ c _ => ("ADD " ++ Name c)%string
                 | DelNetworkList _ c _ => ("DEL " ++ Name c)%string
                 end) tr
  = ["GetNetNS"; "GetPodPortMappings"; "DEL k8s-pod-network"].
Proof. vm_compute. repeat split. Qed.

(** X24. Only the first pod CIDR counts.  After any sequence of events the
    pod CIDR of the plugin is the one it had, if it had one, and otherwise
    the first non-empty CIDR that an event of the pod CIDR change carried;
    events under other names, events without a CIDR and later CIDRs change
    nothing, and no event changes the networks of the plugin. *)
Theorem Events_keep_the_first_pod_CIDR (NET_PLUGIN_EVENT_POD_CIDR_CHANGE : string)
    (plugin : cniNetworkPlugin) (events : list (string * option string)) :
  let plugin' := Events NET_PLUGIN_EVENT_POD_CIDR_CHANGE plugin events in
  podCidr plugin' = (if String.eqb (podCidr plugin) ""
                     then firstCIDR NET_PLUGIN_EVENT_POD_CIDR_CHANGE events
                     else podCidr plugin) /\
  loNetwork plugin' = loNetwork plugin /\
  defaultNetwork plugin' = defaultNetwork plugin.
Proof.
  cbv zeta. unfold Events. revert plugin.
  induction events as [| [evName details] rest IH]; intros plugin.
  - simpl. destruct (String.eqb_spec (podCidr plugin) ""); auto.
  - change (fold_left _ (_ :: rest) plugin)
      with (fold_left
              (fun p ev => Event NET_PLUGIN_EVENT_POD_CIDR_CHANGE p (fst ev) (snd ev))
              rest (Event NET_PLUGIN_EVENT_POD_CIDR_CHANGE plugin evName details)).
    destruct (IH (Event NET_PLUGIN_EVENT_POD_CIDR_CHANGE plugin evName details))
      as (Hc & Hl & Hd).
    rewrite Hc, Hl, Hd. clear IH Hc Hl Hd. unfold Event. simpl firstCIDR.
    destruct details as [cidr |];
      destruct (String.eqb_spec evName NET_PLUGIN_EVENT_POD_CIDR_CHANGE) as [-> | Hne];
      simpl; auto;
      destruct (String.eqb_spec (podCidr plugin) "") as [He | Hne']; simpl; auto.
    + destruct (String.eqb_spec cidr "") as [-> | Hc']; simpl; auto.
    + destruct (String.eqb_spec (podCidr plugin) ""); [contradiction | auto].
Qed.

Example Events_run :
  let plugin := {| loNetwork := None; defaultNetwork := None; podCidr := "" |} in
  podCidr (Events "pod-cidr-change" plugin
             [("other", Some "10.9.0.0/24"); ("pod-cidr-change", None);
              ("pod-cidr-change", Some ""); ("pod-cidr-change", Some "10.0.0.0/24");
              ("pod-cidr-change", Some "10.1.0.0/24")])
  = "10.0.0.0/24".
Proof. reflexivity. Qed.

End CniMoreFacts.
(** ** The Azure disk attacher: what the results of [Attach], [Detach] and
    [MountDevice] say about the calls that were made *)

Module AzureResultFacts.
Import Prog.
Import Go (outcome, Returns, Panics).

Ltac in_trace :=
  repeat match goal with
         | H : _ \/ _ |- _ => destruct H as [H | H]
         | H : False |- _ => destruct H
         | H : In _ (_ :: _) |- _ => destruct H as [H | H]
         | H : In _ [] |- _ => destruct H
         end.

Section Attach.
Import AzureDD AzureTrace.
Variable Spec : Type.
Variable getVolumeSource : Spec -> Go.err + AzureDiskVolumeSource.

Ltac path_step :=
  match goal with
  | |- forall _ : (string * Go.error)%type, _ => intros [? [? |]]
  | |- forall _ : (Z * Go.error)%type, _ => intros [? [? |]]
  | |- forall _ : Go.error, _ => intros [? |]
  | |- forall _ : unit, _ => intros []
  | |- context [Kind ?v] => destruct (Kind v) eqn:?
  | |- context [CachingMode ?v] => destruct (CachingMode v) eqn:?
  end; simpl.

(** X25. Whatever the cloud answers, [Attach] attaches at most once, an
    error comes with the empty string, and a string that comes without an
    error is the decimal LUN of the disk on the node: either the LUN at
    which [GetDiskLun] found the disk already attached, and then no lock was
    taken, no LUN allocated and nothing attached; or the LUN that
    [GetNextDiskLun] allocated and at which [AttachDisk] then succeeded. *)
Theorem Attach_returns_the_lun_of_the_disk (spec : Spec) (nodeName : string) :
  always (fun tr r =>
      (length (List.filter is_AttachDisk tr) <= 1)%nat /\
      (forall dev e, r = Returns (dev, Some e) -> dev = "") /\
      (forall dev, r = Returns (dev, None) ->
         exists volumeSource lun,
           getVolumeSource spec = inr volumeSource /\ dev = Go.Itoa lun /\
           (In (Event (GetDiskLun (DiskName volumeSource) (DataDiskURI volumeSource)
                         nodeName) (lun, None)) tr /\
            List.filter is_attaching tr = []
            \/
            exists kind cachingMode,
              Kind volumeSource = Some kind /\
              CachingMode volumeSource = Some cachingMode /\
              In (Event (GetNextDiskLun nodeName) (lun, None)) tr /\
              In (Event (AttachDisk (String.eqb kind AzureManagedDisk)
                           (DiskName volumeSource) (DataDiskURI volumeSource)
                           nodeName lun cachingMode) None) tr)))
    (Attach Spec getVolumeSource spec nodeName).
Proof.
  unfold Attach.
  destruct (getVolumeSource spec) as [e | volumeSource] eqn:Hsrc; simpl;
    repeat path_step;
    (split; [lia |]);
    (split; [intros dev e' H; inversion H; reflexivity |]);
    intros dev H; inversion H; subst;
    exists volumeSource; eexists; (split; [reflexivity |]); (split; [reflexivity |]).
  all: first [ left; split; [simpl; auto 10 | reflexivity]
             | right; eexists _, _; repeat split; simpl; eauto 10 ].
Qed.

(** X26. [Detach] answers [nil] in two cases only: the disk was detached
    by name from the node, or the instance id of the node could not be
    found and the detach was skipped without any call to the disk
    controller.  An empty disk URI is an error.  A non-nil answer is the
    error of the one [DetachDiskByName] call, if the call was made. *)
Theorem Detach_nil_means_detached_or_skipped (diskURI nodeName : string) :
  always (fun tr err =>
      let detaches := List.filter is_DetachDiskByName tr in
      (err = None ->
         diskURI <> "" /\
         (detaches = [Event (DetachDiskByName "" diskURI nodeName) None] \/
          detaches = [] /\
          exists id e, tr = [Event (InstanceID nodeName) (id, Some e)])) /\
      (forall e, err = Some e ->
         detaches = [] \/
         detaches = [Event (DetachDiskByName "" diskURI nodeName) (Some e)]))
    (Detach diskURI nodeName).
Proof.
  unfold Detach.
  destruct (String.eqb_spec diskURI "") as [-> | Hne]; simpl.
  - split; [discriminate | auto].
  - repeat path_step; split.
    all: try (intros H; discriminate H).
    all: try (intros e' H; inversion H; subst; auto; fail).
    all: intros _; split; [exact Hne | eauto 6].
Qed.

End Attach.

Section Mount.
Import AzureMount.
Import AzureDD (AzureDiskVolumeSource, FSType).
Variable Spec : Type.
Variable getVolumeSource : Spec -> Go.err + AzureDiskVolumeSource.
Variable util_MountOptionFromSpec : Spec -> list string -> list string.
Variable filepath_Dir : string -> string.
Variable GOOS : string.

#[local] Arguments Go.IsNotExist : simpl never.

Let MountDevice :=
  AzureMount.MountDevice Spec getVolumeSource util_MountOptionFromSpec filepath_Dir GOOS.

Ltac path_step :=
  match goal with
  | |- forall _ : (bool * Go.error)%type, _ => intros [[|] [? |]]
  | |- forall _ : Go.error, _ => intros [? |]
  | |- context [Go.IsNotExist ?e] => destruct (Go.IsNotExist e)
  | |- context [String.eqb GOOS ?b] => destruct (String.eqb GOOS b)
  | |- context [FSType ?v] => destruct (FSType v) eqn:?
  end; simpl.

(** X27. Whatever the node answers, [MountDevice] formats and mounts at
    most once, and only the given device on the given path with the file
    system type of the volume source and the mount options of the spec.  It
    answers [nil] in two cases only: that [FormatAndMount] succeeded, or the
    path was reported as a mount point, its directory could be read, and
    nothing else was called.  When [FormatAndMount] fails, [os.Remove] is
    called on the mount path and the answer is an error. *)
Theorem MountDevice_nil_means_mounted (spec : Spec)
    (devicePath deviceMountPath : string) :
  always (fun tr r =>
      let mounts := List.filter is_FormatAndMount tr in
      (length mounts <= 1)%nat /\
      (forall e, In e mounts ->
         exists volumeSource fstype,
           getVolumeSource spec = inr volumeSource /\
           FSType volumeSource = Some fstype /\
           ev_call e = FormatAndMount devicePath deviceMountPath fstype
                         (util_MountOptionFromSpec spec [])) /\
      (r = Returns None ->
         (exists fstype options,
            mounts = [Event (FormatAndMount devicePath deviceMountPath fstype options)
                        None]) \/
         tr = [Event (IsLikelyNotMountPoint deviceMountPath) (false, None);
               Event (ReadDir deviceMountPath) None]) /\
      (forall e, In e mounts -> mount_error e <> None ->
         (exists cleanErr, In (Event (Remove deviceMountPath) cleanErr) tr) /\
         exists msg, r = Returns (Go.Errorf msg)))
    (MountDevice spec devicePath deviceMountPath).
Proof.
  unfold MountDevice, AzureMount.MountDevice.
  destruct (getVolumeSource spec) as [e | volumeSource] eqn:Hsrc; simpl;
    repeat path_step.
  all: split; [simpl; lia |].
  all: split; [intros ev Hin; in_trace; subst; simpl; eauto 6 |].
  all: split; [intros H; try discriminate H; eauto 6 |].
  all: intros ev Hin Herr; in_trace; subst; simpl in *; try congruence.
  all: split; [eexists; eauto 10 | eexists; reflexivity].
Qed.

End Mount.
End AzureResultFacts.
(** ** The request of a pod *)

Module PodResourceFacts.
Import GoInt PodResource IntFacts.

Section Quantity.
Variable Quantity : Type.
Variable Value : Quantity -> Z.
Variable MilliValue : Quantity -> Z.
Variable ResourcePods : string.
Variable ResourceCPU : string.

Let requested := PodResource.requested Quantity Value MilliValue ResourceCPU.
Let sum_requested := PodResource.sum_requested Quantity Value MilliValue ResourceCPU.
Let addContainer := PodResource.addContainer Quantity Value MilliValue ResourceCPU.
Let maxInitContainer := PodResource.maxInitContainer Quantity Value MilliValue ResourceCPU.
Let GetResourceRequest :=
  PodResource.GetResourceRequest Quantity Value MilliValue ResourcePods ResourceCPU.

Lemma addContainer_requested (resource : string) (total : Z) (c : Container Quantity) :
  addContainer resource total c = int64 (total + requested resource c) \/
  addContainer resource total c = total /\ requested resource c = 0%Z.
Proof.
  unfold addContainer, requested, PodResource.addContainer, PodResource.requested.
  destruct (Requests c !! resource) as [q |]; [| right; split; reflexivity].
  left. destruct (String.eqb resource ResourceCPU); reflexivity.
Qed.

Lemma sum_requested_nonneg (resource : string) (cs : list (Container Quantity)) :
  (forall c, In c cs -> 0 <= requested resource c)%Z ->
  (0 <= sum_requested resource cs)%Z.
Proof.
  induction cs as [| c cs IH]; intros Hpos; simpl; [lia |].
  specialize (IH (fun c' H => Hpos c' (or_intror H))).
  specialize (Hpos c (or_introl eq_refl)).
  fold (sum_requested resource cs). fold (requested resource c). lia.
Qed.

(** Without overflow the first loop computes the exact sum. *)
Lemma fold_addContainer (resource : string) (cs : list (Container Quantity)) (total : Z) :
  (0 <= total)%Z ->
  (forall c, In c cs -> 0 <= requested resource c)%Z ->
  (total + sum_requested resource cs < 2 ^ 63)%Z ->
  fold_left (addContainer resource) cs total = (total + sum_requested resource cs)%Z.
Proof.
  revert total. induction cs as [| c cs IH]; intros total Ht Hpos Hsum; simpl.
  - lia.
  - fold (sum_requested resource cs) in *. fold (requested resource c) in *.
    pose proof (sum_requested_nonneg resource cs (fun c' H => Hpos c' (or_intror H)))
      as Hrest.
    pose proof (Hpos c (or_introl eq_refl)) as Hc.
    simpl in Hsum. fold (sum_requested resource cs) in Hsum.
    fold (requested resource c) in Hsum.
    destruct (addContainer_requested resource total c) as [Hadd | [Hadd Hzero]];
      rewrite Hadd.
    + rewrite int64_small by (unfold is_int64; lia).
      rewrite IH; [lia | lia | intros c' H; apply Hpos; right; exact H | lia].
    + rewrite IH; [lia | lia | intros c' H; apply Hpos; right; exact H | lia].
Qed.

Lemma maxInitContainer_ge (resource : string) (total : Z) (c : Container Quantity) :
  (total <= maxInitContainer resource total c)%Z.
Proof.
  unfold maxInitContainer, PodResource.maxInitContainer.
  destruct (Requests c !! resource) as [q |]; [| lia].
  destruct (String.eqb resource ResourceCPU); simpl;
    repeat match goal with
           | |- context [(?a >? ?b)%Z] => destruct (Z.gtb_spec a b)
           end; lia.
Qed.

Lemma maxInitContainer_covers (resource : string) (total : Z) (c : Container Quantity)
    (q : Quantity) :
  Requests c !! resource = Some q ->
  (requested resource c <= maxInitContainer resource total c)%Z.
Proof.
  intros Hq.
  unfold maxInitContainer, PodResource.maxInitContainer, requested, PodResource.requested.
  rewrite Hq.
  destruct (String.eqb resource ResourceCPU); simpl;
    repeat match goal with
           | |- context [(?a >? ?b)%Z] => destruct (Z.gtb_spec a b)
           end; lia.
Qed.

Lemma fold_maxInitContainer_ge (resource : string) (cs : list (Container Quantity))
    (total : Z) :
  (total <= fold_left (maxInitContainer resource) cs total)%Z.
Proof.
  revert total. induction cs as [| c cs IH]; intros total; simpl; [lia |].
  pose proof (maxInitContainer_ge resource total c).
  pose proof (IH (maxInitContainer resource total c)). lia.
Qed.

Lemma fold_maxInitContainer_covers (resource : string) (cs : list (Container Quantity))
    (total : Z) (c : Container Quantity) (q : Quantity) :
  In c cs -> Requests c !! resource = Some q ->
  (requested resource c <= fold_left (maxInitContainer resource) cs total)%Z.
Proof.
  revert total. induction cs as [| c' cs IH]; intros total Hin Hq; [destruct Hin |].
  simpl. destruct Hin as [-> | Hin].
  - pose proof (maxInitContainer_covers resource total c q Hq).
    pose proof (fold_maxInitContainer_ge resource cs (maxInitContainer resource total c)).
    lia.
  - apply IH; assumption.
Qed.

Lemma fold_maxInitContainer_origin (resource : string) (cs : list (Container Quantity))
    (total : Z) :
  fold_left (maxInitContainer resource) cs total = total \/
  exists c q, In c cs /\ Requests c !! resource = Some q /\
              (fold_left (maxInitContainer resource) cs total = Value q \/
               fold_left (maxInitContainer resource) cs total = MilliValue q).
Proof.
  revert total. induction cs as [| c cs IH]; intros total; simpl; [left; reflexivity |].
  destruct (IH (maxInitContainer resource total c)) as [Heq | (c' & q & Hin & Hq & Hr)].
  - rewrite Heq. unfold maxInitContainer, PodResource.maxInitContainer.
    destruct (Requests c !! resource) as [q |] eqn:Hq; [| left; reflexivity].
    destruct (String.eqb resource ResourceCPU && (MilliValue q >? total)%Z).
    + right. exists c, q. auto.
    + destruct (Value q >? total)%Z; [right; exists c, q; auto | left; reflexivity].
  - right. exists c', q. auto.
Qed.

(** X28. For a resource other than the pod count, when the requests of
    the containers are not negative and their sum fits an [int64],
    [GetResourceRequest] answers at least the sum of what the containers
    request and at least what every init container requests, CPU counted in
    milli-units; and the answer is that sum or the value of the request of
    one init container. *)
Theorem GetResourceRequest_covers_containers_and_init_containers
    (pod : Pod Quantity) (resource : string) :
  String.eqb resource ResourcePods = false ->
  (forall c, In c (Containers pod) -> 0 <= requested resource c)%Z ->
  (sum_requested resource (Containers pod) < 2 ^ 63)%Z ->
  let r := GetResourceRequest pod resource in
  (sum_requested resource (Containers pod) <= r)%Z /\
  (forall c, In c (InitContainers pod) -> requested resource c <= r)%Z /\
  (r = sum_requested resource (Containers pod) \/
   exists c q, In c (InitContainers pod) /\ Requests c !! resource = Some q /\
               (r = Value q \/ r = MilliValue q)).
Proof.
  intros Hpods Hpos Hsum. cbv zeta.
  unfold GetResourceRequest, PodResource.GetResourceRequest. rewrite Hpods.
  fold addContainer. fold maxInitContainer.
  rewrite (fold_addContainer resource (Containers pod) 0 (Z.le_refl 0) Hpos Hsum).
  rewrite Z.add_0_l.
  pose proof (sum_requested_nonneg resource (Containers pod) Hpos) as Hnonneg.
  pose proof (fold_maxInitContainer_ge resource (InitContainers pod)
                (sum_requested resource (Containers pod))) as Hge.
  split; [exact Hge |]. split.
  - intros c Hin.
    destruct (Requests c !! resource) as [q |] eqn:Hq.
    + exact (fold_maxInitContainer_covers resource _ _ c q Hin Hq).
    + assert (Hzero : requested resource c = 0%Z).
      { unfold requested, PodResource.requested. rewrite Hq. reflexivity. }
      lia.
  - apply fold_maxInitContainer_origin.
Qed.

End Quantity.

(** A pod of two containers and one init container; a quantity is a number
    of milli-units. *)
Lemma GetResourceRequest_covers_witness :
  let Value (q : Z) := ((q + 999) / 1000)%Z in
  let MilliValue (q : Z) := q in
  let pod := {| Containers := [ {| Name := "web"; Requests := {[ "cpu" := 250%Z ]} |};
                                {| Name := "log"; Requests := {[ "cpu" := 100%Z;
                                                                 "memory" := 64000%Z ]} |} ];
                InitContainers := [ {| Name := "init";
                                       Requests := {[ "cpu" := 500%Z ]} |} ] |} in
  let r := GetResourceRequest Z Value MilliValue "pods" "cpu" pod "cpu" in
  (sum_requested Z Value MilliValue "cpu" "cpu" (Containers pod) <= r)%Z /\
  (forall c, In c (InitContainers pod) ->
             requested Z Value MilliValue "cpu" "cpu" c <= r)%Z /\
  (r = sum_requested Z Value MilliValue "cpu" "cpu" (Containers pod) \/
   exists c q, In c (InitContainers pod) /\ Requests c !! "cpu" = Some q /\
               (r = Value q \/ r = MilliValue q)).
Proof.
  cbv zeta.
  apply (GetResourceRequest_covers_containers_and_init_containers
           Z (fun q => ((q + 999) / 1000)%Z) (fun q => q) "pods" "cpu"
           {| Containers := [ {| Name := "web"; Requests := {[ "cpu" := 250%Z ]} |};
                              {| Name := "log"; Requests := {[ "cpu" := 100%Z;
                                                               "memory" := 64000%Z ]} |} ];
              InitContainers := [ {| Name := "init";
                                     Requests := {[ "cpu" := 500%Z ]} |} ] |}
           "cpu").
  - reflexivity.
  - intros c Hin. simpl in Hin.
    destruct Hin as [<- | [<- | []]]; vm_compute; discriminate.
  - vm_compute. reflexivity.
Defined.

Example GetResourceRequest_runs :
  let Value (q : Z) := ((q + 999) / 1000)%Z in
  let MilliValue (q : Z) := q in
  let pod := {| Containers := [ {| Name := "web"; Requests := {[ "cpu" := 250%Z ]} |};
                                {| Name := "log"; Requests := {[ "cpu" := 100%Z;
                                                                 "memory" := 64000%Z ]} |} ];
                InitContainers := [ {| Name := "init";
                                       Requests := {[ "cpu" := 500%Z ]} |} ] |} in
  GetResourceRequest Z Value MilliValue "pods" "cpu" pod "cpu" = 500%Z /\
  GetResourceRequest Z Value MilliValue "pods" "cpu" pod "memory" = 64%Z /\
  GetResourceRequest Z Value MilliValue "pods" "cpu" pod "pods" = 1%Z.
Proof. vm_compute. repeat split. Qed.

End PodResourceFacts.
(** ** The provisioner of the AWS plugin *)

Module ProvisionFacts.
Import Prog VolumeSpec VolumeUtil AwsEbsProvision.

Lemma AccessModesContains_In (modes : list string) (mode : string) :
  AccessModesContains modes mode = true -> In mode modes.
Proof.
  induction modes as [| m rest IH]; simpl; [discriminate |].
  destruct (String.eqb_spec m mode) as [-> | _]; [left; reflexivity |].
  intros H. right. exact (IH H).
Qed.

Lemma AccessModesContainedInAll_In (indexedModes requestedModes : list string) :
  AccessModesContainedInAll indexedModes requestedModes = true ->
  forall mode, In mode requestedModes -> In mode indexedModes.
Proof.
  induction requestedModes as [| m rest IH]; simpl; intros Hall mode Hin; [destruct Hin |].
  destruct (AccessModesContains indexedModes m) eqn:Hm; simpl in Hall; [| discriminate].
  destruct Hin as [<- | Hin]; [exact (AccessModesContains_In _ _ Hm) | exact (IH Hall _ Hin)].
Qed.

Section Provisioner.
Variable Node : Type.
Variable BlockVolume : bool.
Variable VolumeScheduling : bool.
Variable PersistentVolumeBlock : string.
Variable NodeSelectorOpIn : string.

Let Provision :=
  AwsEbsProvision.Provision Node BlockVolume VolumeScheduling PersistentVolumeBlock
    NodeSelectorOpIn.

(** The labels loop copies the labels as they are, and gives one
    requirement for every label. *)
Lemma labelsLoop_copies (labels : gmap string string) :
  (labelsLoop NodeSelectorOpIn labels).1 = labels /\
  length (labelsLoop NodeSelectorOpIn labels).2 = size labels /\
  forall r, In r (labelsLoop NodeSelectorOpIn labels).2 ->
            exists v, labels !! Key r = Some v /\ Values r = [v] /\
                      Operator r = NodeSelectorOpIn.
Proof.
  unfold labelsLoop.
  apply (map_fold_weak_ind
           (fun (acc : gmap string string * list NodeSelectorRequirement)
                (m : gmap string string) =>
              acc.1 = m /\ length acc.2 = size m /\
              forall r, In r acc.2 ->
                        exists v, m !! Key r = Some v /\ Values r = [v] /\
                                  Operator r = NodeSelectorOpIn)).
  - split; [reflexivity |]. split; [reflexivity |]. intros r [].
  - intros k v m [pvLabels requirements] Hk (Hl & Hn & Hr). simpl in *.
    split; [rewrite Hl; reflexivity |]. split.
    + rewrite length_app, Hn, map_size_insert_None by exact Hk. simpl. lia.
    + intros r Hin. apply in_app_or in Hin. destruct Hin as [Hin | [<- | []]].
      * destruct (Hr r Hin) as (v' & Hv' & Hvals & Hop).
        exists v'. split; [| auto].
        rewrite lookup_insert_ne; [exact Hv' |]. intros ->. congruence.
      * exists v. simpl. rewrite lookup_insert_eq. auto.
Qed.

(** X29. [Provision] of the AWS plugin asks for a volume only when every
    access mode of the claim is supported; otherwise it fails without a
    call.  A volume that it returns comes without an error and after
    exactly one [CreateVolume] call that succeeded; its access modes are not
    empty and every one of them is [ReadWriteOnce]; it carries the volume
    id, the size and the labels that [CreateVolume] answered; a node
    affinity is set only when volume scheduling is enabled, with one
    requirement per label; and its file system type is empty only for a
    block volume. *)
Theorem Provision_access_modes_are_supported (options : VolumeOptions)
    (selectedNode : option Node) (allowedTopologies : list Zones.TopologySelectorTerm) :
  always (fun tr r =>
      (AccessModesContainedInAll AwsEbsPlugin.GetAccessModes (PVC_AccessModes options)
       = false -> tr = [] /\ exists msg, r = (None, Go.Errorf msg)) /\
      (forall e, r.2 = Some e -> r.1 = None) /\
      (forall pv, r.1 = Some pv ->
         r.2 = None /\
         AccessModes pv <> [] /\
         (forall mode, In mode (AccessModes pv) -> mode = AwsEbsPlugin.ReadWriteOnce) /\
         exists volumeID sizeGB labels fstype,
           tr = [Event (CreateVolume Node options selectedNode allowedTopologies)
                   (volumeID, sizeGB, labels, fstype, None)] /\
           EBS.VolumeID (AWSElasticBlockStore pv) = volumeID /\
           Capacity pv = (Go.Itoa sizeGB ++ "Gi")%string /\
           Labels pv = labels /\
           (forall requirements, NodeAffinity pv = Some requirements ->
              VolumeScheduling = true /\ length requirements = size labels /\
              forall r, In r requirements ->
                        exists v, labels !! Key r = Some v /\ Values r = [v]) /\
           (EBS.FSType (AWSElasticBlockStore pv) = "" ->
              BlockVolume = true /\ PVC_VolumeMode options = Some PersistentVolumeBlock)))
    (Provision options selectedNode allowedTopologies).
Proof.
  unfold Provision, AwsEbsProvision.Provision.
  destruct (AccessModesContainedInAll AwsEbsPlugin.GetAccessModes (PVC_AccessModes options))
    eqn:Hall; simpl.
  2: { split; [intros _; split; [reflexivity | eexists; reflexivity] |].
       split; [reflexivity | discriminate]. }
  intros [[[[volumeID sizeGB] labels] fstype] [e |]]; simpl.
  { split; [discriminate |]. split; [reflexivity | discriminate]. }
  assert (Hloop : exists pvLabels requirements,
             (if negb (size labels =? 0)%nat then labelsLoop NodeSelectorOpIn labels
              else (∅, [])) = (pvLabels, requirements) /\
             pvLabels = labels /\ length requirements = size labels /\
             forall r, In r requirements ->
                       exists v, labels !! Key r = Some v /\ Values r = [v]).
  { destruct (Nat.eqb_spec (size labels) 0) as [Hz | Hnz]; simpl.
    - exists ∅, []. split; [reflexivity |].
      split; [symmetry; apply map_size_empty_inv; exact Hz |].
      split; [simpl; lia | intros r []].
    - destruct (labelsLoop_copies labels) as (Hl & Hn & Hr).
      destruct (labelsLoop NodeSelectorOpIn labels) as [pvLabels requirements].
      exists pvLabels, requirements. simpl in *.
      split; [reflexivity |]. split; [exact Hl |]. split; [exact Hn |].
      intros r Hin. destruct (Hr r Hin) as (v & Hv & Hvals & _). eauto. }
  destruct Hloop as (pvLabels & requirements & -> & -> & Hn & Hr). simpl.
  split; [discriminate |]. split; [discriminate |].
  intros pv Hpv. injection Hpv as <-. simpl.
  split; [reflexivity |].
  assert (Hmodes : forall mode,
             In mode (if (length (PVC_AccessModes options) =? 0)%nat
                      then AwsEbsPlugin.GetAccessModes else PVC_AccessModes options) ->
             mode = AwsEbsPlugin.ReadWriteOnce).
  { intros mode Hin.
    assert (Hsup : In mode AwsEbsPlugin.GetAccessModes).
    { destruct (length (PVC_AccessModes options) =? 0)%nat; [exact Hin |].
      exact (AccessModesContainedInAll_In _ _ Hall mode Hin). }
    destruct Hsup as [<- | []]. reflexivity. }
  split.
  { destruct (PVC_AccessModes options) as [| m rest]; simpl; discriminate. }
  split; [exact Hmodes |].
  exists volumeID, sizeGB, labels, fstype.
  split; [reflexivity |]. split; [reflexivity |]. split; [reflexivity |].
  split; [reflexivity |]. split.
  - intros reqs Hreqs. destruct VolumeScheduling; [| discriminate].
    injection Hreqs as <-. auto.
  - destruct BlockVolume; simpl.
    + destruct (PVC_VolumeMode options) as [mode |].
      * destruct (String.eqb_spec mode PersistentVolumeBlock) as [-> | _]; [auto |].
        destruct (String.eqb_spec fstype "") as [-> | Hne]; intros H;
          [discriminate | contradiction].
      * destruct (String.eqb_spec fstype "") as [-> | Hne]; intros H;
          [discriminate | contradiction].
    + destruct (String.eqb_spec fstype "") as [-> | Hne]; intros H;
        [discriminate | contradiction].
Qed.

End Provisioner.

Example Provision_refuses_ReadOnlyMany :
  AwsEbsProvision.Provision unit true true "Block" "In"
    {| PVName := "pv-1"; PVC_AccessModes := ["ReadWriteOnce"; "ReadOnlyMany"];
       PVC_VolumeMode := None; ReclaimPolicy := "Delete"; OptionsMountOptions := [] |}
    None []
  = Ret (None, Go.Errorf ("invalid AccessModes [ReadWriteOnce ReadOnlyMany]: "
                          ++ "only AccessModes [ReadWriteOnce] are supported")).
Proof. reflexivity. Qed.

End ProvisionFacts.
